(** * Reactivity core of vue-core: dependency tracking and triggering

    A shallow embedding of
      - packages/reactivity/src/dep.ts      (Dep, addSub, track, trigger,
                                              getDepFromReactive)
      - packages/reactivity/src/debug.ts    (onTrack, onTrigger,
                                              setupDirtyLevelHandler)
      - packages/reactivity/src/computed.ts (ComputedRefImpl, computed)

    JavaScript objects live in a store addressed by handles: one finite map
    per class (Link, Dep, Subscriber).  A field holding an object reference
    holds a handle, [undefined] is [None].  Module-level variables
    ([globalVersion], [activeSub], [shouldTrack], [targetMap]) are fields of
    the state.  Every function of the source threads that state, so the
    aliasing between the two doubly linked lists a Link belongs to is the
    aliasing of the source. *)

From Stdlib Require Import ZArith String List Lia.
From stdpp Require Import base option list gmap strings.

Local Open Scope Z_scope.

(** ** Data model *)

(** Property keys, as far as dep.ts tells them apart: [void 0], strings
    (['length'], array indices), symbols, and any other value (compared by
    identity, as the keys of a [Map] are). *)
Inductive Key :=
  | KUndefined
  | KString (s : string)
  | KSymbol (n : nat)
  | KValue (n : nat).

#[global] Instance Key_eq_dec : EqDecision Key.
Proof. solve_decision. Defined.

Definition ITERATE_KEY : Key := KSymbol 0.
Definition MAP_KEY_ITERATE_KEY : Key := KSymbol 1.

Definition isSymbol (k : Key) : bool :=
  match k with KSymbol _ => true | _ => false end.

(** Modelled from the spec: constants.ts, which declares [TrackOpTypes] and
    [TriggerOpTypes], is not among the sources.  The interface contract
    gives the operation kinds: GET, HAS, ITERATE for [track] and SET, ADD,
    DELETE, CLEAR for [trigger] (the four that dep.ts tests). *)
Inductive TrackOpTypes := GET | HAS | ITERATE.
Inductive TriggerOpTypes := SET | ADD | DELETE | CLEAR.

#[global] Instance TriggerOpTypes_eq_dec : EqDecision TriggerOpTypes.
Proof. solve_decision. Defined.

(** A target object: its identity (the key of the WeakMap) and what
    [isArray] and [isMap] answer on it. *)
Inductive TargetKind := TArray | TMap | TOther.

Record Target := mkTarget { target_id : nat; target_kind : TargetKind }.

Definition isArray (t : Target) : bool :=
  match target_kind t with TArray => true | _ => false end.
Definition isMap (t : Target) : bool :=
  match target_kind t with TMap => true | _ => false end.

(** [interface Link]: the fields written by the object literal in
    [Dep.track]. *)
Record Link := mkLink {
  l_dep : nat;
  l_sub : nat;
  l_version : Z;
  l_nextDep : option nat;
  l_prevDep : option nat;
  l_nextSub : option nat;
  l_prevSub : option nat;
  l_prevActiveLink : option nat;
}.

(** [class Dep]. *)
Record Dep := mkDep {
  d_version : Z;
  d_activeLink : option nat;
  d_subs : option nat;
  d_computed : option nat;
}.

(** [interface Subscriber], with the answer to
    [instanceof ComputedRefImpl] and the two optional debug callbacks
    (a callback is named by a number). *)
Record Subscriber := mkSubscriber {
  s_deps : option nat;
  s_flags : Z;
  s_isComputed : bool;
  s_onTrack : option nat;
  s_onTrigger : option nat;
}.

(** A JavaScript [Map] keeps insertion order: an association list. *)
Definition KeyToDepMap := list (Key * nat).

Fixpoint Map_get (k : Key) (m : KeyToDepMap) : option nat :=
  match m with
  | [] => None
  | (k', d) :: m' => if decide (k' = k) then Some d else Map_get k m'
  end.

Fixpoint Map_set (k : Key) (d : nat) (m : KeyToDepMap) : KeyToDepMap :=
  match m with
  | [] => [(k, d)]
  | (k', d') :: m' =>
      if decide (k' = k) then (k', d) :: m' else (k', d') :: Map_set k d m'
  end.

Definition Map_values (m : KeyToDepMap) : list nat := map snd m.

Record State := mkState {
  links : gmap nat Link;
  deps : gmap nat Dep;
  subscribers : gmap nat Subscriber;
  globalVersion : Z;
  activeSub : option nat;
  shouldTrack : bool;
  targetMap : gmap nat KeyToDepMap;
}.

Definition set_links (f : gmap nat Link → gmap nat Link) (st : State) : State :=
  mkState (f (links st)) (deps st) (subscribers st) (globalVersion st)
          (activeSub st) (shouldTrack st) (targetMap st).
Definition set_deps (f : gmap nat Dep → gmap nat Dep) (st : State) : State :=
  mkState (links st) (f (deps st)) (subscribers st) (globalVersion st)
          (activeSub st) (shouldTrack st) (targetMap st).
Definition set_subscribers
    (f : gmap nat Subscriber → gmap nat Subscriber) (st : State) : State :=
  mkState (links st) (deps st) (f (subscribers st)) (globalVersion st)
          (activeSub st) (shouldTrack st) (targetMap st).
Definition set_globalVersion (f : Z → Z) (st : State) : State :=
  mkState (links st) (deps st) (subscribers st) (f (globalVersion st))
          (activeSub st) (shouldTrack st) (targetMap st).
Definition set_targetMap
    (f : gmap nat KeyToDepMap → gmap nat KeyToDepMap) (st : State) : State :=
  mkState (links st) (deps st) (subscribers st) (globalVersion st)
          (activeSub st) (shouldTrack st) (f (targetMap st)).

(** Field updates of the three classes. *)
Definition with_version (v : Z) (l : Link) : Link :=
  mkLink (l_dep l) (l_sub l) v (l_nextDep l) (l_prevDep l)
         (l_nextSub l) (l_prevSub l) (l_prevActiveLink l).
Definition with_nextDep (n : option nat) (l : Link) : Link :=
  mkLink (l_dep l) (l_sub l) (l_version l) n (l_prevDep l)
         (l_nextSub l) (l_prevSub l) (l_prevActiveLink l).
Definition with_prevDep (p : option nat) (l : Link) : Link :=
  mkLink (l_dep l) (l_sub l) (l_version l) (l_nextDep l) p
         (l_nextSub l) (l_prevSub l) (l_prevActiveLink l).
Definition with_nextSub (n : option nat) (l : Link) : Link :=
  mkLink (l_dep l) (l_sub l) (l_version l) (l_nextDep l) (l_prevDep l)
         n (l_prevSub l) (l_prevActiveLink l).
Definition with_prevSub (p : option nat) (l : Link) : Link :=
  mkLink (l_dep l) (l_sub l) (l_version l) (l_nextDep l) (l_prevDep l)
         (l_nextSub l) p (l_prevActiveLink l).

Definition with_d_version (v : Z) (d : Dep) : Dep :=
  mkDep v (d_activeLink d) (d_subs d) (d_computed d).
Definition with_activeLink (a : option nat) (d : Dep) : Dep :=
  mkDep (d_version d) a (d_subs d) (d_computed d).
Definition with_subs (s : option nat) (d : Dep) : Dep :=
  mkDep (d_version d) (d_activeLink d) s (d_computed d).

Definition with_deps (l : option nat) (s : Subscriber) : Subscriber :=
  mkSubscriber l (s_flags s) (s_isComputed s) (s_onTrack s) (s_onTrigger s).
Definition with_flags (f : Z) (s : Subscriber) : Subscriber :=
  mkSubscriber (s_deps s) f (s_isComputed s) (s_onTrack s) (s_onTrigger s).

(** Truthiness of a number. *)
Definition truthy (z : Z) : bool := negb (z =? 0).

(** ** The program *)

Section Reactivity.

(** *** What dep.ts imports and the sources at hand do not contain

    effect.ts ([EffectFlags], [startBatch], [endBatch], the [notify]
    method of the subscribers), the helper [isIntegerKey] of @vue/shared
    and the build flag [__DEV__] are parameters.  The members of
    [EffectFlags] are int32 bit masks, on which [&] and [|] are [Z.land]
    and [Z.lor].  JavaScript values and numbers stay abstract, with the
    coercion [Number(v)] and the comparison [key >= n] of the language.
    The two version counters are integers ([Z]), as JavaScript numbers are
    below 2^53.

    The calls into effect.ts are total state transformers: what they throw
    is outside this model, so the [try ... finally] of [Dep.notify] is
    plain sequencing here. *)
Variable JSValue : Type.
Variable JSNumber : Type.
Variable Number_ : JSValue → JSNumber.
Variable key_ge : Key → JSNumber → bool.
Variable isIntegerKey : Key → bool.

Variable __DEV__ : bool.
Variables TRACKING DIRTY NOTIFIED : Z.

Variable startBatch : State → State.
Variable endBatch : State → State.
Variable Subscriber_notify : nat → State → State.

(** [DebuggerEventExtraInfo]: what [track] and [trigger] pass along in a
    development build. *)
Inductive DebuggerEventExtraInfo :=
  | TrackInfo (target : Target) (type : TrackOpTypes) (key : Key)
  | TriggerInfo (target : Target) (type : TriggerOpTypes) (key : Key)
                (newValue oldValue oldTarget : JSValue).

(** Calls that leave this module, in the order they are made.  The debug
    callbacks and [warn] are observers: the trace records them.  The
    calls into effect.ts are recorded and also transform the state. *)
Inductive Event :=
  | EvOnTrack (effect : nat) (info : option DebuggerEventExtraInfo)
  | EvOnTrigger (effect : nat) (info : option DebuggerEventExtraInfo)
  | EvNotify (sub : nat)
  | EvStartBatch
  | EvEndBatch
  | EvWarn (msg : string)
  | EvSetter (newValue : JSValue).

(** The state of the modules: the object graph, the array
    [triggerEventInfos] of debug.ts, and the trace. *)
Record World := mkWorld {
  heap : State;
  triggerEventInfos : list DebuggerEventExtraInfo;
  trace : list Event;
}.

Inductive Error :=
  | TypeError
  | InternalError (msg : string).

(** How a call ends: it returns, it throws, it reads through a handle
    that names no object (no JavaScript state looks like that), or the
    loop budget is used up. *)
Inductive Result (A : Type) :=
  | Normal (a : A) (w : World)
  | Thrown (e : Error) (w : World)
  | Dangling
  | OutOfFuel.
Arguments Normal {A} a w.
Arguments Thrown {A} e w.
Arguments Dangling {A}.
Arguments OutOfFuel {A}.

Definition M (A : Type) : Type := World → Result A.

Definition ret {A} (a : A) : M A := fun w => Normal a w.

Definition bind {A B} (m : M A) (k : A → M B) : M B :=
  fun w =>
    match m w with
    | Normal a w' => k a w'
    | Thrown e w' => Thrown e w'
    | Dangling => Dangling
    | OutOfFuel => OutOfFuel
    end.

Notation "x <- m ;; k" := (bind m (fun x => k))
  (at level 100, m at next level, right associativity).
Notation "m ;; k" := (bind m (fun _ => k))
  (at level 100, right associativity).

Definition throw {A} (e : Error) : M A := fun w => Thrown e w.
Definition out_of_fuel {A} : M A := fun _ => OutOfFuel.

Definition get_state : M State := fun w => Normal (heap w) w.
Definition modify (f : State → State) : M unit :=
  fun w => Normal tt (mkWorld (f (heap w)) (triggerEventInfos w) (trace w)).
Definition emit (e : Event) : M unit :=
  fun w => Normal tt (mkWorld (heap w) (triggerEventInfos w) (trace w ++ [e])).

Definition when (b : bool) (m : M unit) : M unit := if b then m else ret tt.

(** Reading an object through its handle. *)
Definition getLink (l : nat) : M Link :=
  fun w => match links (heap w) !! l with
           | Some r => Normal r w
           | None => Dangling
           end.
Definition getDep (d : nat) : M Dep :=
  fun w => match deps (heap w) !! d with
           | Some r => Normal r w
           | None => Dangling
           end.
Definition getSub (s : nat) : M Subscriber :=
  fun w => match subscribers (heap w) !! s with
           | Some r => Normal r w
           | None => Dangling
           end.

(** Writing a field of an object.  A write through a handle that names no
    object is dropped; such a handle is in no JavaScript state. *)
Definition setLink (l : nat) (f : Link → Link) : M unit :=
  modify (set_links (alter f l)).
Definition setDep (d : nat) (f : Dep → Dep) : M unit :=
  modify (set_deps (alter f d)).
Definition setSub (s : nat) (f : Subscriber → Subscriber) : M unit :=
  modify (set_subscribers (alter f s)).

(** [new]: the next unused handle. *)
Definition newLink (r : Link) : M nat :=
  fun w =>
    let l := fresh (dom (links (heap w))) in
    Normal l (mkWorld (set_links (insert l r) (heap w))
                      (triggerEventInfos w) (trace w)).
Definition newDep (r : Dep) : M nat :=
  fun w =>
    let d := fresh (dom (deps (heap w))) in
    Normal d (mkWorld (set_deps (insert d r) (heap w))
                      (triggerEventInfos w) (trace w)).

(** *** dep.ts *)

(** [function addSub(link)] *)
Definition addSub (link : nat) : M unit :=
  lr <- getLink link;;
  dp <- getDep (l_dep lr);;
  let currentTail := d_subs dp in
  when (negb (bool_decide (currentTail = Some link)))
    (setLink link (with_prevSub currentTail);;
     match currentTail with
     | Some t => setLink t (with_nextSub (Some link))
     | None => ret tt
     end);;
  lr <- getLink link;;
  setDep (l_dep lr) (with_subs (Some link)).

(** [for (let l = computed.deps; l !== undefined; l = l.nextDep) addSub(l)] *)
Fixpoint addSub_loop (fuel : nat) (l : option nat) : M unit :=
  match l with
  | None => ret tt
  | Some x =>
      match fuel with
      | O => out_of_fuel
      | S fuel' =>
          addSub x;;
          lr <- getLink x;;
          addSub_loop fuel' (l_nextDep lr)
      end
  end.

(** [Dep.track(debugInfo)] *)
Definition Dep_track (fuel : nat) (this : nat)
    (debugInfo : option DebuggerEventExtraInfo) : M (option nat) :=
  st <- get_state;;
  match activeSub st with
  | None => ret None
  | Some a =>
    if negb (shouldTrack st) then ret None else
    d <- getDep this;;
    reused <-
      match d_activeLink d with
      | None => ret None
      | Some l =>
          lr <- getLink l;;
          ret (if bool_decide (l_sub lr = a) then Some l else None)
      end;;
    link <-
      match reused with
      | None =>
          sa <- getSub a;;
          link <- newLink (mkLink this a (d_version d) None (s_deps sa)
                                     None None None);;
          setDep this (with_activeLink (Some link));;
          (* add the link to the activeEffect as a dep (as tail) *)
          sa <- getSub a;;
          match s_deps sa with
          | Some t => setLink t (with_nextDep (Some link))
          | None => ret tt
          end;;
          setSub a (with_deps (Some link));;
          (* add the link to this dep as a subscriber (as tail) *)
          sa <- getSub a;;
          when (truthy (Z.land (s_flags sa) TRACKING))
            (d <- getDep this;;
             match d_computed d, d_subs d with
             | Some c, None =>
                 sc <- getSub c;;
                 setSub c (with_flags
                             (Z.lor (s_flags sc) (Z.lor TRACKING DIRTY)));;
                 sc <- getSub c;;
                 addSub_loop fuel (s_deps sc)
             | _, _ => ret tt
             end;;
             addSub link);;
          ret link
      | Some link =>
          lr <- getLink link;;
          when (l_version lr =? -1)
            ((* reused from last run - already a sub, just sync version *)
             d <- getDep this;;
             setLink link (with_version (d_version d));;
             lr <- getLink link;;
             match l_nextDep lr with
             | None => ret tt
             | Some n =>
                 setLink n (with_prevDep (l_prevDep lr));;
                 lr <- getLink link;;
                 match l_prevDep lr with
                 | Some p => setLink p (with_nextDep (l_nextDep lr))
                 | None => ret tt
                 end;;
                 sa <- getSub a;;
                 setLink link (with_prevDep (s_deps sa));;
                 setLink link (with_nextDep None);;
                 sa <- getSub a;;
                 match s_deps sa with
                 | Some t => setLink t (with_nextDep (Some link))
                 | None => throw TypeError
                 end;;
                 setSub a (with_deps (Some link))
             end);;
          ret link
      end;;
    sa <- getSub a;;
    when (__DEV__ && bool_decide (is_Some (s_onTrack sa)))
      (emit (EvOnTrack a debugInfo));;
    ret (Some link)
  end.

(** [for (let link = this.subs; link !== undefined; link = link.prevSub)] of
    [Dep.notify] *)
Fixpoint notify_loop (fuel : nat) (debugInfo : option DebuggerEventExtraInfo)
    (link : option nat) : M unit :=
  match link with
  | None => ret tt
  | Some l =>
      match fuel with
      | O => out_of_fuel
      | S fuel' =>
          lr <- getLink l;;
          s <- getSub (l_sub lr);;
          when (__DEV__ && bool_decide (is_Some (s_onTrigger s))
                && negb (truthy (Z.land (s_flags s) NOTIFIED)))
            (emit (EvOnTrigger (l_sub lr) debugInfo));;
          lr <- getLink l;;
          emit (EvNotify (l_sub lr));;
          modify (Subscriber_notify (l_sub lr));;
          lr <- getLink l;;
          notify_loop fuel' debugInfo (l_prevSub lr)
      end
  end.

(** [activeSub instanceof ComputedRefImpl] *)
Definition activeSub_isComputed : M bool :=
  st <- get_state;;
  match activeSub st with
  | None => ret false
  | Some a => sa <- getSub a;; ret (s_isComputed sa)
  end.

(** [Dep.notify(debugInfo)] *)
Definition Dep_notify (fuel : nat) (this : nat)
    (debugInfo : option DebuggerEventExtraInfo) : M unit :=
  isComputed <- activeSub_isComputed;;
  if negb isComputed then
    emit EvStartBatch;;
    modify startBatch;;
    d <- getDep this;;
    notify_loop fuel debugInfo (d_subs d);;
    emit EvEndBatch;;
    modify endBatch
  else if __DEV__ then
    (* reactive side effect triggered during computed evaluation
       TODO warning *)
    ret tt
  else ret tt.

(** [Dep.trigger(debugInfo)] *)
Definition Dep_trigger (fuel : nat) (this : nat)
    (debugInfo : option DebuggerEventExtraInfo) : M unit :=
  d <- getDep this;;
  setDep this (with_d_version (d_version d + 1));;
  modify (set_globalVersion (fun v => v + 1));;
  Dep_notify fuel this debugInfo.

(** [export function track(target, type, key)] *)
Definition track (fuel : nat) (target : Target) (type : TrackOpTypes)
    (key : Key) : M unit :=
  st <- get_state;;
  if shouldTrack st && bool_decide (is_Some (activeSub st)) then
    depsMap <-
      match targetMap st !! target_id target with
      | Some m => ret m
      | None => modify (set_targetMap (insert (target_id target) []));; ret []
      end;;
    dep <-
      match Map_get key depsMap with
      | Some d => ret d
      | None =>
          d <- newDep (mkDep 0 None None None);;
          modify (set_targetMap (alter (Map_set key d) (target_id target)));;
          ret d
      end;;
    Dep_track fuel dep
      (if __DEV__ then Some (TrackInfo target type key) else None);;
    ret tt
  else ret tt.

(** [const push = (dep) => dep && deps.push(dep)], as the list of what is
    pushed. *)
Definition push (dep : option nat) : list nat :=
  match dep with Some d => [d] | None => [] end.

(** The array [deps] that [trigger] fills before it runs anything. *)
Definition collect_deps (target : Target) (type : TriggerOpTypes) (key : Key)
    (newValue : JSValue) (depsMap : KeyToDepMap) : list nat :=
  if bool_decide (type = CLEAR) then
    (* collection being cleared: trigger all effects for target *)
    Map_values depsMap
  else if bool_decide (key = KString "length") && isArray target then
    let newLength := Number_ newValue in
    Map_values
      (List.filter
         (fun kd => bool_decide (fst kd = KString "length")
                    || (negb (isSymbol (fst kd)) && key_ge (fst kd) newLength))
         depsMap)
  else
    (* schedule runs for SET | ADD | DELETE *)
    (if bool_decide (key ≠ KUndefined) then push (Map_get key depsMap) else [])
    ++
    (* also run for iteration key on ADD | DELETE | Map.SET *)
    match type with
    | ADD =>
        if negb (isArray target) then
          push (Map_get ITERATE_KEY depsMap)
          ++ (if isMap target then push (Map_get MAP_KEY_ITERATE_KEY depsMap)
              else [])
        else if isIntegerKey key then
          (* new index added to array -> length changes *)
          push (Map_get (KString "length") depsMap)
        else []
    | DELETE =>
        if negb (isArray target) then
          push (Map_get ITERATE_KEY depsMap)
          ++ (if isMap target then push (Map_get MAP_KEY_ITERATE_KEY depsMap)
              else [])
        else []
    | SET =>
        if isMap target then push (Map_get ITERATE_KEY depsMap) else []
    | CLEAR => []
    end.

(** [for (const dep of deps) dep.trigger(...)] *)
Fixpoint trigger_each (fuel : nat) (debugInfo : option DebuggerEventExtraInfo)
    (ds : list nat) : M unit :=
  match ds with
  | [] => ret tt
  | d :: ds' => Dep_trigger fuel d debugInfo;; trigger_each fuel debugInfo ds'
  end.

(** [export function trigger(target, type, key, newValue, oldValue,
    oldTarget)] *)
Definition trigger (fuel : nat) (target : Target) (type : TriggerOpTypes)
    (key : Key) (newValue oldValue oldTarget : JSValue) : M unit :=
  st <- get_state;;
  match targetMap st !! target_id target with
  | None =>
      (* never been tracked *)
      modify (set_globalVersion (fun v => v + 1))
  | Some depsMap =>
      let ds := collect_deps target type key newValue depsMap in
      emit EvStartBatch;;
      modify startBatch;;
      trigger_each fuel
        (if __DEV__
         then Some (TriggerInfo target type key newValue oldValue oldTarget)
         else None) ds;;
      emit EvEndBatch;;
      modify endBatch
  end.

(** *** debug.ts *)

Definition get_triggerEventInfos : M (list DebuggerEventExtraInfo) :=
  fun w => Normal (triggerEventInfos w) w.

(** [export function onTrack(sub, debugInfo)] *)
Definition onTrack (sub : nat) (debugInfo : DebuggerEventExtraInfo) : M unit :=
  if negb __DEV__ then
    throw (InternalError
             "Internal error: onTrack should be called only in development.")
  else
    s <- getSub sub;;
    when (bool_decide (is_Some (s_onTrack s)))
      (emit (EvOnTrack sub (Some debugInfo))).

(** [export function onTrigger(sub)] *)
Definition onTrigger (sub : nat) : M unit :=
  if negb __DEV__ then
    throw (InternalError
             "Internal error: onTrigger should be called only in development.")
  else
    s <- getSub sub;;
    when (bool_decide (is_Some (s_onTrigger s)))
      (infos <- get_triggerEventInfos;;
       let debugInfo := last infos in
       emit (EvOnTrigger sub debugInfo)).

(** *** computed.ts *)

Definition ComputedGetter : Type := option JSValue → State → JSValue * State.
Definition ComputedSetter : Type := JSValue → State → State.

Record ComputedRefImpl := mkComputedRefImpl {
  c_fn : ComputedGetter;
  c_setter : option ComputedSetter;
  c_isSSR : bool;
  c_isRef : bool;
  c_isReadonly : bool;
  c_onTrack : option nat;
  c_onTrigger : option nat;
}.

(** The inherited [get()] of the base class (alien-signals), not part of the
    sources. *)
Variable Computed_get : ComputedRefImpl → State → JSValue * State.

(** [constructor(fn, setter, isSSR)] *)
Definition new_ComputedRefImpl (fn : ComputedGetter)
    (setter : option ComputedSetter) (isSSR : bool) : ComputedRefImpl :=
  mkComputedRefImpl fn setter isSSR true
    (negb (bool_decide (is_Some setter))) None None.

(** [get value()] *)
Definition ComputedRefImpl_get_value (this : ComputedRefImpl) : M JSValue :=
  fun w =>
    let '(v, st) := Computed_get this (heap w) in
    Normal v (mkWorld st (triggerEventInfos w) (trace w)).

Definition warn (msg : string) : M unit := emit (EvWarn msg).

(** [set value(newValue)] *)
Definition ComputedRefImpl_set_value (this : ComputedRefImpl)
    (newValue : JSValue) : M unit :=
  match c_setter this with
  | Some setter => emit (EvSetter newValue);; modify (setter newValue)
  | None =>
      if __DEV__ then
        warn "Write operation failed: computed value is readonly"
      else ret tt
  end.

(** The argument of [computed]: a getter function, or an object with [get]
    and [set]. *)
Inductive GetterOrOptions :=
  | OfGetter (getter : ComputedGetter)
  | OfOptions (get : ComputedGetter) (set : ComputedSetter).

Record DebuggerOptions := mkDebuggerOptions {
  dbg_onTrack : option nat;
  dbg_onTrigger : option nat;
}.

(** [export function computed(getterOrOptions, debugOptions, isSSR = false)] *)
Definition computed (getterOrOptions : GetterOrOptions)
    (debugOptions : option DebuggerOptions) (isSSR : bool) : ComputedRefImpl :=
  let '(getter, setter) :=
    match getterOrOptions with
    | OfGetter g => (g, None)
    | OfOptions g s => (g, Some s)
    end in
  let cRef := new_ComputedRefImpl getter setter isSSR in
  match debugOptions with
  | Some o =>
      if __DEV__ && negb isSSR then
        mkComputedRefImpl (c_fn cRef) (c_setter cRef) (c_isSSR cRef)
          (c_isRef cRef) (c_isReadonly cRef) (dbg_onTrack o) (dbg_onTrigger o)
      else cRef
  | None => cRef
  end.

(** *** An instance of the parameters, and sample object graphs

    For the closed examples: [EffectFlags] as bit masks (ACTIVE 1,
    TRACKING 4, NOTIFIED 8, DIRTY 16), batches that have nothing to flush,
    a [notify] that leaves the graph alone, JavaScript values that are
    integers, and [key >= n] as it is on array indices (strings of decimal
    digits) and on keys that are not numbers, such as ['length']. *)
Definition flag_TRACKING : Z := 4.
Definition flag_NOTIFIED : Z := 8.
Definition flag_DIRTY : Z := 16.

Definition no_flush : State → State := fun st => st.
Definition notify_only_recorded : nat → State → State := fun _ st => st.

Fixpoint digits_value (s : string) (acc : Z) : option Z :=
  match s with
  | EmptyString => Some acc
  | String ch s' =>
      let n := Z.of_nat (Ascii.nat_of_ascii ch) in
      if (48 <=? n) && (n <=? 57)
      then digits_value s' (10 * acc + (n - 48))
      else None
  end.

Definition index_ge (k : Key) (n : Z) : bool :=
  match k with
  | KString s =>
      match digits_value s 0 with
      | Some i => n <=? i
      | None => false
      end
  | _ => false
  end.

(** [isIntegerKey] on strings of digits: ["0"], or digits that do not start
    with ['0']. *)
Definition digits_integer_key (k : Key) : bool :=
  match k with
  | KString (String ch s') =>
      match digits_value (String ch s') 0 with
      | Some _ =>
          negb (Z.of_nat (Ascii.nat_of_ascii ch) =? 48)
          || bool_decide (s' = EmptyString)
      | None => false
      end
  | _ => false
  end.

(** Nothing is running. *)
Definition graph_idle : State := mkState ∅ ∅ ∅ 0 None true ∅.

(** The computed 1 is being evaluated; dependency 0 has the effect 2 as
    its one subscriber. *)
Definition graph_in_computed : State :=
  mkState
    (list_to_map [(0%nat, mkLink 0 2 0 None None None None None)])
    (list_to_map [(0%nat, mkDep 0 None (Some 0%nat) None)])
    (list_to_map [(1%nat, mkSubscriber None 4 true None None);
                  (2%nat, mkSubscriber (Some 0%nat) 5 false None (Some 7%nat))])
    0 (Some 1%nat) true ∅.

(** [graph_in_computed] when nothing is running. *)
Definition graph_one_subscriber : State :=
  mkState (links graph_in_computed) (deps graph_in_computed)
    (subscribers graph_in_computed) 0 None true ∅.

(** The effect 1 runs again: its three links 10, 11, 12 (to the
    dependencies 0, 1, 2) carry the version -1 and are the active links of
    their dependencies; [deps] is the tail 12. *)
Definition graph_rerun : State :=
  mkState
    (list_to_map
       [(10%nat, mkLink 0 1 (-1) (Some 11%nat) None None None None);
        (11%nat, mkLink 1 1 (-1) (Some 12%nat) (Some 10%nat) None None None);
        (12%nat, mkLink 2 1 (-1) None (Some 11%nat) None None None)])
    (list_to_map
       [(0%nat, mkDep 3 (Some 10%nat) (Some 10%nat) None);
        (1%nat, mkDep 0 (Some 11%nat) (Some 11%nat) None);
        (2%nat, mkDep 0 (Some 12%nat) (Some 12%nat) None)])
    (list_to_map [(1%nat, mkSubscriber (Some 12%nat) 5 false None None)])
    0 (Some 1%nat) true ∅.

(** The same run after dependency 0 has been read once: link 10 is synced
    to version 3 and sits at the tail. *)
Definition graph_read_once : State :=
  mkState
    (list_to_map
       [(10%nat, mkLink 0 1 3 None (Some 12%nat) None None None);
        (11%nat, mkLink 1 1 (-1) (Some 12%nat) None None None None);
        (12%nat, mkLink 2 1 (-1) (Some 10%nat) (Some 11%nat) None None None)])
    (deps graph_rerun)
    (list_to_map [(1%nat, mkSubscriber (Some 10%nat) 5 false None None)])
    0 (Some 1%nat) true ∅.

(** [graph_read_once] with tracking paused. *)
Definition graph_read_once_paused : State :=
  mkState (links graph_read_once) (deps graph_read_once)
    (subscribers graph_read_once) 0 (Some 1%nat) false ∅.

(** The effect 1 (ACTIVE | TRACKING) runs for the first time; dependency 0
    belongs to the idle computed 2, whose links 20 and 21 lead to the
    dependencies 5 and 6; nothing subscribes to anything yet. *)
Definition graph_idle_computed : State :=
  mkState
    (list_to_map
       [(20%nat, mkLink 5 2 0 (Some 21%nat) None None None None);
        (21%nat, mkLink 6 2 0 None (Some 20%nat) None None None)])
    (list_to_map
       [(0%nat, mkDep 0 None None (Some 2%nat));
        (5%nat, mkDep 0 None None None);
        (6%nat, mkDep 0 None None None)])
    (list_to_map [(1%nat, mkSubscriber None 5 false None None);
                  (2%nat, mkSubscriber (Some 20%nat) 0 true None None)])
    0 (Some 1%nat) true ∅.

(** [graph_idle_computed] with tracking paused. *)
Definition graph_idle_computed_paused : State :=
  mkState (links graph_idle_computed) (deps graph_idle_computed)
    (subscribers graph_idle_computed) 0 (Some 1%nat) false ∅.

(** [graph_idle_computed] where the effect 1 already holds the link 30 to
    dependency 0, cached as its active link and not attached. *)
Definition graph_idle_computed_cached : State :=
  mkState
    (<[30%nat := mkLink 0 1 0 None None None None None]>
       (links graph_idle_computed))
    (<[0%nat := mkDep 0 (Some 30%nat) None (Some 2%nat)]>
       (deps graph_idle_computed))
    (<[1%nat := mkSubscriber (Some 30%nat) 5 false None None]>
       (subscribers graph_idle_computed))
    0 (Some 1%nat) true ∅.

(** The array 1 is tracked under ['length'], the indices 0, 1, 2 and the
    iteration symbol. *)
Definition the_array : Target := mkTarget 1 TArray.

Definition graph_array : State :=
  mkState ∅
    (list_to_map
       [(0%nat, mkDep 0 None None None); (1%nat, mkDep 0 None None None);
        (2%nat, mkDep 0 None None None); (3%nat, mkDep 0 None None None);
        (4%nat, mkDep 0 None None None)])
    ∅ 0 None true
    (list_to_map
       [(1%nat, [(KString "length", 0%nat); (KString "0", 1%nat);
                 (KString "1", 2%nat); (KString "2", 3%nat);
                 (ITERATE_KEY, 4%nat)])]).

(** The effect 1 is running and has read nothing yet. *)
Definition graph_first_run : State :=
  mkState ∅ ∅
    (list_to_map [(1%nat, mkSubscriber None 5 false None None)])
    0 (Some 1%nat) true ∅.

Definition the_object : Target := mkTarget 7 TOther.

(** *** Well-formed dependency lists

    The links a subscriber holds, read from the head of its list to the tail
    its [deps] field points to (in dep.ts [deps] is the tail: a new link gets
    [prevDep: activeSub.deps]).  [dep_chain lk prev xs nxt] checks a segment
    of such a list: every link is allocated, its [prevDep] is the link
    before it ([prev] for the first) and its [nextDep] the link after it
    ([nxt] for the last). *)
Definition head_or (nxt : option nat) (xs : list nat) : option nat :=
  match xs with [] => nxt | y :: _ => Some y end.

Definition last_or (prev : option nat) (xs : list nat) : option nat :=
  match last xs with Some y => Some y | None => prev end.

Definition node_b (lk : gmap nat Link) (x : nat) (p n : option nat) : bool :=
  match lk !! x with
  | Some r => bool_decide (l_prevDep r = p) && bool_decide (l_nextDep r = n)
  | None => false
  end.

Fixpoint dep_chain (lk : gmap nat Link) (prev : option nat) (xs : list nat)
    (nxt : option nat) : bool :=
  match xs with
  | [] => true
  | x :: rest =>
      node_b lk x prev (head_or nxt rest) && dep_chain lk (Some x) rest nxt
  end.

(** [ls] is the dependency list of subscriber [s]: a doubly linked list
    without repetition whose tail is [s.deps]. *)
Definition wf_deps (st : State) (s : nat) (ls : list nat) : bool :=
  match subscribers st !! s with
  | Some sr =>
      bool_decide (NoDup ls)
      && dep_chain (links st) None ls None
      && bool_decide (s_deps sr = last ls)
  | None => false
  end.

(** *** Lazy subscription of a computed

    [dep_walk lk start ls]: the loop
    [for (let l = start; l !== undefined; l = l.nextDep)] visits the links
    [ls], in this order, and ends. *)
Fixpoint dep_walk (lk : gmap nat Link) (start : option nat) (ls : list nat)
    : bool :=
  match ls with
  | [] => bool_decide (start = None)
  | l :: rest =>
      bool_decide (start = Some l)
      && match lk !! l with
         | Some r => dep_walk lk (l_nextDep r) rest
         | None => false
         end
  end.

(** The dependencies the links [ls] lead to. *)
Fixpoint link_deps (lk : gmap nat Link) (ls : list nat) : list nat :=
  match ls with
  | [] => []
  | l :: rest =>
      match lk !! l with
      | Some r => l_dep r :: link_deps lk rest
      | None => link_deps lk rest
      end
  end.

(** The test [link === undefined || link.sub !== activeSub] of [Dep.track]
    on the dependency [dp] and the active subscriber [a]. *)
Definition no_link_of (st : State) (dp : Dep) (a : nat) : bool :=
  match d_activeLink dp with
  | None => true
  | Some l0 =>
      match links st !! l0 with
      | Some lr0 => negb (bool_decide (l_sub lr0 = a))
      | None => false
      end
  end.

(** The links [ls] lead to allocated dependencies, no two to the same one
    and none to [d]: a subscriber holds one link per dependency. *)
Definition attachable (st : State) (d : nat) (ls : list nat) : bool :=
  bool_decide (NoDup (d :: link_deps (links st) ls))
  && forallb (fun x => bool_decide (is_Some (deps st !! x)))
       (link_deps (links st) ls).

(** The tail of the active subscriber's list is not one of [ls]. *)
Definition tail_apart (sa : Subscriber) (ls : list nat) : bool :=
  match s_deps sa with
  | Some t => bool_decide (t ∉ ls)
  | None => true
  end.

(** What [addSub] leaves alone in a link and in a dependency. *)
Definition erase_link (r : Link) : Link :=
  with_prevSub None (with_nextSub None r).
Definition erase_dep (r : Dep) : Dep := with_subs None r.

(** What [Dep.track] adds to the trace on its way out:
    [if (__DEV__ && activeSub.onTrack) activeSub.onTrack(...)]. *)
Definition dev_onTrack_events (sa : Subscriber) (a : nat)
    (debugInfo : option DebuggerEventExtraInfo) : list Event :=
  if __DEV__ && bool_decide (is_Some (s_onTrack sa))
  then [EvOnTrack a debugInfo] else [].

(** *** The rest of dep.ts and debug.ts *)

(** [export function getDepFromReactive(object, key)]:
    [targetMap.get(object)?.get(key)] *)
Definition getDepFromReactive (object : Target) (key : Key) (st : State)
    : option nat :=
  match targetMap st !! target_id object with
  | Some depsMap => Map_get key depsMap
  | None => None
  end.

(** The effect 3 starts to run in [graph_in_computed]'s graph: it has read
    nothing; dependency 0 has the effect 2 as its one subscriber. *)
Definition graph_second_effect : State :=
  mkState (links graph_in_computed) (deps graph_in_computed)
    (<[3%nat := mkSubscriber None 5 false None None]>
       (subscribers graph_in_computed))
    0 (Some 3%nat) true ∅.

(** [graph_second_effect] with a link 5 from dependency 0 to the effect 3
    that is not yet in the dependency's subscriber list. *)
Definition graph_unattached_link : State :=
  set_links (insert 5%nat (mkLink 0 3 0 None None None None None))
    graph_second_effect.

(** The computed 1 is being evaluated over the registry of
    [graph_array]. *)
Definition graph_array_in_computed : State :=
  mkState ∅ (deps graph_array)
    (list_to_map [(1%nat, mkSubscriber None 4 true None None)])
    0 (Some 1%nat) true (targetMap graph_array).

(** [graph_rerun] and [graph_read_once] when dependency 0 is the one the
    registry holds for the property ['a'] of [the_object]. *)
Definition graph_rerun_tracked : State :=
  mkState (links graph_rerun) (deps graph_rerun) (subscribers graph_rerun)
    0 (Some 1%nat) true (list_to_map [(7%nat, [(KString "a", 0%nat)])]).

Definition graph_read_once_tracked : State :=
  mkState (links graph_read_once) (deps graph_read_once)
    (subscribers graph_read_once)
    0 (Some 1%nat) true (list_to_map [(7%nat, [(KString "a", 0%nat)])]).

(** [graph_idle_computed] where the effect 3 subscribes already, with the
    link 50, to dependency 5, which the computed 2 reads as well. *)
Definition graph_idle_computed_shared : State :=
  mkState
    (<[50%nat := mkLink 5 3 0 None None None None None]>
       (links graph_idle_computed))
    (<[5%nat := mkDep 0 None (Some 50%nat) None]>
       (deps graph_idle_computed))
    (<[3%nat := mkSubscriber (Some 50%nat) 5 false None None]>
       (subscribers graph_idle_computed))
    0 (Some 1%nat) true ∅.

(** *** Well-formed subscriber lists

    The mirror image of [dep_chain] for the list a dependency keeps of its
    subscribers, threaded through [prevSub] and [nextSub], with [subs] the
    tail. *)
Definition sub_node_b (lk : gmap nat Link) (x : nat) (p n : option nat)
    : bool :=
  match lk !! x with
  | Some r => bool_decide (l_prevSub r = p) && bool_decide (l_nextSub r = n)
  | None => false
  end.

Fixpoint sub_chain (lk : gmap nat Link) (prev : option nat) (xs : list nat)
    (nxt : option nat) : bool :=
  match xs with
  | [] => true
  | x :: rest =>
      sub_node_b lk x prev (head_or nxt rest)
      && sub_chain lk (Some x) rest nxt
  end.

Definition wf_subs (st : State) (d : nat) (ls : list nat) : bool :=
  match deps st !! d with
  | Some dr =>
      bool_decide (NoDup ls)
      && sub_chain (links st) None ls None
      && bool_decide (d_subs dr = last ls)
  | None => false
  end.

(** *** What tracking leaves alone

    [track_frame st st']: from [st] to [st'] the two module flags and the
    global version are the same, every dependency keeps its version and
    its computed, every link its two ends, every subscriber its kind and
    callbacks, and every registered (target, key) its dependency. *)
Definition track_frame (st st' : State) : Prop :=
  globalVersion st' = globalVersion st
  ∧ activeSub st' = activeSub st
  ∧ shouldTrack st' = shouldTrack st
  ∧ (∀ d r, deps st !! d = Some r →
       ∃ r', deps st' !! d = Some r'
             ∧ d_version r' = d_version r ∧ d_computed r' = d_computed r)
  ∧ (∀ l r, links st !! l = Some r →
       ∃ r', links st' !! l = Some r'
             ∧ l_dep r' = l_dep r ∧ l_sub r' = l_sub r)
  ∧ (∀ s r, subscribers st !! s = Some r →
       ∃ r', subscribers st' !! s = Some r'
             ∧ s_isComputed r' = s_isComputed r
             ∧ s_onTrack r' = s_onTrack r ∧ s_onTrigger r' = s_onTrigger r)
  ∧ (∀ t k d, getDepFromReactive t k st = Some d →
       getDepFromReactive t k st' = Some d).

(** A computation keeps a relation between the graph it starts from and
    the graph it ends with, whether it returns or throws. *)
Definition keeps (R : State → State → Prop) {A : Type} (m : M A) : Prop :=
  ∀ w, match m w with
       | Normal _ w' => R (heap w) (heap w')
       | Thrown _ w' => R (heap w) (heap w')
       | Dangling => True
       | OutOfFuel => True
       end.

(** A computation makes [globalVersion] grow by at least [n] when it
    returns, and never makes it smaller when it throws. *)
Definition grows (n : Z) {A : Type} (m : M A) : Prop :=
  ∀ w, match m w with
       | Normal _ w' => globalVersion (heap w) + n ≤ globalVersion (heap w')
       | Thrown _ w' => globalVersion (heap w) ≤ globalVersion (heap w')
       | Dangling => True
       | OutOfFuel => True
       end.

(** A call into effect.ts that does not take [globalVersion] back. *)
Definition version_monotone (f : State → State) : Prop :=
  ∀ st, globalVersion st ≤ globalVersion (f st).

(** What [addSub(link)] does to the links when [link] is not the tail. *)
Definition attach_links (tail : option nat) (link : nat)
    (lk : gmap nat Link) : gmap nat Link :=
  match tail with
  | Some t => alter (with_nextSub (Some link)) t
  | None => fun m => m
  end (alter (with_prevSub tail) link lk).


(** [if (activeSub.deps) activeSub.deps.nextDep = link] *)
Definition append_dep (tail : option nat) (link : nat)
    (lk : gmap nat Link) : gmap nat Link :=
  match tail with
  | Some t => alter (with_nextDep (Some link)) t lk
  | None => lk
  end.

(** The test that opens the lazy subscription in [Dep.track]: the active
    subscriber is TRACKING, the dependency has a computed and no
    subscriber. *)
Definition promotes (sa : Subscriber) (dp : Dep) : bool :=
  truthy (Z.land (s_flags sa) TRACKING)
  && bool_decide (is_Some (d_computed dp))
  && bool_decide (d_subs dp = None).

(** *** Notification

    The subscribers whose [notify()] has been called, as the trace has
    them. *)
Fixpoint notified (tr : list Event) : list nat :=
  match tr with
  | [] => []
  | EvNotify s :: tr' => s :: notified tr'
  | _ :: tr' => notified tr'
  end.

(** The subscribers the links [ls] lead to. *)
Fixpoint link_subs (lk : gmap nat Link) (ls : list nat) : list nat :=
  match ls with
  | [] => []
  | l :: rest =>
      match lk !! l with
      | Some r => l_sub r :: link_subs lk rest
      | None => link_subs lk rest
      end
  end.

(** [notify()] called on the subscribers [ss], one after the other. *)
Definition notify_all (ss : list nat) (st : State) : State :=
  foldl (fun st s => Subscriber_notify s st) st ss.

(** What [Dep.notify] calls inside its batch: [notify()] of a subscriber,
    and in a development build its [onTrigger] callback. *)
Definition notify_call (e : Event) : bool :=
  match e with
  | EvNotify _ => true
  | EvOnTrigger _ _ => true
  | _ => false
  end.

(** A call into effect.ts that leaves the links, the dependencies and the
    active subscriber as they are, frees no subscriber and changes the
    kind of none. *)
Definition keeps_lists (f : State → State) : Prop :=
  ∀ st, links (f st) = links st
        ∧ deps (f st) = deps st
        ∧ activeSub (f st) = activeSub st
        ∧ ∀ x r, subscribers st !! x = Some r →
                 ∃ r', subscribers (f st) !! x = Some r'
                       ∧ s_isComputed r' = s_isComputed r.

(** The test [!(activeSub instanceof ComputedRefImpl)] of [Dep.notify]. *)
Definition outside_computed (st : State) : bool :=
  match activeSub st with
  | None => true
  | Some a =>
      match subscribers st !! a with
      | Some sa => negb (s_isComputed sa)
      | None => false
      end
  end.

(** *** debug.ts: [setupDirtyLevelHandler]

    [dirtyLevel] belongs to the subscribers of alien-signals and is no
    field of the [Subscriber] that dep.ts reads: it is kept beside the
    graph, one slot per subscriber.  A slot has the value of the ordinary
    property [dirtyLevel] the subscriber was made with, the value of
    [_dirtyLevel] ([None] is [undefined]), and whether the accessor pair
    of [setupDirtyLevelHandler] has taken the place of the ordinary
    property.  An ordinary property can be redefined, and keeps that
    attribute as an accessor, so [Object.defineProperty] goes through.
    [DirtyLevels] are numbers. *)
Record DirtyLevelSlot := mkDirtyLevelSlot {
  dl_dirtyLevel : option Z;
  dl__dirtyLevel : option Z;
  dl_accessor : bool;
}.

(** Reading [target.dirtyLevel]: through
    [get() { return target._dirtyLevel }] once the accessor is there. *)
Definition read_dirtyLevel (slot : DirtyLevelSlot) : option Z :=
  if dl_accessor slot then dl__dirtyLevel slot else dl_dirtyLevel slot.

(** [set(value) { ... }], called on the receiver [this]. *)
Definition dirtyLevel_setter (target this : nat) (value : Z)
    (dl : gmap nat DirtyLevelSlot) : M (gmap nat DirtyLevelSlot) :=
  when (__DEV__ && (0 <? value) && (value <? 4)) (onTrigger this);;
  ret (alter (fun s => mkDirtyLevelSlot (dl_dirtyLevel s) (Some value)
                         (dl_accessor s))
         target dl).

(** The assignment [target.dirtyLevel = value]. *)
Definition write_dirtyLevel (target : nat) (value : Z)
    (dl : gmap nat DirtyLevelSlot) : M (gmap nat DirtyLevelSlot) :=
  match dl !! target with
  | Some slot =>
      if dl_accessor slot then dirtyLevel_setter target target value dl
      else ret (<[target := mkDirtyLevelSlot (Some value)
                              (dl__dirtyLevel slot) false]> dl)
  | None => fun _ => Dangling
  end.

(** [export function setupDirtyLevelHandler(target)] *)
Definition setupDirtyLevelHandler (target : nat) (dl : gmap nat DirtyLevelSlot)
    : M (gmap nat DirtyLevelSlot) :=
  if negb __DEV__ then
    throw (InternalError
             "Internal error: setupDirtyLevelHandler should be called only in development.")
  else
    match dl !! target with
    | Some slot =>
        (* target._dirtyLevel = target.dirtyLevel *)
        let _dirtyLevel := read_dirtyLevel slot in
        (* Object.defineProperty(target, 'dirtyLevel', { get, set }) *)
        ret (<[target := mkDirtyLevelSlot None _dirtyLevel true]> dl)
    | None => fun _ => Dangling
    end.

(** *** What reaches the user's debug callbacks

    A call of a debug callback ([onTrack], [onTrigger]) or of [warn]. *)
Definition debug_call (e : Event) : bool :=
  match e with
  | EvOnTrack _ _ => true
  | EvOnTrigger _ _ => true
  | EvWarn _ => true
  | _ => false
  end.

(** A computation only adds to the trace, and none of the calls it adds
    is a debug call, whether it returns or throws. *)
Definition silent {A : Type} (m : M A) : Prop :=
  ∀ w, match m w with
       | Normal _ w' =>
           ∃ tr', trace w' = trace w ++ tr'
                  ∧ forallb (fun e => negb (debug_call e)) tr' = true
       | Thrown _ w' =>
           ∃ tr', trace w' = trace w ++ tr'
                  ∧ forallb (fun e => negb (debug_call e)) tr' = true
       | Dangling => True
       | OutOfFuel => True
       end.

(** [this.version++] and [globalVersion++] of [Dep.trigger]. *)
Definition bump (d : nat) (st : State) : State :=
  set_globalVersion (fun v => v + 1)
    (set_deps (alter (fun r => with_d_version (d_version r + 1) r) d) st).

(** The active subscriber is a computed. *)
Definition inside_computed (st : State) : bool :=
  match activeSub st with
  | Some a =>
      match subscribers st !! a with
      | Some sa => s_isComputed sa
      | None => false
      end
  | None => false
  end.

(** *** What a read leaves behind

    [cache_frame st st']: from [st] to [st'] the two module flags and the
    registry are the same, every link keeps its subscriber and its
    version, every dependency keeps its active link and its version, and
    no subscriber is freed. *)
Definition cache_frame (st st' : State) : Prop :=
  activeSub st' = activeSub st
  ∧ shouldTrack st' = shouldTrack st
  ∧ targetMap st' = targetMap st
  ∧ (∀ l r, links st !! l = Some r →
       ∃ r', links st' !! l = Some r'
             ∧ l_sub r' = l_sub r ∧ l_version r' = l_version r)
  ∧ (∀ d r, deps st !! d = Some r →
       ∃ r', deps st' !! d = Some r'
             ∧ d_activeLink r' = d_activeLink r
             ∧ d_version r' = d_version r)
  ∧ (∀ s, is_Some (subscribers st !! s) → is_Some (subscribers st' !! s)).

(** *** Whose link it is

    The links [ls] all belong to dependency [d]. *)
Definition owns (lk : gmap nat Link) (d : nat) (ls : list nat) : bool :=
  forallb (fun l => match lk !! l with
                    | Some r => bool_decide (l_dep r = d)
                    | None => false
                    end) ls.

(** Each of the dependencies [ds] is allocated, and the tail [subs] of
    its subscriber list, if it has one, is a link of that dependency. *)
Definition own_tails (st : State) (ds : list nat) : bool :=
  forallb (fun x => match deps st !! x with
                    | Some dr =>
                        match d_subs dr with
                        | Some t => owns (links st) x [t]
                        | None => true
                        end
                    | None => false
                    end) ds.

(** The graph after [addSub(l)], for the link [lr] at [l] and its
    dependency [dr]. *)
Definition addSub_state (l : nat) (lr : Link) (dr : Dep) (st : State)
    : State :=
  set_deps (alter (with_subs (Some l)) (l_dep lr))
    (set_links
       (if bool_decide (d_subs dr = Some l) then fun m => m
        else attach_links (d_subs dr) l) st).

(** ** Properties *)

(** Unfolding the state-and-error monad. *)
Ltac unfold_M :=
  unfold bind, ret, throw, out_of_fuel, get_state, modify, emit,
    when, getLink, getDep, getSub, setLink, setDep, setSub, newLink, newDep,
    warn, get_triggerEventInfos in *.

Lemma world_eta (w : World) :
  mkWorld (heap w) (triggerEventInfos w) (trace w) = w.
Proof. by destruct w. Qed.

(** *** Doubly linked segments *)

Lemma node_b_true lk x p n :
  node_b lk x p n = true ↔
  ∃ r, lk !! x = Some r ∧ l_prevDep r = p ∧ l_nextDep r = n.
Proof.
  unfold node_b. split.
  - destruct (lk !! x) as [r|]; [|done]. intros H.
    apply andb_true_iff in H as [H1 H2].
    apply bool_decide_eq_true in H1. apply bool_decide_eq_true in H2. eauto.
  - intros (r & -> & H1 & H2).
    by rewrite !bool_decide_eq_true_2.
Qed.

Lemma node_b_alter_ne lk f x y p n :
  x ≠ y → node_b (alter f y lk) x p n = node_b lk x p n.
Proof. intros H. unfold node_b. by rewrite lookup_alter_ne. Qed.

Lemma node_b_alter_version lk v x y p n :
  node_b (alter (with_version v) y lk) x p n = node_b lk x p n.
Proof.
  unfold node_b. destruct (decide (y = x)) as [->|Hne].
  - rewrite lookup_alter_eq. by destruct (lk !! x).
  - by rewrite lookup_alter_ne.
Qed.

Lemma node_b_alter_nextDep lk x p n n' :
  node_b lk x p n = true →
  node_b (alter (with_nextDep n') x lk) x p n' = true.
Proof.
  rewrite !node_b_true. intros (r & Hr & H1 & H2).
  exists (with_nextDep n' r). by rewrite lookup_alter_eq, Hr.
Qed.

Lemma node_b_alter_prevDep lk x p p' n :
  node_b lk x p n = true →
  node_b (alter (with_prevDep p') x lk) x p' n = true.
Proof.
  rewrite !node_b_true. intros (r & Hr & H1 & H2).
  exists (with_prevDep p' r). by rewrite lookup_alter_eq, Hr.
Qed.

Lemma dep_chain_app lk prev xs ys nxt :
  dep_chain lk prev (xs ++ ys) nxt =
  dep_chain lk prev xs (head_or nxt ys)
  && dep_chain lk (last_or prev xs) ys nxt.
Proof.
  revert prev. induction xs as [|x xs IH]; intros prev; [done|].
  simpl. rewrite IH. rewrite <- andb_assoc.
  assert (Hh : head_or nxt (xs ++ ys) = head_or (head_or nxt ys) xs)
    by (destruct xs; reflexivity).
  assert (Hl : last_or (Some x) xs = last_or prev (x :: xs)).
  { unfold last_or. destruct xs as [|y xs']; [done|].
    change (last (x :: y :: xs')) with (last (y :: xs')).
    destruct (last (y :: xs')) eqn:E; [done|].
    by apply last_None in E. }
  by rewrite Hh, Hl.
Qed.

Lemma dep_chain_frame lk lk' prev xs nxt :
  (∀ x p n, x ∈ xs → node_b lk' x p n = node_b lk x p n) →
  dep_chain lk' prev xs nxt = dep_chain lk prev xs nxt.
Proof.
  revert prev. induction xs as [|x xs IH]; intros prev H; [done|].
  simpl. rewrite H by apply list_elem_of_here. rewrite IH; [done|].
  intros y p n Hy. apply H. by apply list_elem_of_further.
Qed.

Lemma dep_chain_alter_ne lk f x prev xs nxt :
  x ∉ xs →
  dep_chain (alter f x lk) prev xs nxt = dep_chain lk prev xs nxt.
Proof.
  intros Hx. apply dep_chain_frame. intros y p n Hy.
  apply node_b_alter_ne. intros ->. done.
Qed.

Lemma dep_chain_alter_version lk v x prev xs nxt :
  dep_chain (alter (with_version v) x lk) prev xs nxt
  = dep_chain lk prev xs nxt.
Proof.
  apply dep_chain_frame. intros y p n _. apply node_b_alter_version.
Qed.

Lemma dep_chain_set_prev lk prev p' x xs nxt :
  x ∉ xs →
  dep_chain lk prev (x :: xs) nxt = true →
  dep_chain (alter (with_prevDep p') x lk) p' (x :: xs) nxt = true.
Proof.
  simpl. intros Hx H. apply andb_true_iff in H as [H1 H2].
  rewrite (node_b_alter_prevDep _ _ _ _ _ H1).
  by rewrite dep_chain_alter_ne.
Qed.

Lemma dep_chain_set_next lk prev xs y nxt n' :
  y ∉ xs →
  dep_chain lk prev (xs ++ [y]) nxt = true →
  dep_chain (alter (with_nextDep n') y lk) prev (xs ++ [y]) n' = true.
Proof.
  rewrite !dep_chain_app. simpl. intros Hy H.
  apply andb_true_iff in H as [H1 H2].
  rewrite andb_true_r in H2.
  rewrite dep_chain_alter_ne by done. rewrite H1.
  by rewrite (node_b_alter_nextDep _ _ _ _ _ H2).
Qed.

Lemma last_or_None_inv xs : last_or None xs = None → xs = [].
Proof.
  unfold last_or. destruct (last xs) eqn:E; [done|].
  intros _. by apply last_None.
Qed.

Lemma last_or_Some_inv xs p :
  last_or None xs = Some p → ∃ xs0, xs = xs0 ++ [p].
Proof.
  unfold last_or. destruct (last xs) eqn:E; [|done].
  intros [= ->]. by apply last_Some.
Qed.

Lemma Dep_track_reuse_relink
    (fuel d : nat) (debugInfo : option DebuggerEventExtraInfo)
    (st : State) (infos : list DebuggerEventExtraInfo) (tr : list Event)
    (a l n t : nat) (po : option nat) (dp : Dep) (lr : Link) (sa : Subscriber) :
  activeSub st = Some a →
  shouldTrack st = true →
  subscribers st !! a = Some sa →
  deps st !! d = Some dp →
  d_activeLink dp = Some l →
  links st !! l = Some lr →
  l_sub lr = a →
  l_version lr = -1 →
  l_nextDep lr = Some n →
  l_prevDep lr = po →
  n ≠ l →
  s_deps sa = Some t →
  ∃ st',
    Dep_track fuel d debugInfo (mkWorld st infos tr) =
      Normal (Some l) (mkWorld st' infos (tr ++ dev_onTrack_events sa a debugInfo))
    ∧ links st' =
        alter (with_nextDep (Some l)) t
          (alter (with_nextDep None) l
             (alter (with_prevDep (Some t)) l
                (match po with
                 | Some p => alter (with_nextDep (Some n)) p
                 | None => λ m, m
                 end
                   (alter (with_prevDep po) n
                      (alter (with_version (d_version dp)) l (links st))))))
    ∧ subscribers st' = alter (with_deps (Some l)) a (subscribers st)
    ∧ deps st' = deps st.
Proof.
  intros Ha Ht Hsa Hd Hal Hl Hs Hv Hn Hp Hnl Htl.
  unfold Dep_track. unfold_M.
  repeat (progress (simpl;
      rewrite ?Ha, ?Ht, ?Hd, ?Hal, ?Hl, ?Hsa, ?(bool_decide_eq_true_2 _ Hs),
        ?Hv, ?lookup_alter_eq, ?Hn, ?Hp, ?Htl)).
  rewrite lookup_alter_ne by done.
  rewrite lookup_alter_eq, Hl. simpl. rewrite Hp.
  unfold dev_onTrack_events.
  destruct po as [p|]; unfold modify; simpl;
    rewrite Hsa; simpl; rewrite Hsa; simpl; rewrite Htl; simpl;
    rewrite lookup_alter_eq, Hsa; simpl;
    (destruct (__DEV__ && bool_decide (is_Some (s_onTrack sa))); simpl;
     rewrite ?app_nil_r;
     eexists; (split; [reflexivity|]); simpl; rewrite ?Hn; done).
Qed.

Lemma Dep_track_reuse_at_tail
    (fuel d : nat) (debugInfo : option DebuggerEventExtraInfo)
    (st : State) (infos : list DebuggerEventExtraInfo) (tr : list Event)
    (a l : nat) (dp : Dep) (lr : Link) (sa : Subscriber) :
  activeSub st = Some a →
  shouldTrack st = true →
  subscribers st !! a = Some sa →
  deps st !! d = Some dp →
  d_activeLink dp = Some l →
  links st !! l = Some lr →
  l_sub lr = a →
  l_version lr = -1 →
  l_nextDep lr = None →
  Dep_track fuel d debugInfo (mkWorld st infos tr) =
    Normal (Some l)
      (mkWorld (set_links (alter (with_version (d_version dp)) l) st) infos
               (tr ++ dev_onTrack_events sa a debugInfo)).
Proof.
  intros Ha Ht Hsa Hd Hal Hl Hs Hv Hn.
  unfold Dep_track. unfold_M.
  repeat (progress (simpl;
      rewrite ?Ha, ?Ht, ?Hd, ?Hal, ?Hl, ?Hsa, ?(bool_decide_eq_true_2 _ Hs),
        ?Hv, ?lookup_alter_eq, ?Hn)).
  unfold dev_onTrack_events.
  destruct (__DEV__ && bool_decide (is_Some (s_onTrack sa))); simpl;
    rewrite ?app_nil_r; done.
Qed.

(** C2. Reusing a link of the last run: when the dependency's active link
    belongs to the active subscriber [a], carries the sentinel version -1
    and sits in [a]'s well-formed dependency list [ls], [Dep.track] returns
    it with its version set to the dependency's, leaves the dependency
    untouched, and [a]'s list is again well-formed, with that link moved
    to the tail [a.deps] and the other links in their order. *)
Theorem Dep_track_reuse_moves_link_to_tail
    (fuel d : nat) (debugInfo : option DebuggerEventExtraInfo) (w : World)
    (a l : nat) (dp : Dep) (lr : Link) (ls : list nat) :
  activeSub (heap w) = Some a →
  shouldTrack (heap w) = true →
  deps (heap w) !! d = Some dp →
  d_activeLink dp = Some l →
  links (heap w) !! l = Some lr →
  l_sub lr = a →
  l_version lr = -1 →
  wf_deps (heap w) a ls = true →
  l ∈ ls →
  ∃ w' lr' sa' pre post,
    Dep_track fuel d debugInfo w = Normal (Some l) w'
    ∧ links (heap w') !! l = Some lr'
    ∧ l_version lr' = d_version dp
    ∧ deps (heap w') = deps (heap w)
    ∧ subscribers (heap w') !! a = Some sa'
    ∧ s_deps sa' = Some l
    ∧ ls = pre ++ l :: post
    ∧ wf_deps (heap w') a (pre ++ post ++ [l]) = true
    ∧ pre ++ post ++ [l] ≡ₚ ls.
Proof.
  intros Ha Ht Hd Hal Hl Hs Hv Hwf Hin.
  destruct w as [st infos tr]. simpl in *.
  unfold wf_deps in Hwf.
  destruct (subscribers st !! a) as [sa|] eqn:Hsa; [|done].
  apply andb_true_iff in Hwf as [Hwf Htail].
  apply andb_true_iff in Hwf as [Hnd Hch].
  apply bool_decide_eq_true in Hnd. apply bool_decide_eq_true in Htail.
  apply list_elem_of_split in Hin as (pre & post & ->).
  assert (Hperm : pre ++ post ++ [l] ≡ₚ pre ++ l :: post).
  { apply Permutation_app_head. rewrite <- Permutation_cons_append. done. }
  rewrite dep_chain_app in Hch. simpl in Hch.
  apply andb_true_iff in Hch as [Hpre Hch].
  apply andb_true_iff in Hch as [Hnode Hpost].
  pose proof Hnode as Hnode'.
  apply node_b_true in Hnode' as (r & Hr & Hrp & Hrn).
  rewrite Hl in Hr. injection Hr as <-.
  apply NoDup_app in Hnd as (Hnd_pre & Hnd_mid & Hnd_post).
  apply NoDup_cons in Hnd_post as [Hl_post Hnd_post].
  assert (Hl_pre : l ∉ pre).
  { intros H. apply (Hnd_mid l H). apply list_elem_of_here. }
  destruct post as [|n post'].
  - (* the link is the tail already *)
    simpl in Hrn, Hnode.
    exists (mkWorld (set_links (alter (with_version (d_version dp)) l) st)
              infos (tr ++ dev_onTrack_events sa a debugInfo)).
    exists (with_version (d_version dp) lr), sa, pre, [].
    split. { by apply Dep_track_reuse_at_tail with (lr := lr) (sa := sa). }
    simpl. rewrite lookup_alter_eq, Hl. simpl.
    split; [done|]. split; [done|]. split; [done|]. split; [done|].
    split. { rewrite Htail. by rewrite last_snoc. }
    split; [done|].
    split; [|done].
    unfold wf_deps. simpl. rewrite Hsa.
    rewrite dep_chain_alter_version.
    rewrite dep_chain_app. simpl. rewrite Hpre, Hnode. simpl.
    rewrite !bool_decide_eq_true_2; [done|done|].
    apply NoDup_app. split; [done|]. split; [|by apply NoDup_singleton].
    intros x Hx. by apply Hnd_mid in Hx.
  - (* the link has a successor [n]: it is unlinked and appended *)
    simpl in Hrn, Hnode.
    assert (Hnl : n ≠ l). { intros ->. apply Hl_post. apply list_elem_of_here. }
    destruct (last (n :: post')) as [t|] eqn:Elast;
      [|by apply last_None in Elast].
    pose proof Elast as HX. apply last_Some in HX as [X0 HX].
    assert (Htl : s_deps sa = Some t).
    { rewrite Htail.
      replace (pre ++ l :: n :: post') with ((pre ++ l :: X0) ++ [t])
        by (rewrite HX, <- app_assoc; done).
      apply last_snoc. }
    assert (Ht_post : t ∈ n :: post')
      by (rewrite HX; apply elem_of_app; right; apply list_elem_of_here).
    assert (Htl_ne : t ≠ l) by (intros ->; done).
    assert (Ht_pre : t ∉ pre).
    { intros H. by apply (Hnd_mid t H), list_elem_of_further. }
    assert (Hn_pre : n ∉ pre).
    { intros H. apply (Hnd_mid n H).
      apply list_elem_of_further, list_elem_of_here. }
    assert (Hn_post : n ∉ post') by (by apply NoDup_cons in Hnd_post as [? _]).
    assert (Ht_X0 : t ∉ X0).
    { rewrite HX in Hnd_post. apply NoDup_app in Hnd_post as (_ & H & _).
      intros Hin. apply (H t Hin). apply list_elem_of_here. }
    destruct (Dep_track_reuse_relink fuel d debugInfo st infos tr a l n t
                (last_or None pre) dp lr sa) as (st' & Hrun & Hlk & Hsubs & Hdeps);
      try done.
    exists (mkWorld st' infos (tr ++ dev_onTrack_events sa a debugInfo)).
    exists (with_nextDep None
              (with_prevDep (Some t) (with_version (d_version dp) lr))).
    exists (with_deps (Some l) sa), pre, (n :: post').
    split; [done|]. simpl.
    assert (Hp_facts : ∀ p, last_or None pre = Some p →
              p ∈ pre ∧ p ≠ l ∧ p ∉ n :: post').
    { intros p Hp. apply last_or_Some_inv in Hp as [pre0 ->].
      assert (p ∈ pre0 ++ [p])
        by (apply elem_of_app; right; apply list_elem_of_here).
      split; [done|]. split; [intros ->; done|].
      intros H'. apply (Hnd_mid p); [done|]. by apply list_elem_of_further. }
    split.
    { rewrite Hlk. rewrite lookup_alter_ne by done.
      rewrite !lookup_alter_eq.
      destruct (last_or None pre) as [p|] eqn:Epo.
      - destruct (Hp_facts p eq_refl) as (_ & Hpl & _).
        rewrite lookup_alter_ne by done. rewrite lookup_alter_ne by done.
        by rewrite lookup_alter_eq, Hl.
      - rewrite lookup_alter_ne by done.
        by rewrite lookup_alter_eq, Hl. }
    split; [done|]. split; [done|].
    split. { by rewrite Hsubs, lookup_alter_eq, Hsa. }
    split; [done|]. split; [done|]. split; [|done].
    unfold wf_deps. rewrite Hsubs, lookup_alter_eq, Hsa.
    change (with_deps (Some l) <$> Some sa)
      with (Some (with_deps (Some l) sa)).
    cbv beta iota. rewrite Hlk.
    apply andb_true_iff. split; [apply andb_true_iff; split|].
    + apply bool_decide_eq_true. rewrite Hperm.
      apply NoDup_app. split; [done|]. split; [done|].
      by apply NoDup_cons.
    + rewrite dep_chain_app. simpl head_or.
      change (n :: post' ++ [l]) with ((n :: post') ++ [l]).
      rewrite dep_chain_app. simpl head_or.
      apply andb_true_iff. split; [|apply andb_true_iff; split].
      * (* the links before: the predecessor now points to [n] *)
        rewrite !dep_chain_alter_ne by done.
        destruct (last_or None pre) as [p|] eqn:Epo.
        -- pose proof Epo as Hpre0.
           apply last_or_Some_inv in Hpre0 as [pre0 Hpre0]. subst pre.
           apply dep_chain_set_next with (nxt := Some l).
           { apply NoDup_app in Hnd_pre as (_ & H & _).
             intros Hin. apply (H p Hin). apply list_elem_of_here. }
           rewrite dep_chain_alter_ne by done.
           by rewrite dep_chain_alter_version.
        -- apply last_or_None_inv in Epo. by subst pre.
      * (* the links after: [n] takes the predecessor, the tail points
           to the link *)
        rewrite HX. apply dep_chain_set_next with (nxt := None); [done|].
        rewrite <- HX.
        rewrite !dep_chain_alter_ne by done.
        assert (Hbase :
          dep_chain
            (alter (with_prevDep (last_or None pre)) n
               (alter (with_version (d_version dp)) l (links st)))
            (last_or None pre) (n :: post') None = true).
        { apply dep_chain_set_prev with (prev := Some l); [done|].
          by rewrite dep_chain_alter_version. }
        destruct (last_or None pre) as [p|] eqn:Epo; [|done].
        destruct (Hp_facts p eq_refl) as (_ & _ & Hp_post).
        by rewrite dep_chain_alter_ne.
      * (* the link itself, after the old tail *)
        simpl. rewrite andb_true_r.
        assert (Hlo : last_or (last_or None pre) (n :: post') = Some t)
          by (unfold last_or at 1; by rewrite Elast).
        rewrite Hlo.
        rewrite node_b_alter_ne by done.
        apply node_b_alter_nextDep with (n := Some n).
        apply node_b_alter_prevDep with (p := last_or None pre).
        assert (Hbase :
          node_b
            (alter (with_prevDep (last_or None pre)) n
               (alter (with_version (d_version dp)) l (links st)))
            l (last_or None pre) (Some n) = true).
        { rewrite node_b_alter_ne by done.
          by rewrite node_b_alter_version. }
        destruct (last_or None pre) as [p|] eqn:Epo; [|exact Hbase].
        destruct (Hp_facts p eq_refl) as (_ & Hpl & _).
        rewrite node_b_alter_ne by done. exact Hbase.
    + apply bool_decide_eq_true.
      change (pre ++ n :: post' ++ [l]) with (pre ++ (n :: post') ++ [l]).
      rewrite app_assoc. by rewrite last_snoc.
Qed.

(** *** Attaching links to subscriber lists *)

Lemma fmap_alter_absorb {A B : Type} (f : A → B) (g : A → A) (i : nat)
    (m : gmap nat A) :
  (∀ x, f (g x) = f x) → f <$> alter g i m = f <$> m.
Proof.
  intros H. apply map_eq. intros j. rewrite !lookup_fmap.
  destruct (decide (i = j)) as [->|Hne].
  - rewrite lookup_alter_eq. destruct (m !! j); simpl; [by rewrite H|done].
  - by rewrite lookup_alter_ne.
Qed.

Lemma erase_link_lookup (lk lk' : gmap nat Link) l r :
  erase_link <$> lk' = erase_link <$> lk →
  lk !! l = Some r →
  ∃ r', lk' !! l = Some r' ∧ erase_link r' = erase_link r.
Proof.
  intros He Hl.
  assert (H : (erase_link <$> lk') !! l = (erase_link <$> lk) !! l)
    by (by rewrite He).
  rewrite !lookup_fmap, Hl in H.
  destruct (lk' !! l) as [r'|]; [|done].
  exists r'. split; [done|].
  change (Some (erase_link r') = Some (erase_link r)) in H. congruence.
Qed.

Lemma erase_link_fields r r' :
  erase_link r' = erase_link r →
  l_dep r' = l_dep r ∧ l_nextDep r' = l_nextDep r.
Proof. destruct r, r'. unfold erase_link. simpl. by intros [= -> -> -> -> ->]. Qed.

Lemma dep_walk_erase (lk lk' : gmap nat Link) start ls :
  erase_link <$> lk' = erase_link <$> lk →
  dep_walk lk' start ls = dep_walk lk start ls.
Proof.
  intros He. revert start. induction ls as [|l ls IH]; intros start; [done|].
  simpl. f_equal.
  assert (H : (erase_link <$> lk') !! l = (erase_link <$> lk) !! l)
    by (by rewrite He).
  rewrite !lookup_fmap in H.
  destruct (lk !! l) as [r|], (lk' !! l) as [r'|]; try done.
  change (Some (erase_link r') = Some (erase_link r)) in H.
  assert (H' : erase_link r' = erase_link r) by congruence.
  apply erase_link_fields in H' as [_ ->]. apply IH.
Qed.

Lemma link_deps_erase (lk lk' : gmap nat Link) ls :
  erase_link <$> lk' = erase_link <$> lk →
  link_deps lk' ls = link_deps lk ls.
Proof.
  intros He. induction ls as [|l ls IH]; [done|].
  simpl.
  assert (H : (erase_link <$> lk') !! l = (erase_link <$> lk) !! l)
    by (by rewrite He).
  rewrite !lookup_fmap in H.
  destruct (lk !! l) as [r|], (lk' !! l) as [r'|]; try done.
  change (Some (erase_link r') = Some (erase_link r)) in H.
  assert (H' : erase_link r' = erase_link r) by congruence.
  apply erase_link_fields in H' as [-> _]. by rewrite IH.
Qed.

Lemma addSub_loop_step (fuel l : nat) (w : World) :
  addSub_loop (S fuel) (Some l) w =
  match addSub l w with
  | Normal _ w1 =>
      match links (heap w1) !! l with
      | Some lr => addSub_loop fuel (l_nextDep lr) w1
      | None => Dangling
      end
  | Thrown e w1 => Thrown e w1
  | Dangling => Dangling
  | OutOfFuel => OutOfFuel
  end.
Proof.
  simpl. unfold bind, getLink. destruct (addSub l w); try done.
  by destruct (links (heap w0) !! l).
Qed.

Lemma land_lor_absorb_l (f t u : Z) : Z.land (Z.lor f (Z.lor t u)) t = t.
Proof.
  apply Z.bits_inj'. intros n Hn.
  rewrite Z.land_spec, !Z.lor_spec.
  destruct (Z.testbit f n), (Z.testbit t n), (Z.testbit u n); done.
Qed.

Lemma land_lor_absorb_r (f t u : Z) : Z.land (Z.lor f (Z.lor t u)) u = u.
Proof.
  apply Z.bits_inj'. intros n Hn.
  rewrite Z.land_spec, !Z.lor_spec.
  destruct (Z.testbit f n), (Z.testbit t n), (Z.testbit u n); done.
Qed.

Lemma dep_walk_allocated (lk : gmap nat Link) start ls :
  dep_walk lk start ls = true → ∀ x, x ∈ ls → is_Some (lk !! x).
Proof.
  revert start. induction ls as [|l ls IH]; intros start Hw x Hx.
  - by apply elem_of_nil in Hx.
  - simpl in Hw. apply andb_true_iff in Hw as [_ Hw].
    destruct (lk !! l) as [r|] eqn:Hl; [|done].
    apply elem_of_cons in Hx as [->|Hx]; [by rewrite Hl|by eapply IH].
Qed.

Lemma dep_walk_frame (lk lk' : gmap nat Link) start ls :
  (∀ x, x ∈ ls → lk' !! x = lk !! x) →
  dep_walk lk' start ls = dep_walk lk start ls.
Proof.
  revert start. induction ls as [|l ls IH]; intros start H; [done|].
  simpl. rewrite H by apply list_elem_of_here.
  destruct (lk !! l); [|done]. rewrite IH; [done|].
  intros x Hx. apply H. by apply list_elem_of_further.
Qed.

Lemma link_deps_frame (lk lk' : gmap nat Link) ls :
  (∀ x, x ∈ ls → lk' !! x = lk !! x) →
  link_deps lk' ls = link_deps lk ls.
Proof.
  induction ls as [|l ls IH]; intros H; [done|].
  simpl. rewrite H by apply list_elem_of_here.
  rewrite IH; [done|].
  intros x Hx. apply H. by apply list_elem_of_further.
Qed.

Lemma link_deps_elem (lk : gmap nat Link) ls l lr :
  l ∈ ls → lk !! l = Some lr → l_dep lr ∈ link_deps lk ls.
Proof.
  induction ls as [|x ls IH]; intros Hin Hl.
  - by apply elem_of_nil in Hin.
  - simpl. apply elem_of_cons in Hin as [<-|Hin].
    + rewrite Hl. apply list_elem_of_here.
    + destruct (lk !! x); [apply list_elem_of_further|]; by apply IH.
Qed.

(** C1, on the code. While the active subscriber is a computed,
    [Dep.notify] does nothing at all, in every build: it returns normally
    and the world is the one it started from.  So the notification is
    suppressed (no subscriber is notified, no batch is opened, nothing is
    thrown), and the trace does not grow either: the development branch of
    the source holds the comment [TODO warning] and no diagnostic. *)
Theorem Dep_notify_suppressed_in_computed
    (fuel d : nat) (debugInfo : option DebuggerEventExtraInfo) (w : World)
    (a : nat) (sa : Subscriber) :
  activeSub (heap w) = Some a →
  subscribers (heap w) !! a = Some sa →
  s_isComputed sa = true →
  Dep_notify fuel d debugInfo w = Normal tt w.
Proof.
  intros Ha Hsa Hc.
  unfold Dep_notify, activeSub_isComputed. unfold_M.
  rewrite Ha, Hsa, Hc. simpl. by destruct __DEV__.
Qed.

(** C7. With no active subscriber, or with tracking suspended, [track] and
    [Dep.track] return without touching the world: registry, dependencies,
    links and subscribers are the ones before the call. *)
Theorem track_noop_when_inactive
    (fuel : nat) (target : Target) (type : TrackOpTypes) (key : Key)
    (w : World) :
  activeSub (heap w) = None ∨ shouldTrack (heap w) = false →
  track fuel target type key w = Normal tt w
  ∧ ∀ d debugInfo, Dep_track fuel d debugInfo w = Normal None w.
Proof.
  intros H. split.
  - unfold track. unfold_M.
    destruct H as [H | H]; rewrite H; simpl; [|done].
    rewrite andb_comm. simpl. done.
  - intros d debugInfo. unfold Dep_track. unfold_M.
    destruct H as [H | H]; rewrite H; [done|].
    by destruct (activeSub (heap w)).
Qed.

(** C8. Writing to a computed made from a getter alone returns normally in
    every build, leaves the object graph as it was (so reading [value]
    afterwards gives what it gave before), and adds to the trace exactly
    one warning in a development build and nothing otherwise. *)
Theorem readonly_computed_write_dropped
    (getter : ComputedGetter) (debugOptions : option DebuggerOptions)
    (isSSR : bool) (newValue : JSValue) (w : World) :
  ∃ w',
    ComputedRefImpl_set_value (computed (OfGetter getter) debugOptions isSSR)
      newValue w = Normal tt w'
    ∧ heap w' = heap w
    ∧ triggerEventInfos w' = triggerEventInfos w
    ∧ trace w' =
        trace w ++
        (if __DEV__
         then [EvWarn "Write operation failed: computed value is readonly"]
         else [])
    ∧ c_isReadonly (computed (OfGetter getter) debugOptions isSSR) = true
    ∧ (∀ v w1,
         ComputedRefImpl_get_value
           (computed (OfGetter getter) debugOptions isSSR) w = Normal v w1 →
         ∃ w1',
           ComputedRefImpl_get_value
             (computed (OfGetter getter) debugOptions isSSR) w'
             = Normal v w1'
           ∧ heap w1' = heap w1).
Proof.
  assert (Hs : c_setter (computed (OfGetter getter) debugOptions isSSR) = None).
  { unfold computed. simpl.
    destruct debugOptions; [destruct (__DEV__ && negb isSSR)|]; done. }
  assert (Hr : c_isReadonly (computed (OfGetter getter) debugOptions isSSR)
               = true).
  { unfold computed. simpl.
    destruct debugOptions; [destruct (__DEV__ && negb isSSR)|]; done. }
  assert (Hget : ∀ (w' : World) v w1,
    heap w' = heap w →
    ComputedRefImpl_get_value
      (computed (OfGetter getter) debugOptions isSSR) w = Normal v w1 →
    ∃ w1',
      ComputedRefImpl_get_value
        (computed (OfGetter getter) debugOptions isSSR) w' = Normal v w1'
      ∧ heap w1' = heap w1).
  { intros w' v w1 Hh. unfold ComputedRefImpl_get_value. rewrite Hh.
    destruct (Computed_get _ (heap w)) as [v0 st0].
    intros [= <- <-]. eexists. split; [reflexivity|done]. }
  unfold ComputedRefImpl_set_value. rewrite Hs. unfold warn, emit, ret.
  destruct __DEV__.
  - eexists. split; [reflexivity|]. simpl.
    repeat (split; [done|]). intros v w1. by apply Hget.
  - exists w. rewrite app_nil_r.
    repeat (split; [done|]). intros v w1. by apply Hget.
Qed.

(** C10 (as amended). A second read of the same dependency in one run, with
    tracking on: when the dependency's active link belongs to the active
    subscriber and is not marked for reuse, [Dep.track] returns that link
    and leaves the whole object graph unchanged; only the development trace
    grows by the [onTrack] callback, if the subscriber has one.  Calling it
    again behaves the same way. *)
Theorem Dep_track_repeat_is_idempotent
    (fuel d : nat) (debugInfo : option DebuggerEventExtraInfo) (w : World)
    (a l : nat) (dp : Dep) (lr : Link) (sa : Subscriber) :
  activeSub (heap w) = Some a →
  shouldTrack (heap w) = true →
  subscribers (heap w) !! a = Some sa →
  deps (heap w) !! d = Some dp →
  d_activeLink dp = Some l →
  links (heap w) !! l = Some lr →
  l_sub lr = a →
  l_version lr ≠ -1 →
  ∃ w' w'',
    Dep_track fuel d debugInfo w = Normal (Some l) w'
    ∧ Dep_track fuel d debugInfo w' = Normal (Some l) w''
    ∧ heap w' = heap w ∧ heap w'' = heap w
    ∧ trace w' = trace w ++ dev_onTrack_events sa a debugInfo.
Proof.
  intros Ha Ht Hsa Hd Hal Hl Hs Hv.
  assert (Hstep : ∀ w0, heap w0 = heap w →
            Dep_track fuel d debugInfo w0 =
            Normal (Some l)
              (mkWorld (heap w0) (triggerEventInfos w0)
                 (trace w0 ++ dev_onTrack_events sa a debugInfo))).
  { intros [st0 infos0 tr0] Hw0. simpl in Hw0. subst st0.
    unfold Dep_track. unfold_M.
    repeat (progress (simpl;
      rewrite ?Ha, ?Ht, ?Hd, ?Hal, ?Hl, ?Hsa, ?(bool_decide_eq_true_2 _ Hs),
        ?(proj2 (Z.eqb_neq _ _) Hv))).
    unfold dev_onTrack_events.
    destruct (__DEV__ && bool_decide (is_Some (s_onTrack sa))); simpl.
    - done.
    - by rewrite app_nil_r. }
  eexists _, _. split; [apply Hstep; done|].
  split; [apply Hstep; done|]. done.
Qed.

(** C6. [Dep.trigger] is [Dep.notify] run from the world in which the
    version of this dependency and the global version have both grown by
    exactly one, and nothing else has changed. *)
Theorem Dep_trigger_bumps_then_notifies
    (fuel d : nat) (debugInfo : option DebuggerEventExtraInfo) (w : World)
    (dp : Dep) :
  deps (heap w) !! d = Some dp →
  ∃ w1,
    Dep_trigger fuel d debugInfo w = Dep_notify fuel d debugInfo w1
    ∧ deps (heap w1) !! d = Some (with_d_version (d_version dp + 1) dp)
    ∧ globalVersion (heap w1) = globalVersion (heap w) + 1
    ∧ (∀ d', d' ≠ d → deps (heap w1) !! d' = deps (heap w) !! d')
    ∧ links (heap w1) = links (heap w)
    ∧ subscribers (heap w1) = subscribers (heap w)
    ∧ activeSub (heap w1) = activeSub (heap w)
    ∧ shouldTrack (heap w1) = shouldTrack (heap w)
    ∧ targetMap (heap w1) = targetMap (heap w)
    ∧ triggerEventInfos w1 = triggerEventInfos w
    ∧ trace w1 = trace w.
Proof.
  intros Hd. unfold Dep_trigger. unfold_M. rewrite Hd. simpl.
  eexists. split; [reflexivity|]. simpl.
  split. { rewrite lookup_alter_eq, Hd. done. }
  split; [done|].
  split. { intros d' Hne. by rewrite lookup_alter_ne. }
  done.
Qed.


(** *** Relations kept along a computation *)

Lemma keeps_ret (R : State → State → Prop) {A : Type} (a : A) :
  (∀ st, R st st) → keeps R (ret a).
Proof. intros HR w. apply HR. Qed.

Lemma keeps_throw (R : State → State → Prop) {A : Type} (e : Error) :
  (∀ st, R st st) → keeps R (@throw A e).
Proof. intros HR w. apply HR. Qed.

Lemma keeps_bind (R : State → State → Prop) {A B : Type} (m : M A)
    (k : A → M B) :
  (∀ x y z, R x y → R y z → R x z) →
  keeps R m → (∀ a, keeps R (k a)) → keeps R (bind m k).
Proof.
  intros Htr Hm Hk w. unfold bind. specialize (Hm w).
  destruct (m w) as [a w1|e w1| |]; try done.
  specialize (Hk a w1).
  destruct (k a w1) as [b w2|e w2| |]; try done; by eapply Htr.
Qed.

Lemma keeps_modify (R : State → State → Prop) (f : State → State) :
  (∀ st, R st (f st)) → keeps R (modify f).
Proof. intros Hf w. apply Hf. Qed.

Lemma keeps_emit (R : State → State → Prop) (e : Event) :
  (∀ st, R st st) → keeps R (emit e).
Proof. intros HR w. apply HR. Qed.

Lemma keeps_get_state (R : State → State → Prop) :
  (∀ st, R st st) → keeps R get_state.
Proof. intros HR w. apply HR. Qed.

Lemma keeps_getLink (R : State → State → Prop) (l : nat) :
  (∀ st, R st st) → keeps R (getLink l).
Proof.
  intros HR w. unfold getLink. destruct (links (heap w) !! l); [apply HR|done].
Qed.

Lemma keeps_getDep (R : State → State → Prop) (d : nat) :
  (∀ st, R st st) → keeps R (getDep d).
Proof.
  intros HR w. unfold getDep. destruct (deps (heap w) !! d); [apply HR|done].
Qed.

Lemma keeps_getSub (R : State → State → Prop) (s : nat) :
  (∀ st, R st st) → keeps R (getSub s).
Proof.
  intros HR w. unfold getSub.
  destruct (subscribers (heap w) !! s); [apply HR|done].
Qed.

Lemma keeps_out_of_fuel (R : State → State → Prop) {A : Type} :
  keeps R (@out_of_fuel A).
Proof. by intros w. Qed.

(** *** Tracking leaves versions, ends of links and the registry alone *)

Lemma track_frame_refl (st : State) : track_frame st st.
Proof. unfold track_frame. repeat split; eauto 10. Qed.

Lemma track_frame_trans (x y z : State) :
  track_frame x y → track_frame y z → track_frame x z.
Proof.
  intros (H1 & H2 & H3 & H4 & H5 & H6 & H7) (K1 & K2 & K3 & K4 & K5 & K6 & K7).
  unfold track_frame.
  split; [congruence|]. split; [congruence|]. split; [congruence|].
  split; [|split; [|split]].
  - intros d r Hr. destruct (H4 d r Hr) as (r1 & Hr1 & ? & ?).
    destruct (K4 d r1 Hr1) as (r2 & Hr2 & ? & ?).
    exists r2. split; [done|]. split; congruence.
  - intros l r Hr. destruct (H5 l r Hr) as (r1 & Hr1 & ? & ?).
    destruct (K5 l r1 Hr1) as (r2 & Hr2 & ? & ?).
    exists r2. split; [done|]. split; congruence.
  - intros s r Hr. destruct (H6 s r Hr) as (r1 & Hr1 & ? & ? & ?).
    destruct (K6 s r1 Hr1) as (r2 & Hr2 & ? & ? & ?).
    exists r2. split; [done|]. repeat split; congruence.
  - intros t k d Hd. by apply K7, H7.
Qed.

Lemma track_frame_links (st : State) (l : nat) (f : Link → Link) :
  (∀ r, l_dep (f r) = l_dep r ∧ l_sub (f r) = l_sub r) →
  track_frame st (set_links (alter f l) st).
Proof.
  intros Hf. unfold track_frame. simpl. repeat split; eauto 10.
  intros x r Hr. destruct (decide (l = x)) as [->|Hne].
  - exists (f r). rewrite lookup_alter_eq, Hr. split; [done|]. apply Hf.
  - exists r. by rewrite lookup_alter_ne.
Qed.

Lemma track_frame_deps (st : State) (d : nat) (f : Dep → Dep) :
  (∀ r, d_version (f r) = d_version r ∧ d_computed (f r) = d_computed r) →
  track_frame st (set_deps (alter f d) st).
Proof.
  intros Hf. unfold track_frame. simpl. repeat split; eauto 10.
  intros x r Hr. destruct (decide (d = x)) as [->|Hne].
  - exists (f r). rewrite lookup_alter_eq, Hr. split; [done|]. apply Hf.
  - exists r. by rewrite lookup_alter_ne.
Qed.

Lemma track_frame_subscribers (st : State) (s : nat)
    (f : Subscriber → Subscriber) :
  (∀ r, s_isComputed (f r) = s_isComputed r
        ∧ s_onTrack (f r) = s_onTrack r
        ∧ s_onTrigger (f r) = s_onTrigger r) →
  track_frame st (set_subscribers (alter f s) st).
Proof.
  intros Hf. unfold track_frame. simpl. repeat split; eauto 10.
  intros x r Hr. destruct (decide (s = x)) as [->|Hne].
  - exists (f r). rewrite lookup_alter_eq, Hr. split; [done|]. apply Hf.
  - exists r. by rewrite lookup_alter_ne.
Qed.

Lemma keeps_newLink (r : Link) : keeps track_frame (newLink r).
Proof.
  intros w. unfold newLink, track_frame. simpl. repeat split; eauto 10.
  intros x rx Hx. exists rx. split; [|done].
  rewrite lookup_insert_ne; [done|]. intros <-.
  assert (H : fresh (dom (links (heap w))) ∈ dom (links (heap w)))
    by (apply elem_of_dom; eauto).
  by apply is_fresh in H.
Qed.

Lemma keeps_newDep (r : Dep) : keeps track_frame (newDep r).
Proof.
  intros w. unfold newDep, track_frame. simpl. repeat split; eauto 10.
  intros x rx Hx. exists rx. split; [|done].
  rewrite lookup_insert_ne; [done|]. intros <-.
  assert (H : fresh (dom (deps (heap w))) ∈ dom (deps (heap w)))
    by (apply elem_of_dom; eauto).
  by apply is_fresh in H.
Qed.

(** One step of the decomposition of a computation of [dep.ts]. *)
Ltac keeps_step :=
  first
    [ apply keeps_ret; apply track_frame_refl
    | apply keeps_throw; apply track_frame_refl
    | apply keeps_get_state; apply track_frame_refl
    | apply keeps_getLink; apply track_frame_refl
    | apply keeps_getDep; apply track_frame_refl
    | apply keeps_getSub; apply track_frame_refl
    | apply keeps_emit; apply track_frame_refl
    | apply keeps_newLink
    | apply keeps_modify; intros ?;
      first [ apply track_frame_links | apply track_frame_deps
            | apply track_frame_subscribers ];
      by intros []
    | apply keeps_bind; [apply track_frame_trans| |intros ?]
    | match goal with
      | |- keeps _ (match ?x with _ => _ end) => destruct x
      | |- keeps _ (if ?b then _ else _) => destruct b
      end ].

Lemma keeps_addSub (link : nat) : keeps track_frame (addSub link).
Proof. unfold addSub, when, setLink, setDep. repeat keeps_step. Qed.

Lemma keeps_addSub_loop (fuel : nat) (l : option nat) :
  keeps track_frame (addSub_loop fuel l).
Proof.
  revert l. induction fuel as [|fuel IH]; intros [x|]; simpl;
    try (apply keeps_ret; apply track_frame_refl);
    try apply keeps_out_of_fuel.
  apply keeps_bind; [apply track_frame_trans|apply keeps_addSub|intros _].
  apply keeps_bind; [apply track_frame_trans| |intros lr; apply IH].
  apply keeps_getLink, track_frame_refl.
Qed.

Lemma keeps_Dep_track (fuel this : nat)
    (debugInfo : option DebuggerEventExtraInfo) :
  keeps track_frame (Dep_track fuel this debugInfo).
Proof.
  unfold Dep_track, when, setLink, setDep, setSub.
  repeat first [ apply keeps_addSub_loop | apply keeps_addSub | keeps_step ].
Qed.

Lemma Map_get_set_eq (k : Key) (d : nat) (m : KeyToDepMap) :
  Map_get k (Map_set k d m) = Some d.
Proof.
  induction m as [|[k' d'] m IH]; simpl.
  - by rewrite decide_True.
  - destruct (decide (k' = k)) as [->|Hne]; simpl.
    + by rewrite decide_True.
    + by rewrite decide_False.
Qed.

Lemma Map_get_set_ne (k k' : Key) (d : nat) (m : KeyToDepMap) :
  k ≠ k' → Map_get k' (Map_set k d m) = Map_get k' m.
Proof.
  intros Hne. induction m as [|[k0 d0] m IH]; simpl.
  - by rewrite decide_False.
  - destruct (decide (k0 = k)) as [->|Hne0]; simpl.
    + by rewrite !decide_False.
    + destruct (decide (k0 = k')); [done|apply IH].
Qed.

Lemma track_frame_new_target (st : State) (tid : nat) :
  targetMap st !! tid = None →
  track_frame st (set_targetMap (insert tid []) st).
Proof.
  intros Hnone. unfold track_frame. simpl. repeat split; eauto 10.
  intros t k d. unfold getDepFromReactive. simpl.
  destruct (decide (tid = target_id t)) as [->|Hne].
  - by rewrite Hnone.
  - by rewrite lookup_insert_ne.
Qed.

Lemma track_frame_new_key (st : State) (tid : nat) (key : Key) (d : nat)
    (m : KeyToDepMap) :
  targetMap st !! tid = Some m →
  Map_get key m = None →
  track_frame st (set_targetMap (alter (Map_set key d) tid) st).
Proof.
  intros Hm Hk. unfold track_frame. simpl. repeat split; eauto 10.
  intros t k d'. unfold getDepFromReactive. simpl.
  destruct (decide (tid = target_id t)) as [->|Hne].
  - rewrite lookup_alter_eq, Hm. simpl. intros Hd'.
    rewrite Map_get_set_ne; [done|]. intros <-. congruence.
  - by rewrite lookup_alter_ne.
Qed.

Lemma track_frame_fresh_dep (st : State) (r : Dep) :
  track_frame st (set_deps (insert (fresh (dom (deps st))) r) st).
Proof. apply (keeps_newDep r (mkWorld st [] [])). Qed.

(** X1. Tracking never touches a version: whether [track] or [Dep.track]
    returns or throws, [globalVersion], [activeSub] and [shouldTrack] are
    what they were, every dependency keeps its version and its computed,
    every link keeps its two ends, every subscriber its kind and
    callbacks, and every (target, key) that had a dependency still has
    that one. *)
Theorem track_keeps_versions_and_registry
    (fuel : nat) (target : Target) (type : TrackOpTypes) (key : Key)
    (d : nat) (debugInfo : option DebuggerEventExtraInfo) :
  keeps track_frame (track fuel target type key)
  ∧ keeps track_frame (Dep_track fuel d debugInfo).
Proof.
  split; [|apply keeps_Dep_track].
  intros [st infos tr]. unfold track, bind, get_state, modify, ret, newDep.
  simpl.
  destruct (shouldTrack st && bool_decide (is_Some (activeSub st)));
    [|apply track_frame_refl].
  destruct (targetMap st !! target_id target) as [m|] eqn:Hm; simpl.
  - destruct (Map_get key m) as [dep|] eqn:Hk; simpl.
    + match goal with
      | |- context [Dep_track fuel dep ?i ?W] =>
          pose proof (keeps_Dep_track fuel dep i W) as H;
          destruct (Dep_track fuel dep i W)
      end; done.
    + assert (Hreg :
        track_frame st
          (set_targetMap
             (alter (Map_set key (fresh (dom (deps st)))) (target_id target))
             (set_deps (insert (fresh (dom (deps st)))
                          (mkDep 0 None None None)) st))).
      { eapply track_frame_trans; [apply track_frame_fresh_dep|].
        by apply track_frame_new_key with (m := m). }
      match goal with
      | |- context [Dep_track fuel ?dep ?i ?W] =>
          pose proof (keeps_Dep_track fuel dep i W) as H;
          destruct (Dep_track fuel dep i W)
      end; try done; simpl in H; by eapply track_frame_trans.
  - assert (Hreg :
      track_frame st
        (set_targetMap
           (alter (Map_set key (fresh (dom (deps st)))) (target_id target))
           (set_deps (insert (fresh (dom (deps st)))
                        (mkDep 0 None None None))
              (set_targetMap (insert (target_id target) []) st)))).
    { eapply track_frame_trans; [by apply track_frame_new_target|].
      eapply track_frame_trans;
        [apply (track_frame_fresh_dep
                  (set_targetMap (insert (target_id target) []) st))|].
      apply track_frame_new_key with (m := []); [|done].
      simpl. by rewrite lookup_insert_eq. }
    match goal with
    | |- context [Dep_track fuel ?dep ?i ?W] =>
        pose proof (keeps_Dep_track fuel dep i W) as H;
        destruct (Dep_track fuel dep i W)
    end; try done; simpl in H; by eapply track_frame_trans.
Qed.

(** *** [globalVersion] along a trigger *)

Lemma grows_ret {A : Type} (a : A) : grows 0 (ret a).
Proof. intros w. simpl. lia. Qed.

Lemma grows_bind {A B : Type} (n k : Z) (m : M A) (f : A → M B) :
  0 ≤ n → 0 ≤ k →
  grows n m → (∀ a, grows k (f a)) → grows (n + k) (bind m f).
Proof.
  intros Hn Hk Hm Hf w. unfold bind. specialize (Hm w).
  destruct (m w) as [a w1|e w1| |]; try done.
  specialize (Hf a w1).
  destruct (f a w1) as [b w2|e w2| |]; try done; lia.
Qed.

Lemma grows_modify (n : Z) (f : State → State) :
  (∀ st, globalVersion st + n ≤ globalVersion (f st)) → grows n (modify f).
Proof. intros Hf w. apply Hf. Qed.

Lemma grows_emit (e : Event) : grows 0 (emit e).
Proof. intros w. simpl. lia. Qed.

Lemma grows_getLink (l : nat) : grows 0 (getLink l).
Proof.
  intros w. unfold getLink. destruct (links (heap w) !! l); simpl; [lia|done].
Qed.

Lemma grows_getDep (d : nat) : grows 0 (getDep d).
Proof.
  intros w. unfold getDep. destruct (deps (heap w) !! d); simpl; [lia|done].
Qed.

Lemma grows_getSub (s : nat) : grows 0 (getSub s).
Proof.
  intros w. unfold getSub.
  destruct (subscribers (heap w) !! s); simpl; [lia|done].
Qed.

Lemma grows_weaken {A : Type} (n k : Z) (m : M A) :
  k ≤ n → grows n m → grows k m.
Proof.
  intros Hle Hm w. specialize (Hm w). destruct (m w); try done; lia.
Qed.

Section Monotone.

Hypothesis startBatch_monotone : version_monotone startBatch.
Hypothesis endBatch_monotone : version_monotone endBatch.
Hypothesis notify_monotone : ∀ s, version_monotone (Subscriber_notify s).

Lemma grows_notify_loop (fuel : nat)
    (debugInfo : option DebuggerEventExtraInfo) (link : option nat) :
  grows 0 (notify_loop fuel debugInfo link).
Proof.
  revert link. induction fuel as [|fuel IH]; intros [l|]; simpl;
    try apply grows_ret; try (by intros w).
  change 0 with (0 + (0 + (0 + (0 + (0 + (0 + 0)))))).
  apply grows_bind; [lia|lia|apply grows_getLink|intros lr].
  apply grows_bind; [lia|lia|apply grows_getSub|intros s].
  apply grows_bind; [lia|lia| |intros _].
  { unfold when. destruct (_ && _); [apply grows_emit|apply grows_ret]. }
  apply grows_bind; [lia|lia|apply grows_getLink|intros lr'].
  apply grows_bind; [lia|lia|apply grows_emit|intros _].
  apply grows_bind; [lia|lia| |intros _].
  { apply grows_modify. intros st. specialize (notify_monotone (l_sub lr') st).
    lia. }
  change 0 with (0 + 0).
  apply grows_bind; [lia|lia|apply grows_getLink|intros lr'']. apply IH.
Qed.

Lemma grows_Dep_notify (fuel this : nat)
    (debugInfo : option DebuggerEventExtraInfo) :
  grows 0 (Dep_notify fuel this debugInfo).
Proof.
  unfold Dep_notify. change 0 with (0 + 0).
  apply grows_bind; [lia|lia| |intros isC].
  { unfold activeSub_isComputed. intros w. unfold bind, get_state, getSub, ret.
    simpl. destruct (activeSub (heap w)) as [a|]; simpl; [|lia].
    destruct (subscribers (heap w) !! a); simpl; [lia|done]. }
  destruct (negb isC).
  - change 0 with (0 + (0 + (0 + (0 + (0 + 0))))).
    apply grows_bind; [lia|lia|apply grows_emit|intros _].
    apply grows_bind; [lia|lia| |intros _].
    { apply grows_modify. intros st. specialize (startBatch_monotone st). lia. }
    apply grows_bind; [lia|lia|apply grows_getDep|intros d].
    apply grows_bind; [lia|lia|apply grows_notify_loop|intros _].
    apply grows_bind; [lia|lia|apply grows_emit|intros _].
    apply grows_modify. intros st. specialize (endBatch_monotone st). lia.
  - destruct __DEV__; apply grows_ret.
Qed.

Lemma grows_Dep_trigger (fuel this : nat)
    (debugInfo : option DebuggerEventExtraInfo) :
  grows 1 (Dep_trigger fuel this debugInfo).
Proof.
  unfold Dep_trigger. change 1 with (0 + (0 + (1 + 0))).
  apply grows_bind; [lia|lia|apply grows_getDep|intros d].
  apply grows_bind; [lia|lia| |intros _].
  { unfold setDep. apply grows_modify. intros st. simpl. lia. }
  apply grows_bind; [lia|lia| |intros _; apply grows_Dep_notify].
  apply grows_modify. intros st. simpl. lia.
Qed.

Lemma grows_trigger_each (fuel : nat)
    (debugInfo : option DebuggerEventExtraInfo) (ds : list nat) :
  grows (Z.of_nat (length ds)) (trigger_each fuel debugInfo ds).
Proof.
  induction ds as [|d ds IH]; simpl trigger_each.
  - apply grows_ret.
  - replace (Z.of_nat (length (d :: ds))) with (1 + Z.of_nat (length ds))
      by (simpl length; lia).
    apply grows_bind; [lia|lia|apply grows_Dep_trigger|intros _; apply IH].
Qed.

(** X2. As long as the calls into effect.ts do not take [globalVersion]
    back, a [Dep.trigger] that returns has increased it by at least one,
    and a [trigger] that returns has increased it by at least the number of
    dependencies it collected (by at least one for a target that was never
    tracked); neither ever makes it smaller. *)
Theorem trigger_globalVersion_grows
    (fuel : nat) (this : nat) (debugInfo : option DebuggerEventExtraInfo)
    (target : Target) (type : TriggerOpTypes) (key : Key)
    (newValue oldValue oldTarget : JSValue) (w : World) :
  grows 1 (Dep_trigger fuel this debugInfo)
  ∧ match trigger fuel target type key newValue oldValue oldTarget w with
    | Normal _ w' =>
        globalVersion (heap w)
        + match targetMap (heap w) !! target_id target with
          | None => 1
          | Some depsMap =>
              Z.of_nat
                (length (collect_deps target type key newValue depsMap))
          end
        ≤ globalVersion (heap w')
    | Thrown _ w' => globalVersion (heap w) ≤ globalVersion (heap w')
    | Dangling => True
    | OutOfFuel => True
    end.
Proof.
  split; [apply grows_Dep_trigger|].
  unfold trigger. unfold bind at 1. unfold get_state.
  destruct (targetMap (heap w) !! target_id target) as [m|].
  - set (ds := collect_deps target type key newValue m).
    assert (H : grows (Z.of_nat (length ds))
      (emit EvStartBatch;;
       modify startBatch;;
       trigger_each fuel
         (if __DEV__
          then Some (TriggerInfo target type key newValue oldValue oldTarget)
          else None) ds;;
       emit EvEndBatch;;
       modify endBatch)).
    { replace (Z.of_nat (length ds))
        with (0 + (0 + (Z.of_nat (length ds) + (0 + 0)))) by lia.
      apply grows_bind; [lia|lia|apply grows_emit|intros _].
      apply grows_bind; [lia|lia| |intros _].
      { apply grows_modify. intros st. specialize (startBatch_monotone st).
        lia. }
      apply grows_bind; [lia|lia|apply grows_trigger_each|intros _].
      apply grows_bind; [lia|lia|apply grows_emit|intros _].
      apply grows_modify. intros st. specialize (endBatch_monotone st). lia. }
    apply (H w).
  - simpl. lia.
Qed.

End Monotone.

(** *** Subscriber lists: the mirror lemmas *)

Lemma sub_node_b_true lk x p n :
  sub_node_b lk x p n = true ↔
  ∃ r, lk !! x = Some r ∧ l_prevSub r = p ∧ l_nextSub r = n.
Proof.
  unfold sub_node_b. split.
  - destruct (lk !! x) as [r|]; [|done]. intros H.
    apply andb_true_iff in H as [H1 H2].
    apply bool_decide_eq_true in H1. apply bool_decide_eq_true in H2. eauto.
  - intros (r & -> & H1 & H2).
    by rewrite !bool_decide_eq_true_2.
Qed.

Lemma sub_node_b_alter_ne lk f x y p n :
  x ≠ y → sub_node_b (alter f y lk) x p n = sub_node_b lk x p n.
Proof. intros H. unfold sub_node_b. by rewrite lookup_alter_ne. Qed.

Lemma sub_node_b_alter_version lk v x y p n :
  sub_node_b (alter (with_version v) y lk) x p n = sub_node_b lk x p n.
Proof.
  unfold sub_node_b. destruct (decide (y = x)) as [->|Hne].
  - rewrite lookup_alter_eq. by destruct (lk !! x).
  - by rewrite lookup_alter_ne.
Qed.

Lemma sub_node_b_alter_nextSub lk x p n n' :
  sub_node_b lk x p n = true →
  sub_node_b (alter (with_nextSub n') x lk) x p n' = true.
Proof.
  rewrite !sub_node_b_true. intros (r & Hr & H1 & H2).
  exists (with_nextSub n' r). by rewrite lookup_alter_eq, Hr.
Qed.

Lemma sub_node_b_alter_prevSub lk x p p' n :
  sub_node_b lk x p n = true →
  sub_node_b (alter (with_prevSub p') x lk) x p' n = true.
Proof.
  rewrite !sub_node_b_true. intros (r & Hr & H1 & H2).
  exists (with_prevSub p' r). by rewrite lookup_alter_eq, Hr.
Qed.

Lemma sub_chain_app lk prev xs ys nxt :
  sub_chain lk prev (xs ++ ys) nxt =
  sub_chain lk prev xs (head_or nxt ys)
  && sub_chain lk (last_or prev xs) ys nxt.
Proof.
  revert prev. induction xs as [|x xs IH]; intros prev; [done|].
  simpl. rewrite IH. rewrite <- andb_assoc.
  assert (Hh : head_or nxt (xs ++ ys) = head_or (head_or nxt ys) xs)
    by (destruct xs; reflexivity).
  assert (Hl : last_or (Some x) xs = last_or prev (x :: xs)).
  { unfold last_or. destruct xs as [|y xs']; [done|].
    change (last (x :: y :: xs')) with (last (y :: xs')).
    destruct (last (y :: xs')) eqn:E; [done|].
    by apply last_None in E. }
  by rewrite Hh, Hl.
Qed.

Lemma sub_chain_frame lk lk' prev xs nxt :
  (∀ x p n, x ∈ xs → sub_node_b lk' x p n = sub_node_b lk x p n) →
  sub_chain lk' prev xs nxt = sub_chain lk prev xs nxt.
Proof.
  revert prev. induction xs as [|x xs IH]; intros prev H; [done|].
  simpl. rewrite H by apply list_elem_of_here. rewrite IH; [done|].
  intros y p n Hy. apply H. by apply list_elem_of_further.
Qed.

Lemma sub_chain_alter_ne lk f x prev xs nxt :
  x ∉ xs →
  sub_chain (alter f x lk) prev xs nxt = sub_chain lk prev xs nxt.
Proof.
  intros Hx. apply sub_chain_frame. intros y p n Hy.
  apply sub_node_b_alter_ne. intros ->. done.
Qed.

Lemma sub_chain_alter_version lk v x prev xs nxt :
  sub_chain (alter (with_version v) x lk) prev xs nxt
  = sub_chain lk prev xs nxt.
Proof.
  apply sub_chain_frame. intros y p n _. apply sub_node_b_alter_version.
Qed.

Lemma sub_chain_set_prev lk prev p' x xs nxt :
  x ∉ xs →
  sub_chain lk prev (x :: xs) nxt = true →
  sub_chain (alter (with_prevSub p') x lk) p' (x :: xs) nxt = true.
Proof.
  simpl. intros Hx H. apply andb_true_iff in H as [H1 H2].
  rewrite (sub_node_b_alter_prevSub _ _ _ _ _ H1).
  by rewrite sub_chain_alter_ne.
Qed.

Lemma sub_chain_set_next lk prev xs y nxt n' :
  y ∉ xs →
  sub_chain lk prev (xs ++ [y]) nxt = true →
  sub_chain (alter (with_nextSub n') y lk) prev (xs ++ [y]) n' = true.
Proof.
  rewrite !sub_chain_app. simpl. intros Hy H.
  apply andb_true_iff in H as [H1 H2].
  rewrite andb_true_r in H2.
  rewrite sub_chain_alter_ne by done. rewrite H1.
  by rewrite (sub_node_b_alter_nextSub _ _ _ _ _ H2).
Qed.


Lemma node_b_alter_inert lk (f : Link → Link) x y p n :
  (∀ r, l_prevDep (f r) = l_prevDep r ∧ l_nextDep (f r) = l_nextDep r) →
  node_b (alter f y lk) x p n = node_b lk x p n.
Proof.
  intros Hf. unfold node_b. destruct (decide (y = x)) as [->|Hne].
  - rewrite lookup_alter_eq. destruct (lk !! x) as [r|]; [|done]. simpl.
    destruct (Hf r) as [-> ->]. done.
  - by rewrite lookup_alter_ne.
Qed.

Lemma sub_node_b_alter_inert lk (f : Link → Link) x y p n :
  (∀ r, l_prevSub (f r) = l_prevSub r ∧ l_nextSub (f r) = l_nextSub r) →
  sub_node_b (alter f y lk) x p n = sub_node_b lk x p n.
Proof.
  intros Hf. unfold sub_node_b. destruct (decide (y = x)) as [->|Hne].
  - rewrite lookup_alter_eq. destruct (lk !! x) as [r|]; [|done]. simpl.
    destruct (Hf r) as [-> ->]. done.
  - by rewrite lookup_alter_ne.
Qed.

Lemma dep_chain_alter_inert lk (f : Link → Link) y prev xs nxt :
  (∀ r, l_prevDep (f r) = l_prevDep r ∧ l_nextDep (f r) = l_nextDep r) →
  dep_chain (alter f y lk) prev xs nxt = dep_chain lk prev xs nxt.
Proof.
  intros Hf. apply dep_chain_frame. intros x p n _.
  by apply node_b_alter_inert.
Qed.

Lemma sub_chain_alter_inert lk (f : Link → Link) y prev xs nxt :
  (∀ r, l_prevSub (f r) = l_prevSub r ∧ l_nextSub (f r) = l_nextSub r) →
  sub_chain (alter f y lk) prev xs nxt = sub_chain lk prev xs nxt.
Proof.
  intros Hf. apply sub_chain_frame. intros x p n _.
  by apply sub_node_b_alter_inert.
Qed.

Lemma dep_chain_insert_ne lk (r : Link) y prev xs nxt :
  y ∉ xs →
  dep_chain (<[y:=r]> lk) prev xs nxt = dep_chain lk prev xs nxt.
Proof.
  intros Hy. apply dep_chain_frame. intros x p n Hx. unfold node_b.
  rewrite lookup_insert_ne; [done|]. by intros ->.
Qed.

Lemma sub_chain_insert_ne lk (r : Link) y prev xs nxt :
  y ∉ xs →
  sub_chain (<[y:=r]> lk) prev xs nxt = sub_chain lk prev xs nxt.
Proof.
  intros Hy. apply sub_chain_frame. intros x p n Hx. unfold sub_node_b.
  rewrite lookup_insert_ne; [done|]. by intros ->.
Qed.

Lemma dep_chain_allocated lk prev xs nxt :
  dep_chain lk prev xs nxt = true → ∀ x, x ∈ xs → is_Some (lk !! x).
Proof.
  revert prev. induction xs as [|y xs IH]; intros prev H x Hx.
  - by apply elem_of_nil in Hx.
  - simpl in H. apply andb_true_iff in H as [H1 H2].
    apply elem_of_cons in Hx as [->|Hx]; [|by eapply IH].
    apply node_b_true in H1 as (r & Hr & _). by rewrite Hr.
Qed.

Lemma sub_chain_allocated lk prev xs nxt :
  sub_chain lk prev xs nxt = true → ∀ x, x ∈ xs → is_Some (lk !! x).
Proof.
  revert prev. induction xs as [|y xs IH]; intros prev H x Hx.
  - by apply elem_of_nil in Hx.
  - simpl in H. apply andb_true_iff in H as [H1 H2].
    apply elem_of_cons in Hx as [->|Hx]; [|by eapply IH].
    apply sub_node_b_true in H1 as (r & Hr & _). by rewrite Hr.
Qed.

Lemma last_elem_of (xs : list nat) (t : nat) : last xs = Some t → t ∈ xs.
Proof.
  intros H. apply last_Some in H as [xs0 ->].
  apply elem_of_app. right. apply list_elem_of_here.
Qed.

(** *** [addSub] *)

Lemma addSub_run (st : State) (infos : list DebuggerEventExtraInfo)
    (tr : list Event) (l : nat) (lr : Link) (dr : Dep) :
  links st !! l = Some lr →
  deps st !! l_dep lr = Some dr →
  addSub l (mkWorld st infos tr)
  = Normal tt
      (mkWorld
         (set_deps (alter (with_subs (Some l)) (l_dep lr))
            (set_links
               (if bool_decide (d_subs dr = Some l) then fun m => m
                else attach_links (d_subs dr) l) st))
         infos tr).
Proof.
  intros Hl Hd. unfold addSub, attach_links. unfold_M. simpl. rewrite Hl.
  simpl. rewrite Hd. simpl.
  destruct (bool_decide (d_subs dr = Some l)); simpl.
  - rewrite Hl. by destruct st.
  - destruct (d_subs dr) as [t|]; simpl.
    + assert (He : erase_link <$>
                alter (with_nextSub (Some l)) t
                  (alter (with_prevSub (Some t)) l (links st))
              = erase_link <$> links st).
      { rewrite !fmap_alter_absorb; [done| |]; by intros []. }
      destruct (erase_link_lookup _ _ l lr He Hl) as (r' & Hr' & Her).
      rewrite Hr'. apply erase_link_fields in Her as [-> _]. done.
    + rewrite lookup_alter_eq, Hl. simpl. done.
Qed.

Lemma attach_links_chain lk (sls : list nat) (l : nat) (p : option nat) :
  NoDup sls →
  l ∉ sls →
  sub_chain lk None sls None = true →
  sub_node_b lk l p None = true →
  sub_chain (attach_links (last sls) l lk) None (sls ++ [l]) None = true.
Proof.
  intros Hnd Hnotin Hch Hnode.
  rewrite sub_chain_app. simpl. rewrite andb_true_r.
  unfold attach_links.
  destruct (last sls) as [t|] eqn:Hlast.
  - pose proof Hlast as Hsplit. apply last_Some in Hsplit as [s0 ->].
    assert (Htl : t ≠ l).
    { intros ->. apply Hnotin. apply elem_of_app. right.
      apply list_elem_of_here. }
    apply andb_true_iff. split.
    + apply sub_chain_set_next with (nxt := None).
      { apply NoDup_app in Hnd as (_ & H & _). intros Hin.
        apply (H t Hin). apply list_elem_of_here. }
      by rewrite sub_chain_alter_ne.
    + unfold last_or. rewrite Hlast.
      rewrite sub_node_b_alter_ne by done.
      by apply sub_node_b_alter_prevSub with (p := p).
  - apply last_None in Hlast. subst sls. simpl.
    by apply sub_node_b_alter_prevSub with (p := p).
Qed.

Lemma attach_links_dep_chain lk (tail : option nat) (l : nat) prev xs nxt :
  dep_chain (attach_links tail l lk) prev xs nxt = dep_chain lk prev xs nxt.
Proof.
  unfold attach_links. destruct tail as [t|].
  - rewrite !dep_chain_alter_inert; [done| |]; by intros [].
  - rewrite dep_chain_alter_inert; [done|]. by intros [].
Qed.

(** X3. [addSub] appends to a well-formed subscriber list: for a link of
    dependency [d] that has no successor and is not in the list yet, the
    call returns, the list of [d] is well-formed again with the link as
    its new tail [d.subs], and no dependency list of any subscriber is
    disturbed. *)
Theorem addSub_appends_to_subscriber_list
    (w : World) (d l : nat) (lr : Link) (sls : list nat) :
  wf_subs (heap w) d sls = true →
  links (heap w) !! l = Some lr →
  l_dep lr = d →
  l_nextSub lr = None →
  l ∉ sls →
  ∃ w',
    addSub l w = Normal tt w'
    ∧ wf_subs (heap w') d (sls ++ [l]) = true
    ∧ subscribers (heap w') = subscribers (heap w)
    ∧ (∀ a ls, wf_deps (heap w) a ls = true → wf_deps (heap w') a ls = true)
    ∧ trace w' = trace w.
Proof.
  intros Hwf Hl Hdep Hnext Hnotin. destruct w as [st infos tr]. simpl in Hwf, Hl.
  unfold wf_subs in Hwf.
  destruct (deps st !! d) as [dr|] eqn:Hd; [|done].
  apply andb_true_iff in Hwf as [Hwf Htail].
  apply andb_true_iff in Hwf as [Hnd Hch].
  apply bool_decide_eq_true in Hnd. apply bool_decide_eq_true in Htail.
  assert (Hne : d_subs dr ≠ Some l).
  { rewrite Htail. intros H. by apply last_elem_of in H. }
  rewrite <- Hdep in Hd.
  rewrite (addSub_run st infos tr l lr dr Hl Hd).
  rewrite (bool_decide_eq_false_2 _ Hne).
  eexists. split; [reflexivity|]. simpl.
  split; [|split; [done|split; [|done]]].
  - unfold wf_subs. simpl. rewrite Hdep, lookup_alter_eq.
    rewrite Hdep in Hd. rewrite Hd. simpl.
    apply andb_true_iff. split; [apply andb_true_iff; split|].
    + apply bool_decide_eq_true. apply NoDup_app. split; [done|].
      split; [|apply NoDup_singleton].
      intros x Hx Hx'. apply list_elem_of_singleton in Hx'. by subst x.
    + rewrite Htail.
      apply attach_links_chain with (p := l_prevSub lr); try done.
      apply sub_node_b_true. by exists lr.
    + apply bool_decide_eq_true. by rewrite last_snoc.
  - intros a ls. unfold wf_deps. simpl.
    destruct (subscribers st !! a) as [sr|]; [|done].
    intros H. apply andb_true_iff in H as [H H3].
    apply andb_true_iff in H as [H1 H2].
    rewrite H1, H3. rewrite andb_true_r. simpl.
    by rewrite attach_links_dep_chain.
Qed.

(** X4. [addSub] is idempotent: calling it a second time on the same link
    changes nothing, whatever the graph. *)
Theorem addSub_twice_is_once (l : nat) (w : World) :
  (addSub l;; addSub l) w = addSub l w.
Proof.
  destruct w as [st infos tr]. unfold bind at 1.
  destruct (links st !! l) as [lr|] eqn:Hl.
  2: { unfold addSub, bind, getLink. simpl. by rewrite Hl. }
  destruct (deps st !! l_dep lr) as [dr|] eqn:Hd.
  2: { unfold addSub, bind, getLink, getDep. simpl. rewrite Hl. simpl.
       by rewrite Hd. }
  rewrite (addSub_run st infos tr l lr dr Hl Hd).
  set (lk' := (if bool_decide (d_subs dr = Some l) then fun m => m
               else attach_links (d_subs dr) l) (links st)).
  assert (He : erase_link <$> lk' = erase_link <$> links st).
  { unfold lk', attach_links. destruct (bool_decide (d_subs dr = Some l));
      [done|].
    destruct (d_subs dr);
      rewrite ?fmap_alter_absorb; try done; by intros []. }
  destruct (erase_link_lookup _ _ l lr He Hl) as (r' & Hr' & Her).
  apply erase_link_fields in Her as [Hdep' _].
  match goal with
  | |- addSub l (mkWorld ?S _ _) = _ =>
      rewrite (addSub_run S infos tr l r' (with_subs (Some l) dr))
  end.
  - simpl. rewrite bool_decide_eq_true_2 by done. rewrite Hdep'.
    f_equal. f_equal. unfold set_deps, set_links. simpl. f_equal.
    apply map_eq. intros x. destruct (decide (l_dep lr = x)) as [<-|Hne].
    + rewrite !lookup_alter_eq, Hd. done.
    + by rewrite !lookup_alter_ne.
  - done.
  - simpl. by rewrite Hdep', lookup_alter_eq, Hd.
Qed.

(** *** The lazy subscription of a computed *)

Lemma erase_link_dep (lk lk' : gmap nat Link) (l : nat) :
  erase_link <$> lk' = erase_link <$> lk →
  l_dep <$> lk' !! l = l_dep <$> lk !! l.
Proof.
  intros He.
  assert (H : (erase_link <$> lk') !! l = (erase_link <$> lk) !! l)
    by (by rewrite He).
  rewrite !lookup_fmap in H.
  destruct (lk !! l) as [r|], (lk' !! l) as [r'|]; try done.
  change (Some (erase_link r') = Some (erase_link r)) in H.
  assert (H' : erase_link r' = erase_link r) by congruence.
  apply erase_link_fields in H' as [H' _]. simpl. by rewrite H'.
Qed.

Lemma owns_frame (lk lk' : gmap nat Link) (y : nat) (sls : list nat) :
  (∀ l, l ∈ sls → l_dep <$> lk' !! l = l_dep <$> lk !! l) →
  owns lk' y sls = owns lk y sls.
Proof.
  induction sls as [|x sls IH]; intros H; [done|]. simpl.
  rewrite IH by (intros l Hl; apply H; by apply list_elem_of_further).
  f_equal. assert (Hx : x ∈ x :: sls) by apply list_elem_of_here.
  specialize (H x Hx).
  destruct (lk !! x) as [r|], (lk' !! x) as [r'|]; simpl in H; try done.
  by injection H as ->.
Qed.

Lemma owns_elem (lk : gmap nat Link) (y : nat) (sls : list nat) (l : nat) :
  owns lk y sls = true → l ∈ sls → ∃ r, lk !! l = Some r ∧ l_dep r = y.
Proof.
  unfold owns. rewrite forallb_forall. intros H Hl.
  apply list_elem_of_In in Hl. specialize (H l Hl).
  destruct (lk !! l) as [r|]; [|done].
  apply bool_decide_eq_true in H. eauto.
Qed.

Lemma owns_app (lk : gmap nat Link) (y : nat) (xs ys : list nat) :
  owns lk y (xs ++ ys) = owns lk y xs && owns lk y ys.
Proof. unfold owns. apply forallb_app. Qed.

Lemma owns_singleton (lk : gmap nat Link) (y l : nat) (r : Link) :
  lk !! l = Some r → l_dep r = y → owns lk y [l] = true.
Proof.
  intros Hl Hd. unfold owns. simpl. rewrite Hl.
  by rewrite bool_decide_eq_true_2.
Qed.

Lemma own_tails_cons (st : State) (x : nat) (ds : list nat) :
  own_tails st (x :: ds)
  = match deps st !! x with
    | Some dr =>
        match d_subs dr with
        | Some t => owns (links st) x [t]
        | None => true
        end
    | None => false
    end && own_tails st ds.
Proof. done. Qed.

Lemma own_tails_elem (st : State) (ds : list nat) (x : nat) :
  own_tails st ds = true → x ∈ ds →
  ∃ dr, deps st !! x = Some dr
        ∧ ∀ t, d_subs dr = Some t →
               ∃ tr, links st !! t = Some tr ∧ l_dep tr = x.
Proof.
  unfold own_tails. rewrite forallb_forall. intros H Hx.
  apply list_elem_of_In in Hx. specialize (H x Hx).
  destruct (deps st !! x) as [dr|]; [|done].
  exists dr. split; [done|]. intros t Ht. rewrite Ht in H.
  apply (owns_elem _ _ _ t H). apply list_elem_of_here.
Qed.

Lemma own_tails_frame (st st' : State) (ds : list nat) :
  (∀ x, x ∈ ds → deps st' !! x = deps st !! x) →
  (∀ l, is_Some (links st !! l) →
        l_dep <$> links st' !! l = l_dep <$> links st !! l) →
  own_tails st ds = true → own_tails st' ds = true.
Proof.
  intros Hd Hl H. unfold own_tails. apply forallb_forall. intros x Hx.
  apply list_elem_of_In in Hx.
  destruct (own_tails_elem st ds x H Hx) as (dr & Hdr & Ht).
  rewrite (Hd x Hx), Hdr.
  destruct (d_subs dr) as [t|]; [|done].
  destruct (Ht t eq_refl) as (tr' & Htr & Hdep).
  assert (Hs : is_Some (links st !! t)) by (by eexists).
  specialize (Hl t Hs). rewrite Htr in Hl. simpl in Hl.
  destruct (links st' !! t) as [r'|] eqn:Hr'; [|done].
  simpl in Hl. injection Hl as Hl.
  apply owns_singleton with (r := r'); congruence.
Qed.

Lemma wf_subs_frame (st st' : State) (y : nat) (sls : list nat) :
  d_subs <$> deps st' !! y = d_subs <$> deps st !! y →
  sub_chain (links st') None sls None = sub_chain (links st) None sls None →
  wf_subs st' y sls = wf_subs st y sls.
Proof.
  intros Hd Hc. unfold wf_subs. rewrite Hc.
  destruct (deps st !! y) as [r|], (deps st' !! y) as [r'|];
    simpl in Hd; try done.
  by injection Hd as ->.
Qed.

Lemma addSub_state_erase (l : nat) (lr : Link) (dr : Dep) (st : State) :
  erase_link <$> links (addSub_state l lr dr st) = erase_link <$> links st.
Proof.
  unfold addSub_state, attach_links. simpl.
  destruct (bool_decide (d_subs dr = Some l)); [done|].
  destruct (d_subs dr) as [t|];
    rewrite !fmap_alter_absorb; try done; by intros [].
Qed.

Lemma addSub_state_link (l y : nat) (lr : Link) (dr : Dep) (st : State) :
  y ≠ l → d_subs dr ≠ Some y →
  links (addSub_state l lr dr st) !! y = links st !! y.
Proof.
  intros Hy Ht. unfold addSub_state, attach_links. simpl.
  destruct (bool_decide (d_subs dr = Some l)); [done|].
  destruct (d_subs dr) as [t|].
  - rewrite lookup_alter_ne by congruence. by rewrite lookup_alter_ne.
  - by rewrite lookup_alter_ne.
Qed.

Lemma addSub_state_other_list (l : nat) (lr : Link) (dr : Dep) (st : State)
    (y : nat) (sls : list nat) :
  links st !! l = Some lr →
  y ≠ l_dep lr →
  (∀ t, d_subs dr = Some t →
        ∃ tr, links st !! t = Some tr ∧ l_dep tr = l_dep lr) →
  owns (links st) y sls = true →
  wf_subs (addSub_state l lr dr st) y sls = wf_subs st y sls.
Proof.
  intros Hl Hy Htail Hown. apply wf_subs_frame.
  - unfold addSub_state. simpl. by rewrite lookup_alter_ne.
  - assert (Hl_sls : l ∉ sls).
    { intros Hin. destruct (owns_elem _ _ _ _ Hown Hin) as (r & Hr & Hd).
      rewrite Hl in Hr. injection Hr as <-. done. }
    unfold addSub_state, attach_links. simpl.
    destruct (bool_decide (d_subs dr = Some l)); [done|].
    destruct (d_subs dr) as [t|].
    + destruct (Htail t eq_refl) as (tr' & Htr & Hdt).
      assert (Ht_sls : t ∉ sls).
      { intros Hin. destruct (owns_elem _ _ _ _ Hown Hin) as (r & Hr & Hd).
        rewrite Htr in Hr. injection Hr as <-. congruence. }
      by rewrite !sub_chain_alter_ne.
    + by rewrite sub_chain_alter_ne.
Qed.

Lemma addSub_state_own_list (l : nat) (lr : Link) (dr : Dep) (st : State)
    (sls : list nat) :
  links st !! l = Some lr →
  deps st !! l_dep lr = Some dr →
  l_nextSub lr = None →
  l ∉ sls →
  wf_subs st (l_dep lr) sls = true →
  wf_subs (addSub_state l lr dr st) (l_dep lr) (sls ++ [l]) = true.
Proof.
  intros Hl Hd Hnext Hnotin Hwf. unfold wf_subs in Hwf. rewrite Hd in Hwf.
  apply andb_true_iff in Hwf as [Hwf Htail].
  apply andb_true_iff in Hwf as [Hnd Hch].
  apply bool_decide_eq_true in Hnd. apply bool_decide_eq_true in Htail.
  assert (Hne : d_subs dr ≠ Some l).
  { rewrite Htail. intros H. by apply last_elem_of in H. }
  unfold wf_subs, addSub_state. simpl.
  rewrite (bool_decide_eq_false_2 _ Hne), lookup_alter_eq, Hd. simpl.
  apply andb_true_iff. split; [apply andb_true_iff; split|].
  - apply bool_decide_eq_true. apply NoDup_app. split; [done|].
    split; [|apply NoDup_singleton].
    intros x Hx Hx'. apply list_elem_of_singleton in Hx'. by subst x.
  - rewrite Htail.
    apply attach_links_chain with (p := l_prevSub lr); try done.
    apply sub_node_b_true. by exists lr.
  - apply bool_decide_eq_true. by rewrite last_snoc.
Qed.

(** The loop [for (let l = computed.deps; l !== undefined; l = l.nextDep)
    addSub(l)] over links that lead to different dependencies: every one
    becomes the tail of its dependency; and where the tails are links of
    their own dependencies, the subscriber list of each dependency gets
    its link appended and the others stay as they are. *)
Lemma addSub_loop_lists (infos : list DebuggerEventExtraInfo)
    (tr : list Event) (ls : list nat) :
  ∀ (st : State) (start : option nat) (fuel : nat),
    dep_walk (links st) start ls = true →
    (length ls ≤ fuel)%nat →
    NoDup (link_deps (links st) ls) →
    forallb (fun x => bool_decide (is_Some (deps st !! x)))
      (link_deps (links st) ls) = true →
    ∃ st',
      addSub_loop fuel start (mkWorld st infos tr)
        = Normal tt (mkWorld st' infos tr)
      ∧ erase_link <$> links st' = erase_link <$> links st
      ∧ subscribers st' = subscribers st
      ∧ (∀ x, x ∉ link_deps (links st) ls → deps st' !! x = deps st !! x)
      ∧ (∀ l lr, l ∈ ls → links st !! l = Some lr →
           ∃ dr, deps st' !! l_dep lr = Some dr ∧ d_subs dr = Some l)
      ∧ (own_tails st (link_deps (links st) ls) = true →
         (∀ y, y ∉ ls →
            (∀ x dr, x ∈ link_deps (links st) ls →
                     deps st !! x = Some dr → d_subs dr ≠ Some y) →
            links st' !! y = links st !! y)
         ∧ (∀ y sls, y ∉ link_deps (links st) ls →
              owns (links st) y sls = true →
              wf_subs st y sls = true → wf_subs st' y sls = true)
         ∧ (∀ l lr sls, l ∈ ls → links st !! l = Some lr →
              l_nextSub lr = None → l ∉ sls →
              owns (links st) (l_dep lr) sls = true →
              wf_subs st (l_dep lr) sls = true →
              wf_subs st' (l_dep lr) (sls ++ [l]) = true)).
Proof.
  induction ls as [|l ls IH]; intros st start fuel Hw Hf Hnd Hal.
  - simpl in Hw. apply bool_decide_eq_true in Hw. subst start.
    exists st. split; [by destruct fuel|].
    split; [done|]. split; [done|]. split; [done|].
    split; [intros l lr Hin; by apply elem_of_nil in Hin|].
    intros _. split; [done|]. split; [done|].
    intros l lr sls Hin. by apply elem_of_nil in Hin.
  - simpl in Hw. apply andb_true_iff in Hw as [Hs Hw].
    apply bool_decide_eq_true in Hs. subst start.
    destruct (links st !! l) as [lr|] eqn:Hl; [|done].
    destruct fuel as [|fuel]; [simpl in Hf; lia|].
    simpl in Hal, Hnd. rewrite Hl in Hal, Hnd. simpl in Hal.
    apply andb_true_iff in Hal as [Hd Hal].
    apply bool_decide_eq_true in Hd. destruct Hd as [dr Hd].
    apply NoDup_cons in Hnd as [Hnotin Hnd].
    pose proof (addSub_run st infos tr l lr dr Hl Hd) as Hadd.
    fold (addSub_state l lr dr st) in Hadd.
    pose proof (addSub_state_erase l lr dr st) as He1.
    assert (Hd1 : ∀ x, x ≠ l_dep lr →
              deps (addSub_state l lr dr st) !! x = deps st !! x).
    { intros x Hx. unfold addSub_state. simpl. by rewrite lookup_alter_ne. }
    destruct (erase_link_lookup _ _ l lr He1 Hl) as (r1 & Hr1 & Her1).
    apply erase_link_fields in Her1 as [Hdep1 Hnext1].
    destruct (IH (addSub_state l lr dr st) (l_nextDep lr) fuel)
      as (st2 & Hloop & He2 & Hs2 & Hfr2 & Hat2 & Hlists).
    { by rewrite (dep_walk_erase _ _ _ _ He1). }
    { simpl in Hf. lia. }
    { by rewrite (link_deps_erase _ _ _ He1). }
    { rewrite (link_deps_erase _ _ _ He1).
      apply forallb_forall. intros x Hx.
      rewrite forallb_forall in Hal. specialize (Hal x Hx).
      apply bool_decide_eq_true in Hal. apply bool_decide_eq_true.
      rewrite Hd1; [done|]. intros ->. apply Hnotin.
      by apply list_elem_of_In. }
    rewrite (link_deps_erase _ _ _ He1) in Hfr2, Hlists.
    exists st2. rewrite addSub_loop_step, Hadd. cbv beta iota. cbn [heap].
    rewrite Hr1, Hnext1.
    split; [done|].
    split; [by rewrite He2|].
    split; [by rewrite Hs2|].
    simpl. rewrite Hl.
    split; [|split].
    + intros x Hx. apply not_elem_of_cons in Hx as [Hx1 Hx2].
      rewrite Hfr2 by done. by apply Hd1.
    + intros l0 lr0 Hin Hl0.
      apply elem_of_cons in Hin as [->|Hin].
      * rewrite Hl in Hl0. injection Hl0 as <-.
        rewrite Hfr2 by done. unfold addSub_state. simpl.
        rewrite lookup_alter_eq, Hd. simpl. by eexists.
      * destruct (erase_link_lookup _ _ l0 lr0 He1 Hl0) as (r0 & Hr0 & Her0).
        apply erase_link_fields in Her0 as [Hdep0 _].
        rewrite <- Hdep0. by apply (Hat2 l0 r0).
    + intros Hown. rewrite own_tails_cons in Hown.
      apply andb_true_iff in Hown as [Hown_l Hown_rest].
      rewrite Hd in Hown_l.
      assert (Htail : ∀ t, d_subs dr = Some t →
                ∃ tr, links st !! t = Some tr ∧ l_dep tr = l_dep lr).
      { intros t Ht. rewrite Ht in Hown_l.
        apply (owns_elem _ _ _ t Hown_l). apply list_elem_of_here. }
      assert (Hldep : ∀ y,
                l_dep <$> links (addSub_state l lr dr st) !! y
                = l_dep <$> links st !! y)
        by (intros y; by apply erase_link_dep).
      destruct Hlists as (HF & HK & HW).
      { apply own_tails_frame with (st := st); [| |done].
        - intros x Hx. apply Hd1. intros ->. done.
        - intros y _. apply Hldep. }
      assert (Hrest_ne : ∀ l0 lr0, l0 ∈ ls → links st !! l0 = Some lr0 →
                l_dep lr0 ≠ l_dep lr ∧ l0 ≠ l ∧ d_subs dr ≠ Some l0).
      { intros l0 lr0 Hin Hl0.
        assert (Hne : l_dep lr0 ≠ l_dep lr).
        { intros Heq. apply Hnotin. rewrite <- Heq.
          by eapply link_deps_elem. }
        split; [done|]. split.
        - intros ->. rewrite Hl in Hl0. by injection Hl0 as <-.
        - intros Ht. destruct (Htail l0 Ht) as (tr' & Htr & Hdt).
          rewrite Hl0 in Htr. injection Htr as <-. done. }
      split; [|split].
      * intros y Hy Hnt. apply not_elem_of_cons in Hy as [Hy1 Hy2].
        rewrite HF; [| done |].
        -- apply addSub_state_link; [done|].
           apply (Hnt (l_dep lr) dr); [apply list_elem_of_here|done].
        -- intros x dr' Hx Hdr'. rewrite Hd1 in Hdr'.
           ++ apply (Hnt x dr'); [by apply list_elem_of_further|done].
           ++ intros ->. done.
      * intros y sls Hy Hown Hwf. apply not_elem_of_cons in Hy as [Hy1 Hy2].
        apply HK; [done| |].
        -- rewrite <- Hown. apply owns_frame. intros l0 _. apply Hldep.
        -- by rewrite addSub_state_other_list.
      * intros l0 lr0 sls Hin Hl0 Hnx Hnsls Hown Hwf.
        apply elem_of_cons in Hin as [->|Hin].
        -- rewrite Hl in Hl0. injection Hl0 as <-.
           apply HK; [done| |].
           ++ rewrite owns_app. apply andb_true_iff. split.
              ** rewrite <- Hown. apply owns_frame. intros l0 _. apply Hldep.
              ** by apply owns_singleton with (r := r1).
           ++ by apply addSub_state_own_list.
        -- destruct (Hrest_ne l0 lr0 Hin Hl0) as (Hne & Hl0l & Hl0t).
           apply HW; try done.
           ++ by rewrite addSub_state_link.
           ++ rewrite <- Hown. apply owns_frame. intros l1 _. apply Hldep.
           ++ by rewrite addSub_state_other_list.
Qed.

Lemma append_dep_lookup_dep (tl : option nat) (L y : nat) (r : Link)
    (lk : gmap nat Link) :
  y ≠ L →
  l_dep <$> append_dep tl L (<[L:=r]> lk) !! y = l_dep <$> lk !! y.
Proof.
  intros Hy. unfold append_dep. destruct tl as [t|].
  - rewrite <- !lookup_fmap.
    rewrite fmap_alter_absorb by (by intros []).
    by rewrite !lookup_fmap, lookup_insert_ne.
  - by rewrite lookup_insert_ne.
Qed.

Lemma append_dep_lookup_new (tl : option nat) (L : nat) (r : Link)
    (lk : gmap nat Link) :
  ∃ r', append_dep tl L (<[L:=r]> lk) !! L = Some r'
        ∧ l_dep r' = l_dep r ∧ l_nextSub r' = l_nextSub r.
Proof.
  unfold append_dep. destruct tl as [t|].
  - destruct (decide (t = L)) as [->|Hne].
    + rewrite lookup_alter_eq, lookup_insert_eq. by eexists.
    + rewrite lookup_alter_ne by done. rewrite lookup_insert_eq. by eexists.
  - rewrite lookup_insert_eq. by eexists.
Qed.

Lemma insert_sub_chain (tl : option nat) (L : nat) (r : Link)
    (lk : gmap nat Link) (sls : list nat) :
  L ∉ sls →
  sub_chain (match tl with
             | Some t => alter (with_nextDep (Some L)) t (<[L:=r]> lk)
             | None => <[L:=r]> lk
             end) None sls None
  = sub_chain lk None sls None.
Proof.
  intros HL. destruct tl as [t|].
  - rewrite sub_chain_alter_inert by (by intros []).
    by rewrite sub_chain_insert_ne.
  - by rewrite sub_chain_insert_ne.
Qed.

(** The lazy subscription itself: the loop over the computed's links, then
    [addSub] of the new link [L] of dependency [d]. *)
Lemma lazy_subscribe_lists (infos : list DebuggerEventExtraInfo)
    (tr : list Event) (fuel d a L : nat) (v : Z) (tl start : option nat)
    (ls : list nat) (st S1 : State) (dp : Dep) :
  dep_walk (links st) start ls = true →
  attachable st d ls = true →
  (length ls ≤ fuel)%nat →
  deps st !! d = Some dp →
  d_subs dp = None →
  links st !! L = None →
  match tl with Some t => t ∉ ls | None => True end →
  links S1
  = append_dep tl L (<[L := mkLink d a v None tl None None None]> (links st)) →
  deps S1 = alter (with_activeLink (Some L)) d (deps st) →
  ∃ st2 st3 dp',
    addSub_loop fuel start (mkWorld S1 infos tr)
      = Normal tt (mkWorld st2 infos tr)
    ∧ addSub L (mkWorld st2 infos tr) = Normal tt (mkWorld st3 infos tr)
    ∧ subscribers st3 = subscribers S1
    ∧ deps st3 !! d = Some dp'
    ∧ d_subs dp' = Some L
    ∧ (∀ l lr, l ∈ ls → links st !! l = Some lr →
         ∃ dr, deps st3 !! l_dep lr = Some dr ∧ d_subs dr = Some l)
    ∧ (own_tails st (link_deps (links st) ls) = true →
       wf_subs st3 d [L] = true
       ∧ ∀ l lr sls, l ∈ ls → links st !! l = Some lr →
           l_nextSub lr = None → l ∉ sls →
           owns (links st) (l_dep lr) sls = true →
           wf_subs st (l_dep lr) sls = true →
           wf_subs st3 (l_dep lr) (sls ++ [l]) = true).
Proof.
  intros Hwalk Hatt Hfuel Hd Hsubs HL Htl Hlinks1 Hdeps1.
  unfold attachable in Hatt. apply andb_true_iff in Hatt as [Hnd Hall].
  apply bool_decide_eq_true in Hnd. apply NoDup_cons in Hnd as [Hd_notin Hnd].
  assert (Hwalk_alloc := dep_walk_allocated _ _ _ Hwalk).
  assert (Halloc_ne : ∀ y, is_Some (links st !! y) → y ≠ L).
  { intros y [r Hr] ->. by rewrite HL in Hr. }
  assert (Hframe : ∀ x, x ∈ ls → links S1 !! x = links st !! x).
  { intros x Hx. rewrite Hlinks1. unfold append_dep.
    assert (x ≠ L) by (by apply Halloc_ne, Hwalk_alloc).
    destruct tl as [t|].
    - rewrite lookup_alter_ne by (intros ->; done).
      by rewrite lookup_insert_ne.
    - by rewrite lookup_insert_ne. }
  assert (Hldep1 : ∀ y, is_Some (links st !! y) →
            l_dep <$> links S1 !! y = l_dep <$> links st !! y).
  { intros y Hy. rewrite Hlinks1. apply append_dep_lookup_dep.
    by apply Halloc_ne. }
  assert (Hdeps_ne : ∀ x, x ≠ d → deps S1 !! x = deps st !! x).
  { intros x Hx. rewrite Hdeps1. by rewrite lookup_alter_ne. }
  assert (HD_ne : ∀ x, x ∈ link_deps (links st) ls → x ≠ d).
  { intros x Hx ->. done. }
  destruct (append_dep_lookup_new tl L
              (mkLink d a v None tl None None None) (links st))
    as (rL & HrL & HrLd & HrLn).
  rewrite <- Hlinks1 in HrL. simpl in HrLd, HrLn.
  destruct (addSub_loop_lists infos tr ls S1 start fuel)
    as (st2 & Hloop & He2 & Hs2 & Hfr2 & Hat2 & Hlists).
  { by rewrite (dep_walk_frame _ _ _ _ Hframe). }
  { done. }
  { by rewrite (link_deps_frame _ _ _ Hframe). }
  { rewrite (link_deps_frame _ _ _ Hframe), Hdeps1.
    apply forallb_forall. intros x Hx.
    rewrite forallb_forall in Hall. specialize (Hall x Hx).
    apply bool_decide_eq_true in Hall. apply bool_decide_eq_true.
    destruct (decide (d = x)) as [<-|Hne].
    - rewrite lookup_alter_eq, Hd. by eexists.
    - by rewrite lookup_alter_ne. }
  rewrite (link_deps_frame _ _ _ Hframe) in Hfr2, Hlists.
  destruct (erase_link_lookup _ _ L rL He2 HrL) as (r2 & Hr2 & Her2).
  apply erase_link_fields in Her2 as [Hdep2 _].
  assert (Hd2 : deps st2 !! d = Some (with_activeLink (Some L) dp)).
  { rewrite Hfr2 by done. by rewrite Hdeps1, lookup_alter_eq, Hd. }
  assert (Hd2' : deps st2 !! l_dep r2 = Some (with_activeLink (Some L) dp))
    by (by rewrite Hdep2, HrLd).
  pose proof (addSub_run st2 infos tr L r2 _ Hr2 Hd2') as Hadd.
  fold (addSub_state L r2 (with_activeLink (Some L) dp) st2) in Hadd.
  exists st2, (addSub_state L r2 (with_activeLink (Some L) dp) st2),
    (with_subs (Some L) (with_activeLink (Some L) dp)).
  split; [done|]. split; [done|].
  split; [by rewrite <- Hs2|].
  split.
  { unfold addSub_state. simpl. rewrite Hdep2, HrLd.
    by rewrite lookup_alter_eq, Hd2. }
  split; [done|].
  assert (Hne_d : ∀ l lr, l ∈ ls → links st !! l = Some lr → l_dep lr ≠ d).
  { intros l lr Hin Hl. apply HD_ne. by eapply link_deps_elem. }
  split.
  { intros l lr Hin Hl.
    unfold addSub_state. simpl. rewrite Hdep2, HrLd.
    rewrite lookup_alter_ne by (intros Heq; by apply (Hne_d l lr Hin Hl)).
    apply (Hat2 l lr Hin). by rewrite Hframe. }
  intros Hown.
  destruct Hlists as (HF & HK & HW).
  { apply own_tails_frame with (st := st); [|done|done].
    intros x Hx. apply Hdeps_ne. by apply HD_ne. }
  assert (Hr2L : r2 = rL).
  { assert (H2 : links st2 !! L = links S1 !! L).
    { apply HF.
      - intros Hin. by apply (Halloc_ne L (Hwalk_alloc L Hin)).
      - intros x dr Hx Hdr Ht. rewrite Hdeps_ne in Hdr by (by apply HD_ne).
        destruct (own_tails_elem st _ x Hown Hx) as (dr' & Hdr' & Htail).
        rewrite Hdr in Hdr'. injection Hdr' as <-.
        destruct (Htail L Ht) as (tr' & Htr & _). by rewrite HL in Htr. }
    rewrite Hr2, HrL in H2. by injection H2. }
  subst r2.
  split.
  - rewrite <- HrLd.
    apply (addSub_state_own_list L rL (with_activeLink (Some L) dp) st2 []);
      try done.
    + apply not_elem_of_nil.
    + unfold wf_subs. rewrite Hd2'. simpl. rewrite Hsubs. done.
  - intros l lr sls Hin Hl Hnx Hnsls Hown_sls Hwf.
    assert (HL_sls : L ∉ sls).
    { intros HinL. destruct (owns_elem _ _ _ _ Hown_sls HinL) as (r & Hr & _).
      by rewrite HL in Hr. }
    assert (Hown1 : owns (links S1) (l_dep lr) sls = true).
    { rewrite <- Hown_sls. apply owns_frame. intros l0 Hl0.
      apply Hldep1.
      destruct (owns_elem _ _ _ _ Hown_sls Hl0) as (r & Hr & _). by eexists. }
    assert (Hwf2 : wf_subs st2 (l_dep lr) (sls ++ [l]) = true).
    { apply HW; try done.
      - by rewrite Hframe.
      - rewrite <- Hwf. apply wf_subs_frame.
        + rewrite Hdeps_ne; [done|]. by apply (Hne_d l lr).
        + rewrite Hlinks1. unfold append_dep.
          by apply (insert_sub_chain tl L _ (links st) sls). }
    rewrite <- Hwf2. apply addSub_state_other_list; try done.
    + rewrite HrLd. intros Heq. by apply (Hne_d l lr Hin Hl).
    + intros t Ht. simpl in Ht. by rewrite Hsubs in Ht.
    + rewrite owns_app. apply andb_true_iff. split.
      * rewrite <- Hown1. apply owns_frame. intros l0 _.
        by apply erase_link_dep.
      * destruct (erase_link_lookup _ _ l lr He2) as (r & Hr & Her).
        { by rewrite Hframe. }
        apply erase_link_fields in Her as [Hrd _].
        by apply owns_singleton with (r := r).
Qed.


(** *** [Dep.track]: a new link *)

Lemma Dep_track_new_link_run
    (fuel d : nat) (debugInfo : option DebuggerEventExtraInfo)
    (st : State) (infos : list DebuggerEventExtraInfo) (tr : list Event)
    (a : nat) (sa : Subscriber) (dp : Dep) :
  activeSub st = Some a →
  shouldTrack st = true →
  subscribers st !! a = Some sa →
  deps st !! d = Some dp →
  no_link_of st dp a = true →
  promotes sa dp = false →
  s_deps sa ≠ Some (fresh (dom (links st))) →
  ∃ st',
    Dep_track fuel d debugInfo (mkWorld st infos tr)
    = Normal (Some (fresh (dom (links st))))
        (mkWorld st' infos (tr ++ dev_onTrack_events sa a debugInfo))
    ∧ links st' =
        (if truthy (Z.land (s_flags sa) TRACKING)
         then if bool_decide (d_subs dp = Some (fresh (dom (links st))))
              then fun m => m
              else attach_links (d_subs dp) (fresh (dom (links st)))
         else fun m => m)
          (append_dep (s_deps sa) (fresh (dom (links st)))
             (<[fresh (dom (links st)) :=
                  mkLink d a (d_version dp) None (s_deps sa) None None None]>
                (links st)))
    ∧ deps st' =
        (if truthy (Z.land (s_flags sa) TRACKING)
         then alter (with_subs (Some (fresh (dom (links st))))) d
         else fun m => m)
          (alter (with_activeLink (Some (fresh (dom (links st))))) d (deps st))
    ∧ subscribers st' =
        alter (with_deps (Some (fresh (dom (links st))))) a (subscribers st)
    ∧ targetMap st' = targetMap st
    ∧ globalVersion st' = globalVersion st
    ∧ activeSub st' = activeSub st
    ∧ shouldTrack st' = shouldTrack st.
Proof.
  intros Ha Ht Hsa Hd Hno Hpro Hfresh.
  unfold no_link_of in Hno. unfold promotes in Hpro.
  unfold Dep_track. unfold_M.
  pose proof addSub_run as Hrun. revert Hrun. generalize addSub.
  intros AS Hrun.
  assert (HL : links st !! fresh (dom (links st)) = None).
  { apply not_elem_of_dom. apply is_fresh. }
  unfold dev_onTrack_events.
  destruct (d_activeLink dp) as [l0|] eqn:Hal;
    [destruct (links st !! l0) as [lr0|] eqn:Hl0; [|done];
     apply negb_true_iff, bool_decide_eq_false in Hno|];
    repeat (progress (simpl;
      rewrite ?Ha, ?Ht, ?Hd, ?Hal, ?Hl0, ?Hsa, ?lookup_alter_eq,
        ?bool_decide_eq_false_2 by done));
    (destruct (s_deps sa) as [t|] eqn:Hsd; unfold modify;
     repeat (progress (simpl; rewrite ?Hsa, ?lookup_alter_eq, ?Hd)));
    (destruct (truthy (Z.land (s_flags sa) TRACKING)) eqn:Hfl;
     repeat (progress (simpl; rewrite ?Hsa, ?lookup_alter_eq, ?Hd)));
    try (destruct (__DEV__ && bool_decide (is_Some (s_onTrack sa))); simpl;
         rewrite ?app_nil_r; eexists; (split; [reflexivity|]); done).
  all: simpl in Hpro.
  all: assert (Hplain :
         match d_computed dp with
         | Some _ => match d_subs dp with Some _ => True | None => False end
         | None => True
         end)
         by (destruct (d_computed dp), (d_subs dp); simpl in Hpro; done).
  all: destruct (d_computed dp) as [c|]; [destruct (d_subs dp) as [ts|] eqn:Hds;
                                           [|done]|].
  all: erewrite Hrun;
         [| simpl; rewrite ?lookup_alter_ne by congruence;
            rewrite lookup_insert_eq; reflexivity
          | simpl; rewrite lookup_alter_eq, Hd; reflexivity ].
  all: simpl; rewrite lookup_alter_eq, Hsa; simpl.
  all: destruct (__DEV__ && bool_decide (is_Some (s_onTrack sa))); simpl;
       rewrite ?app_nil_r; eexists; (split; [reflexivity|]).
  all: simpl; rewrite ?Hds; done.
Qed.

Lemma append_dep_chain lk (ls : list nat) (l : nat) (r : Link) :
  NoDup ls →
  l ∉ ls →
  dep_chain lk None ls None = true →
  l_prevDep r = last ls →
  l_nextDep r = None →
  dep_chain (append_dep (last ls) l (<[l:=r]> lk)) None (ls ++ [l]) None
  = true.
Proof.
  intros Hnd Hnotin Hch Hp Hn.
  rewrite dep_chain_app. simpl. rewrite andb_true_r.
  assert (Hnode : node_b (<[l:=r]> lk) l (last ls) None = true).
  { apply node_b_true. exists r. by rewrite lookup_insert_eq. }
  unfold append_dep.
  destruct (last ls) as [t|] eqn:Hlast.
  - pose proof Hlast as Hsplit. apply last_Some in Hsplit as [l0 ->].
    assert (Htl : t ≠ l).
    { intros ->. apply Hnotin. apply elem_of_app. right.
      apply list_elem_of_here. }
    apply andb_true_iff. split.
    + apply dep_chain_set_next with (nxt := None).
      { apply NoDup_app in Hnd as (_ & H & _). intros Hin.
        apply (H t Hin). apply list_elem_of_here. }
      by rewrite dep_chain_insert_ne.
    + unfold last_or. rewrite Hlast. by rewrite node_b_alter_ne.
  - apply last_None in Hlast. subst ls. done.
Qed.

Lemma append_dep_sub_chain lk (tail : option nat) (l : nat) prev xs nxt :
  sub_chain (append_dep tail l lk) prev xs nxt = sub_chain lk prev xs nxt.
Proof.
  unfold append_dep. destruct tail as [t|]; [|done].
  apply sub_chain_alter_inert. by intros [].
Qed.

Lemma Dep_track_new_link_lists
    (fuel d : nat) (debugInfo : option DebuggerEventExtraInfo) (w : World)
    (a : nat) (sa : Subscriber) (dp : Dep) (ls sls : list nat) :
  activeSub (heap w) = Some a →
  shouldTrack (heap w) = true →
  subscribers (heap w) !! a = Some sa →
  deps (heap w) !! d = Some dp →
  no_link_of (heap w) dp a = true →
  promotes sa dp = false →
  wf_deps (heap w) a ls = true →
  wf_subs (heap w) d sls = true →
  ∃ w' lr',
    Dep_track fuel d debugInfo w
      = Normal (Some (fresh (dom (links (heap w))))) w'
    ∧ links (heap w') !! fresh (dom (links (heap w))) = Some lr'
    ∧ l_dep lr' = d ∧ l_sub lr' = a ∧ l_version lr' = d_version dp
    ∧ d_activeLink <$> deps (heap w') !! d
      = Some (Some (fresh (dom (links (heap w)))))
    ∧ wf_deps (heap w') a (ls ++ [fresh (dom (links (heap w)))]) = true
    ∧ wf_subs (heap w') d
        (if truthy (Z.land (s_flags sa) TRACKING)
         then sls ++ [fresh (dom (links (heap w)))] else sls) = true
    ∧ trace w' = trace w ++ dev_onTrack_events sa a debugInfo
    ∧ triggerEventInfos w' = triggerEventInfos w
    ∧ targetMap (heap w') = targetMap (heap w)
    ∧ globalVersion (heap w') = globalVersion (heap w)
    ∧ (∀ x, x ≠ d → deps (heap w') !! x = deps (heap w) !! x)
    ∧ activeSub (heap w') = activeSub (heap w)
    ∧ shouldTrack (heap w') = shouldTrack (heap w)
    ∧ subscribers (heap w')
      = alter (with_deps (Some (fresh (dom (links (heap w)))))) a
          (subscribers (heap w)).
Proof.
  intros Ha Ht Hsa Hd Hno Hpro Hwfd Hwfs.
  destruct w as [st infos tr]. simpl in Ha, Ht, Hsa, Hd, Hno, Hwfd, Hwfs |- *.
  unfold wf_deps in Hwfd. rewrite Hsa in Hwfd.
  apply andb_true_iff in Hwfd as [Hwfd Hdtail].
  apply andb_true_iff in Hwfd as [Hdnd Hdch].
  apply bool_decide_eq_true in Hdnd. apply bool_decide_eq_true in Hdtail.
  unfold wf_subs in Hwfs. rewrite Hd in Hwfs.
  apply andb_true_iff in Hwfs as [Hwfs Hstail].
  apply andb_true_iff in Hwfs as [Hsnd Hsch].
  apply bool_decide_eq_true in Hsnd. apply bool_decide_eq_true in Hstail.
  assert (HL : links st !! fresh (dom (links st)) = None).
  { apply not_elem_of_dom. apply is_fresh. }
  assert (HLd : fresh (dom (links st)) ∉ ls).
  { intros H. apply (dep_chain_allocated _ _ _ _ Hdch) in H.
    rewrite HL in H. by destruct H. }
  assert (HLs : fresh (dom (links st)) ∉ sls).
  { intros H. apply (sub_chain_allocated _ _ _ _ Hsch) in H.
    rewrite HL in H. by destruct H. }
  assert (Hta : s_deps sa ≠ Some (fresh (dom (links st)))).
  { rewrite Hdtail. intros H. by apply last_elem_of in H. }
  assert (Hts : d_subs dp ≠ Some (fresh (dom (links st)))).
  { rewrite Hstail. intros H. by apply last_elem_of in H. }
  destruct (Dep_track_new_link_run fuel d debugInfo st infos tr a sa dp)
    as (st' & Hrun & Hlk & Hdeps & Hsubs & Htm & Hgv & Has & Hst); try done.
  rewrite (bool_decide_eq_false_2 _ Hts) in Hlk.
  set (new := mkLink d a (d_version dp) None (s_deps sa) None None None) in *.
  set (L := fresh (dom (links st))) in *.
  assert (Hproj : ∃ lr', links st' !! L = Some lr'
            ∧ l_dep lr' = d ∧ l_sub lr' = a ∧ l_version lr' = d_version dp).
  { set (pr := fun r : Link => (l_dep r, l_sub r, l_version r)).
    assert (H : (pr <$> links st') !! L = Some (pr new)).
    { rewrite Hlk. unfold attach_links, append_dep.
      destruct (truthy _), (d_subs dp), (s_deps sa);
        rewrite ?fmap_alter_absorb by (by intros []);
        by rewrite lookup_fmap, lookup_insert_eq. }
    rewrite lookup_fmap in H. destruct (links st' !! L) as [lr'|]; [|done].
    exists lr'. split; [done|]. simpl in H. injection H as H1 H2 H3. done. }
  destruct Hproj as (lr' & HlrL & ? & ? & ?).
  exists (mkWorld st' infos (tr ++ dev_onTrack_events sa a debugInfo)), lr'.
  split; [done|]. simpl.
  split; [done|]. split; [done|]. split; [done|]. split; [done|].
  split.
  { rewrite Hdeps. destruct (truthy _);
      rewrite ?lookup_alter_eq, Hd; done. }
  assert (Hsubch : sub_chain
            (append_dep (s_deps sa) L (<[L:=new]> (links st))) None sls None
          = true).
  { rewrite append_dep_sub_chain. by rewrite sub_chain_insert_ne. }
  split; [|split; [|split; [done|split; [done|split; [done|split; [done|
    split; [|done]]]]]]].
  3: { intros x Hx. rewrite Hdeps. destruct (truthy _);
       by rewrite ?lookup_alter_ne by done. }
  - unfold wf_deps. rewrite Hsubs, lookup_alter_eq, Hsa. simpl.
    apply andb_true_iff. split; [apply andb_true_iff; split|].
    + apply bool_decide_eq_true. apply NoDup_app. split; [done|].
      split; [|apply NoDup_singleton].
      intros x Hx Hx'. apply list_elem_of_singleton in Hx'. by subst x.
    + rewrite Hlk.
      assert (Hbase : dep_chain
                (append_dep (s_deps sa) L (<[L:=new]> (links st)))
                None (ls ++ [L]) None = true).
      { rewrite Hdtail. apply append_dep_chain; try done. }
      destruct (truthy _); [|done]. by rewrite attach_links_dep_chain.
    + apply bool_decide_eq_true. by rewrite last_snoc.
  - unfold wf_subs. rewrite Hdeps, Hlk.
    destruct (truthy (Z.land (s_flags sa) TRACKING)).
    + rewrite !lookup_alter_eq, Hd. simpl.
      apply andb_true_iff. split; [apply andb_true_iff; split|].
      * apply bool_decide_eq_true. apply NoDup_app. split; [done|].
        split; [|apply NoDup_singleton].
        intros x Hx Hx'. apply list_elem_of_singleton in Hx'. by subst x.
      * rewrite Hstail.
        apply attach_links_chain with (p := None); try done.
        unfold append_dep. destruct (s_deps sa) as [t|].
        -- rewrite sub_node_b_alter_inert by (by intros []).
           apply sub_node_b_true. exists new. by rewrite lookup_insert_eq.
        -- apply sub_node_b_true. exists new. by rewrite lookup_insert_eq.
      * apply bool_decide_eq_true. by rewrite last_snoc.
    + rewrite lookup_alter_eq, Hd. simpl.
      rewrite Hsubch. rewrite !bool_decide_eq_true_2; done.
Qed.

(** X5. A first read: when the active subscriber [a] has no link cached on
    dependency [d] and no lazy subscription is due, [Dep.track] makes one
    new link from [d] to [a] at the dependency's version, caches it as
    [d.activeLink] and appends it to [a]'s dependency list, which stays
    well-formed; it is appended to [d]'s subscriber list as well exactly
    when [a] is in TRACKING state, and that list stays well-formed too. *)
Theorem Dep_track_new_link_joins_both_lists
    (fuel d : nat) (debugInfo : option DebuggerEventExtraInfo) (w : World)
    (a : nat) (sa : Subscriber) (dp : Dep) (ls sls : list nat) :
  activeSub (heap w) = Some a →
  shouldTrack (heap w) = true →
  subscribers (heap w) !! a = Some sa →
  deps (heap w) !! d = Some dp →
  no_link_of (heap w) dp a = true →
  promotes sa dp = false →
  wf_deps (heap w) a ls = true →
  wf_subs (heap w) d sls = true →
  ∃ w' lr',
    Dep_track fuel d debugInfo w
      = Normal (Some (fresh (dom (links (heap w))))) w'
    ∧ links (heap w') !! fresh (dom (links (heap w))) = Some lr'
    ∧ l_dep lr' = d ∧ l_sub lr' = a ∧ l_version lr' = d_version dp
    ∧ d_activeLink <$> deps (heap w') !! d
      = Some (Some (fresh (dom (links (heap w)))))
    ∧ wf_deps (heap w') a (ls ++ [fresh (dom (links (heap w)))]) = true
    ∧ wf_subs (heap w') d
        (if truthy (Z.land (s_flags sa) TRACKING)
         then sls ++ [fresh (dom (links (heap w)))] else sls) = true
    ∧ trace w' = trace w ++ dev_onTrack_events sa a debugInfo.
Proof.
  intros Ha Ht Hsa Hd Hno Hpro Hwfd Hwfs.
  destruct (Dep_track_new_link_lists fuel d debugInfo w a sa dp ls sls)
    as (w' & lr' & H); try done.
  destruct H as (H1 & H2 & H3 & H4 & H5 & H6 & H7 & H8 & H9 & _).
  by exists w', lr'.
Qed.

Lemma track_first_read_run
    (fuel : nat) (target : Target) (type : TrackOpTypes) (key : Key)
    (w : World) (a : nat) (sa : Subscriber) (ls : list nat) :
  activeSub (heap w) = Some a →
  shouldTrack (heap w) = true →
  subscribers (heap w) !! a = Some sa →
  wf_deps (heap w) a ls = true →
  getDepFromReactive target key (heap w) = None →
  ∃ w' dr lr,
    track fuel target type key w = Normal tt w'
    ∧ getDepFromReactive target key (heap w')
      = Some (fresh (dom (deps (heap w))))
    ∧ (∀ t k, target_id t ≠ target_id target ∨ k ≠ key →
         getDepFromReactive t k (heap w') = getDepFromReactive t k (heap w))
    ∧ deps (heap w') !! fresh (dom (deps (heap w))) = Some dr
    ∧ d_version dr = 0 ∧ d_computed dr = None
    ∧ d_activeLink dr = Some (fresh (dom (links (heap w))))
    ∧ (∀ x r, deps (heap w) !! x = Some r → deps (heap w') !! x = Some r)
    ∧ links (heap w') !! fresh (dom (links (heap w))) = Some lr
    ∧ l_dep lr = fresh (dom (deps (heap w))) ∧ l_sub lr = a
    ∧ wf_deps (heap w') a (ls ++ [fresh (dom (links (heap w)))]) = true
    ∧ wf_subs (heap w') (fresh (dom (deps (heap w))))
        (if truthy (Z.land (s_flags sa) TRACKING)
         then [fresh (dom (links (heap w)))] else []) = true
    ∧ globalVersion (heap w') = globalVersion (heap w)
    ∧ targetMap (heap w') !! target_id target
      = Some (Map_set key (fresh (dom (deps (heap w))))
                (default [] (targetMap (heap w) !! target_id target)))
    ∧ activeSub (heap w') = activeSub (heap w)
    ∧ shouldTrack (heap w') = shouldTrack (heap w)
    ∧ subscribers (heap w')
      = alter (with_deps (Some (fresh (dom (links (heap w)))))) a
          (subscribers (heap w))
    ∧ l_version lr = 0
    ∧ triggerEventInfos w' = triggerEventInfos w
    ∧ trace w'
      = trace w ++ dev_onTrack_events sa a
                     (if __DEV__ then Some (TrackInfo target type key)
                      else None).
Proof.
  intros Ha Ht Hsa Hwf Hreg.
  destruct w as [st infos tr]. simpl in Ha, Ht, Hsa, Hwf, Hreg |- *.
  assert (HD : deps st !! fresh (dom (deps st)) = None).
  { apply not_elem_of_dom. apply is_fresh. }
  set (D := fresh (dom (deps st))) in *.
  set (dp := mkDep 0 None None None).
  set (tm1 := match targetMap st !! target_id target with
              | Some _ => targetMap st
              | None => <[target_id target := []]> (targetMap st)
              end).
  set (st1 := set_targetMap
                (fun _ => alter (Map_set key D) (target_id target) tm1)
                (set_deps (insert D dp) st)).
  assert (Hstep : track fuel target type key (mkWorld st infos tr)
          = (Dep_track fuel D
               (if __DEV__ then Some (TrackInfo target type key) else None);;
             ret tt) (mkWorld st1 infos tr)).
  { unfold track, getDepFromReactive in *. unfold_M. simpl.
    rewrite Ha, Ht. simpl. subst st1 tm1.
    destruct (targetMap st !! target_id target) as [m|] eqn:Hm; simpl.
    - rewrite Hreg. simpl. done.
    - simpl. done. }
  destruct (Dep_track_new_link_lists fuel D
              (if __DEV__ then Some (TrackInfo target type key) else None)
              (mkWorld st1 infos tr) a sa dp ls [])
    as (w' & lr & Hrun & HlrL & Hld & Hls & Hlv & Hal & Hwfd & Hwfs & Htr
        & Hinf & Htm & Hgv & Hother & Has & Hst & Hsubs); try done.
  { simpl. by rewrite lookup_insert_eq. }
  { unfold promotes. by destruct (truthy (Z.land (s_flags sa) TRACKING)). }
  { unfold wf_subs. simpl. by rewrite lookup_insert_eq. }
  simpl in Hrun, HlrL, Hal, Hwfd, Hwfs, Htm, Hgv, Hother.
  destruct (deps (heap w') !! D) as [dr|] eqn:Hdr; [|done].
  assert (Hver : d_version dr = 0 ∧ d_computed dr = None).
  { pose proof (keeps_Dep_track fuel D
      (if __DEV__ then Some (TrackInfo target type key) else None)
      (mkWorld st1 infos tr)) as Hk.
    rewrite Hrun in Hk. simpl in Hk.
    destruct Hk as (_ & _ & _ & Hk & _).
    destruct (Hk D dp) as (r' & Hr' & ? & ?).
    { simpl. by rewrite lookup_insert_eq. }
    rewrite Hdr in Hr'. by injection Hr' as <-. }
  exists w', dr, lr.
  split.
  { rewrite Hstep. unfold bind at 1. rewrite Hrun. done. }
  assert (Htm1 : ∃ m, tm1 !! target_id target = Some m
                 ∧ (∀ k, Map_get k m = getDepFromReactive target k st)
                 ∧ ∀ t, t ≠ target_id target → tm1 !! t = targetMap st !! t).
  { subst tm1. unfold getDepFromReactive.
    destruct (targetMap st !! target_id target) as [m|] eqn:Hm.
    - exists m. by rewrite Hm.
    - exists []. rewrite lookup_insert_eq. split; [done|]. split; [done|].
      intros t Hne. by rewrite lookup_insert_ne. }
  destruct Htm1 as (m & Hm & Hmk & Hmo).
  split.
  { unfold getDepFromReactive. rewrite Htm. simpl.
    rewrite lookup_alter_eq, Hm. simpl. apply Map_get_set_eq. }
  split.
  { intros t k Hne. unfold getDepFromReactive at 1. rewrite Htm. simpl.
    destruct (decide (target_id t = target_id target)) as [Heq|Hnt].
    - destruct Hne as [Hne|Hne]; [done|].
      rewrite Heq, lookup_alter_eq, Hm. simpl.
      rewrite Map_get_set_ne by done. rewrite Hmk.
      unfold getDepFromReactive. by rewrite Heq.
    - rewrite lookup_alter_ne by done. rewrite Hmo by done. done. }
  split; [done|]. split; [by destruct Hver|]. split; [by destruct Hver|].
  split; [by injection Hal|].
  split.
  { intros x r Hx. rewrite Hother.
    - simpl. rewrite lookup_insert_ne; [done|]. intros <-.
      by rewrite HD in Hx.
    - intros ->. by rewrite HD in Hx. }
  split; [done|]. split; [done|]. split; [done|]. split; [done|].
  split; [by destruct (truthy _)|].
  split; [done|].
  split.
  { rewrite Htm. simpl. rewrite lookup_alter_eq. subst tm1.
    destruct (targetMap st !! target_id target) as [m0|] eqn:Hm0; simpl.
    - by rewrite Hm0.
    - by rewrite lookup_insert_eq. }
  done.
Qed.

(** X6. The first read of a property: when [track] meets a
    (target, key) pair the registry does not know, while a subscriber is
    running, it creates one dependency at version 0 that belongs to no
    computed, files it under that pair and under no other, and links the
    running subscriber to it; [getDepFromReactive] finds it afterwards. *)
Theorem track_first_read_registers_dep
    (fuel : nat) (target : Target) (type : TrackOpTypes) (key : Key)
    (w : World) (a : nat) (sa : Subscriber) (ls : list nat) :
  activeSub (heap w) = Some a →
  shouldTrack (heap w) = true →
  subscribers (heap w) !! a = Some sa →
  wf_deps (heap w) a ls = true →
  getDepFromReactive target key (heap w) = None →
  ∃ w' dr lr,
    track fuel target type key w = Normal tt w'
    ∧ getDepFromReactive target key (heap w')
      = Some (fresh (dom (deps (heap w))))
    ∧ (∀ t k, target_id t ≠ target_id target ∨ k ≠ key →
         getDepFromReactive t k (heap w') = getDepFromReactive t k (heap w))
    ∧ deps (heap w') !! fresh (dom (deps (heap w))) = Some dr
    ∧ d_version dr = 0 ∧ d_computed dr = None
    ∧ d_activeLink dr = Some (fresh (dom (links (heap w))))
    ∧ (∀ x r, deps (heap w) !! x = Some r → deps (heap w') !! x = Some r)
    ∧ links (heap w') !! fresh (dom (links (heap w))) = Some lr
    ∧ l_dep lr = fresh (dom (deps (heap w))) ∧ l_sub lr = a
    ∧ wf_deps (heap w') a (ls ++ [fresh (dom (links (heap w)))]) = true
    ∧ wf_subs (heap w') (fresh (dom (deps (heap w))))
        (if truthy (Z.land (s_flags sa) TRACKING)
         then [fresh (dom (links (heap w)))] else []) = true
    ∧ globalVersion (heap w') = globalVersion (heap w).
Proof.
  intros Ha Ht Hsa Hwf Hreg.
  destruct (track_first_read_run fuel target type key w a sa ls)
    as (w' & dr & lr & H1 & H2 & H3 & H4 & H5 & H6 & H7 & H8 & H9 & H10
        & H11 & H12 & H13 & H14 & _); try done.
  by exists w', dr, lr.
Qed.

(** *** Notification order *)

Lemma link_subs_app lk (xs ys : list nat) :
  link_subs lk (xs ++ ys) = link_subs lk xs ++ link_subs lk ys.
Proof.
  induction xs as [|x xs IH]; [done|]. simpl.
  destruct (lk !! x); simpl; by rewrite IH.
Qed.

Lemma notified_app (xs ys : list Event) :
  notified (xs ++ ys) = notified xs ++ notified ys.
Proof.
  induction xs as [|e xs IH]; [done|]. simpl.
  destruct e; simpl; by rewrite ?IH.
Qed.

Lemma last_or_None (xs : list nat) : last_or None xs = last xs.
Proof. unfold last_or. by destruct (last xs). Qed.

Lemma notify_loop_run
    (debugInfo : option DebuggerEventExtraInfo) (lk : gmap nat Link)
    (xs : list nat) :
  (∀ s, keeps_lists (Subscriber_notify s)) →
  ∀ (nxt : option nat) (fuel : nat) (w : World),
  links (heap w) = lk →
  sub_chain lk None xs nxt = true →
  (∀ l, l ∈ xs → ∃ r, lk !! l = Some r
                      ∧ is_Some (subscribers (heap w) !! l_sub r)) →
  (length xs ≤ fuel)%nat →
  ∃ w' mid,
    notify_loop fuel debugInfo (last xs) w = Normal tt w'
    ∧ heap w' = notify_all (rev (link_subs lk xs)) (heap w)
    ∧ triggerEventInfos w' = triggerEventInfos w
    ∧ trace w' = trace w ++ mid
    ∧ notified mid = rev (link_subs lk xs)
    ∧ forallb notify_call mid = true.
Proof.
  intros Hnotify.
  induction xs as [|x xs IH] using rev_ind; intros nxt fuel w Hlk Hch Hall Hfuel.
  - exists w, []. simpl. rewrite app_nil_r. by destruct fuel.
  - rewrite last_snoc. rewrite sub_chain_app in Hch.
    apply andb_true_iff in Hch as [Hpre Hx]. simpl in Hpre, Hx.
    rewrite andb_true_r in Hx. rewrite last_or_None in Hx.
    apply sub_node_b_true in Hx as (rx & Hrx & Hprev & _).
    destruct (Hall x) as (rx' & Hrx' & [sx Hsx]).
    { apply elem_of_app. right. apply list_elem_of_here. }
    rewrite Hrx in Hrx'. injection Hrx' as <-.
    rewrite length_app in Hfuel. simpl in Hfuel.
    destruct fuel as [|fuel]; [lia|].
    destruct w as [st infos tr]. simpl in Hlk, Hall, Hsx. subst lk.
    set (w1 := fun tr1 => mkWorld (Subscriber_notify (l_sub rx) st) infos
                            (tr ++ tr1 ++ [EvNotify (l_sub rx)])).
    destruct (Hnotify (l_sub rx) st) as (Hl1 & _ & _ & Ha1).
    assert (Hstep : ∃ tr1, forallb notify_call tr1 = true
              ∧ notified tr1 = []
              ∧ notify_loop (S fuel) debugInfo (Some x) (mkWorld st infos tr)
                = notify_loop fuel debugInfo (last xs) (w1 tr1)).
    { simpl. unfold_M. simpl. rewrite Hrx. simpl. rewrite Hsx. simpl.
      destruct (__DEV__ && bool_decide (is_Some (s_onTrigger sx))
                && negb (truthy (Z.land (s_flags sx) NOTIFIED))); simpl;
        rewrite Hrx; simpl; rewrite Hl1, Hrx; simpl; rewrite Hprev.
      - exists [EvOnTrigger (l_sub rx) debugInfo]. subst w1. simpl.
        by rewrite <- !app_assoc.
      - exists []. by subst w1. }
    destruct Hstep as (tr1 & Hcalls & Hnone & Hstep).
    destruct (IH (Some x) fuel (w1 tr1)) as (w' & mid & Hrun & Hheap & Hinfos
                                             & Htr & Hmid & Hmidcalls).
    + done.
    + done.
    + intros l Hl. destruct (Hall l) as (r & Hr & Hs).
      { apply elem_of_app. by left. }
      exists r. split; [done|]. destruct Hs as [s Hs].
      destruct (Ha1 _ _ Hs) as (r' & Hr' & _). by exists r'.
    + lia.
    + exists w', (tr1 ++ [EvNotify (l_sub rx)] ++ mid).
      rewrite Hstep, Hrun. split; [done|].
      rewrite link_subs_app. simpl. rewrite Hrx. simpl.
      rewrite rev_app_distr. simpl.
      split; [by rewrite Hheap|]. split; [by rewrite Hinfos|].
      split; [rewrite Htr; simpl; by rewrite <- !app_assoc|].
      split.
      * rewrite notified_app, Hnone. simpl. by rewrite Hmid.
      * rewrite forallb_app, Hcalls. simpl. done.
Qed.

Lemma Dep_notify_run
    (fuel d : nat) (debugInfo : option DebuggerEventExtraInfo) (w : World)
    (sls : list nat) :
  keeps_lists startBatch →
  (∀ s, keeps_lists (Subscriber_notify s)) →
  outside_computed (heap w) = true →
  wf_subs (heap w) d sls = true →
  (∀ l r, l ∈ sls → links (heap w) !! l = Some r →
          is_Some (subscribers (heap w) !! l_sub r)) →
  (length sls ≤ fuel)%nat →
  ∃ w' mid,
    Dep_notify fuel d debugInfo w = Normal tt w'
    ∧ heap w'
      = endBatch (notify_all (rev (link_subs (links (heap w)) sls))
                    (startBatch (heap w)))
    ∧ trace w' = trace w ++ [EvStartBatch] ++ mid ++ [EvEndBatch]
    ∧ notified mid = rev (link_subs (links (heap w)) sls)
    ∧ forallb notify_call mid = true
    ∧ triggerEventInfos w' = triggerEventInfos w.
Proof.
  intros Hstart Hnotify Hout Hwf Hsubs Hfuel.
  destruct w as [st infos tr]. simpl in Hout, Hwf, Hsubs |- *.
  unfold wf_subs in Hwf.
  destruct (deps st !! d) as [dp|] eqn:Hd; [|done].
  apply andb_true_iff in Hwf as [Hwf Htail].
  apply andb_true_iff in Hwf as [_ Hch].
  apply bool_decide_eq_true in Htail.
  destruct (Hstart st) as (Hl0 & Hd0 & _ & Ha0).
  destruct (notify_loop_run debugInfo (links st) sls Hnotify None fuel
              (mkWorld (startBatch st) infos (tr ++ [EvStartBatch])))
    as (w' & mid & Hrun & Hheap & Hinfos & Htr & Hmid & Hcalls);
    try done.
  { intros l Hl.
    destruct (sub_chain_allocated _ _ _ _ Hch l Hl) as [r Hr].
    exists r. split; [done|]. destruct (Hsubs l r Hl Hr) as [s Hs].
    destruct (Ha0 _ _ Hs) as (r' & Hr' & _). by exists r'. }
  exists (mkWorld (endBatch (heap w')) (triggerEventInfos w')
            (trace w' ++ [EvEndBatch])), mid.
  split.
  { assert (Hic : activeSub_isComputed (mkWorld st infos tr)
                   = Normal false (mkWorld st infos tr)).
    { unfold activeSub_isComputed, outside_computed in *. unfold_M. simpl.
      destruct (activeSub st) as [a|]; [|done]. simpl.
      destruct (subscribers st !! a) as [sa|]; [|done]. simpl.
      apply negb_true_iff in Hout. by rewrite Hout. }
    unfold Dep_notify. unfold bind at 1. rewrite Hic. simpl.
    unfold_M. simpl. rewrite Hd0, Hd. simpl. rewrite Htail, Hrun. done. }
  split; [by rewrite Hheap|].
  split; [rewrite Htr; simpl; by rewrite <- !app_assoc|].
  done.
Qed.

(** X7. Outside the evaluation of a computed, [Dep.notify] on a dependency
    with a well-formed subscriber list opens one batch, calls [notify()]
    once on the subscriber of every link of the list, from the newest
    subscription back to the oldest, and closes the batch; between
    [startBatch] and [endBatch] it calls nothing but [notify()] and
    [onTrigger] callbacks.  [startBatch] and the [notify()] of the
    subscribers are taken to leave the links, the dependencies and the
    active subscriber alone and to free no subscriber. *)
Theorem Dep_notify_reaches_every_subscriber_once
    (fuel d : nat) (debugInfo : option DebuggerEventExtraInfo) (w : World)
    (sls : list nat) :
  keeps_lists startBatch →
  (∀ s, keeps_lists (Subscriber_notify s)) →
  outside_computed (heap w) = true →
  wf_subs (heap w) d sls = true →
  (∀ l r, l ∈ sls → links (heap w) !! l = Some r →
          is_Some (subscribers (heap w) !! l_sub r)) →
  (length sls ≤ fuel)%nat →
  ∃ w' mid,
    Dep_notify fuel d debugInfo w = Normal tt w'
    ∧ heap w'
      = endBatch (notify_all (rev (link_subs (links (heap w)) sls))
                    (startBatch (heap w)))
    ∧ trace w' = trace w ++ [EvStartBatch] ++ mid ++ [EvEndBatch]
    ∧ notified mid = rev (link_subs (links (heap w)) sls)
    ∧ forallb notify_call mid = true.
Proof.
  intros Hstart Hnotify Hout Hwf Hsubs Hfuel.
  destruct (Dep_notify_run fuel d debugInfo w sls)
    as (w' & mid & H1 & H2 & H3 & H4 & H5 & _); try done.
  by exists w', mid.
Qed.

(** *** From a read to the notification *)

Lemma collect_deps_single (target : Target) (key : Key) (newValue : JSValue)
    (d : nat) :
  key ≠ KUndefined →
  isMap target = false →
  collect_deps target SET key newValue [(key, d)] = [d].
Proof.
  intros Hkey Hmap. unfold collect_deps.
  rewrite (bool_decide_eq_false_2 (SET = CLEAR)) by done.
  destruct (bool_decide (key = KString "length") && isArray target) eqn:Hlen.
  - apply andb_true_iff in Hlen as [Hlen _].
    apply bool_decide_eq_true in Hlen. by subst key.
  - rewrite bool_decide_eq_true_2 by done. rewrite Hmap. simpl.
    by rewrite decide_True.
Qed.

(** X8. From a read to the notification: a running effect reads a
    property of an object the registry has not seen, through [track]; when
    that property is then set, [trigger] calls the effect's [notify()],
    once, inside its batch, and calls no other subscriber.  [startBatch]
    and the [notify()] of the subscribers are taken to leave the links,
    the dependencies and the active subscriber alone and to free no
    subscriber. *)
Theorem tracked_read_is_notified_on_set
    (fuel : nat) (target : Target) (type : TrackOpTypes) (key : Key)
    (newValue oldValue oldTarget : JSValue)
    (w : World) (a : nat) (sa : Subscriber) (ls : list nat) :
  keeps_lists startBatch →
  (∀ s, keeps_lists (Subscriber_notify s)) →
  activeSub (heap w) = Some a →
  shouldTrack (heap w) = true →
  subscribers (heap w) !! a = Some sa →
  s_isComputed sa = false →
  truthy (Z.land (s_flags sa) TRACKING) = true →
  wf_deps (heap w) a ls = true →
  targetMap (heap w) !! target_id target = None →
  key ≠ KUndefined →
  isMap target = false →
  (1 ≤ fuel)%nat →
  ∃ w1 w2 mid,
    track fuel target type key w = Normal tt w1
    ∧ trigger fuel target SET key newValue oldValue oldTarget w1
      = Normal tt w2
    ∧ trace w2
      = trace w1 ++ [EvStartBatch; EvStartBatch] ++ mid
                 ++ [EvEndBatch; EvEndBatch]
    ∧ notified mid = [a]
    ∧ forallb notify_call mid = true.
Proof.
  intros Hstart Hnotify Ha Ht Hsa Hkind Hflag Hwf Hnew Hkey Hmap Hfuel.
  destruct (track_first_read_run fuel target type key w a sa ls)
    as (w1 & dr & lr & Htrack & _ & _ & Hdr & _ & _ & _ & _ & Hlr & _ & Hls
        & _ & Hwfs & _ & Htm & Has & _ & Hsubs & _); try done.
  { unfold getDepFromReactive. by rewrite Hnew. }
  rewrite Hflag in Hwfs.
  assert (Htm' : targetMap (heap w1) !! target_id target
                 = Some ([(key, fresh (dom (deps (heap w))))] : KeyToDepMap)).
  { rewrite Htm. f_equal. unfold KeyToDepMap in *. by rewrite Hnew. }
  clear Htm. rename Htm' into Htm.
  set (D := fresh (dom (deps (heap w)))) in *.
  set (L := fresh (dom (links (heap w)))) in *.
  destruct w1 as [st1 infos1 tr1]. simpl in Hdr, Hlr, Hwfs, Htm, Has, Hsubs.
  destruct (Hstart st1) as (Hl0 & Hd0 & Ha0 & Hs0).
  set (info := if __DEV__
               then Some (TriggerInfo target SET key newValue oldValue
                            oldTarget)
               else None).
  set (w3 := mkWorld
               (set_globalVersion (fun v => v + 1)
                  (set_deps (alter (with_d_version (d_version dr + 1)) D)
                     (startBatch st1)))
               infos1 (tr1 ++ [EvStartBatch])).
  destruct (Dep_notify_run fuel D info w3 [L])
    as (w4 & mid & Hrun & _ & Htr & Hmid & Hcalls & _); try done.
  { unfold outside_computed. simpl. rewrite Ha0, Has, Ha.
    destruct (Hs0 a (with_deps (Some L) sa)) as (r' & Hr' & Hk').
    { by rewrite Hsubs, lookup_alter_eq, Hsa. }
    rewrite Hr', Hk'. simpl. by rewrite Hkind. }
  { unfold wf_subs in Hwfs |- *. simpl. rewrite Hd0, lookup_alter_eq, Hdr.
    rewrite Hdr in Hwfs. simpl. by rewrite Hl0. }
  { intros l r Hl Hr. apply list_elem_of_singleton in Hl. subst l.
    simpl in Hr. rewrite Hl0, Hlr in Hr. injection Hr as <-.
    rewrite Hls. simpl.
    destruct (Hs0 a (with_deps (Some L) sa)) as (r' & Hr' & _).
    { by rewrite Hsubs, lookup_alter_eq, Hsa. }
    by exists r'. }
  exists (mkWorld st1 infos1 tr1),
    (mkWorld (endBatch (heap w4)) (triggerEventInfos w4)
       (trace w4 ++ [EvEndBatch])), mid.
  split; [done|]. split.
  { unfold trigger. unfold get_state. unfold bind at 1. simpl.
    rewrite Htm. rewrite collect_deps_single by done.
    unfold trigger_each, Dep_trigger. unfold_M. simpl.
    rewrite Hd0, Hdr. simpl. subst w3 info. simpl in Hrun.
    rewrite Hrun. done. }
  simpl. split.
  { rewrite Htr. subst w3. simpl. rewrite <- !app_assoc. simpl.
    by rewrite <- !app_assoc. }
  split; [|done].
  rewrite Hmid. simpl. rewrite Hl0, Hlr. simpl. by rewrite Hls.
Qed.

(** *** A second read *)

Lemma Dep_track_cached_run
    (fuel d : nat) (debugInfo : option DebuggerEventExtraInfo)
    (st : State) (infos : list DebuggerEventExtraInfo) (tr : list Event)
    (a l : nat) (dp : Dep) (lr : Link) (sa : Subscriber) :
  activeSub st = Some a →
  shouldTrack st = true →
  subscribers st !! a = Some sa →
  deps st !! d = Some dp →
  d_activeLink dp = Some l →
  links st !! l = Some lr →
  l_sub lr = a →
  l_version lr ≠ -1 →
  Dep_track fuel d debugInfo (mkWorld st infos tr)
  = Normal (Some l) (mkWorld st infos (tr ++ dev_onTrack_events sa a debugInfo)).
Proof.
  intros Ha Ht Hsa Hd Hal Hl Hs Hv.
  unfold Dep_track. unfold_M.
  repeat (progress (simpl;
    rewrite ?Ha, ?Ht, ?Hd, ?Hal, ?Hl, ?Hsa, ?(bool_decide_eq_true_2 _ Hs),
      ?(proj2 (Z.eqb_neq _ _) Hv))).
  unfold dev_onTrack_events.
  destruct (__DEV__ && bool_decide (is_Some (s_onTrack sa))); simpl.
  - done.
  - by rewrite app_nil_r.
Qed.

(** Reading a run of the monad backwards. *)
Lemma bind_Normal {A B : Type} (m : M A) (k : A → M B) (w w2 : World)
    (b : B) :
  bind m k w = Normal b w2 →
  ∃ a w1, m w = Normal a w1 ∧ k a w1 = Normal b w2.
Proof. unfold bind. destruct (m w) as [a w1| | |]; try done. eauto. Qed.

Lemma keeps_Normal (R : State → State → Prop) {A : Type} (m : M A)
    (w w' : World) (a : A) :
  m w = Normal a w' → keeps R m → R (heap w) (heap w').
Proof. intros Hm Hk. specialize (Hk w). by rewrite Hm in Hk. Qed.

Lemma cache_frame_refl (st : State) : cache_frame st st.
Proof. unfold cache_frame. repeat split; eauto 10. Qed.

Lemma cache_frame_trans (x y z : State) :
  cache_frame x y → cache_frame y z → cache_frame x z.
Proof.
  intros (H1 & H2 & H3 & H4 & H5 & H6) (K1 & K2 & K3 & K4 & K5 & K6).
  unfold cache_frame.
  split; [congruence|]. split; [congruence|]. split; [congruence|].
  split; [|split].
  - intros l r Hr. destruct (H4 l r Hr) as (r1 & Hr1 & ? & ?).
    destruct (K4 l r1 Hr1) as (r2 & Hr2 & ? & ?).
    exists r2. split; [done|]. split; congruence.
  - intros d r Hr. destruct (H5 d r Hr) as (r1 & Hr1 & ? & ?).
    destruct (K5 d r1 Hr1) as (r2 & Hr2 & ? & ?).
    exists r2. split; [done|]. split; congruence.
  - intros s Hs. by apply K6, H6.
Qed.

Lemma cache_frame_links (st : State) (l : nat) (f : Link → Link) :
  (∀ r, l_sub (f r) = l_sub r ∧ l_version (f r) = l_version r) →
  cache_frame st (set_links (alter f l) st).
Proof.
  intros Hf. unfold cache_frame. simpl. repeat split; eauto 10.
  intros x r Hr. destruct (decide (l = x)) as [->|Hne].
  - exists (f r). rewrite lookup_alter_eq, Hr. split; [done|]. apply Hf.
  - exists r. by rewrite lookup_alter_ne.
Qed.

Lemma cache_frame_deps (st : State) (d : nat) (f : Dep → Dep) :
  (∀ r, d_activeLink (f r) = d_activeLink r
        ∧ d_version (f r) = d_version r) →
  cache_frame st (set_deps (alter f d) st).
Proof.
  intros Hf. unfold cache_frame. simpl. repeat split; eauto 10.
  intros x r Hr. destruct (decide (d = x)) as [->|Hne].
  - exists (f r). rewrite lookup_alter_eq, Hr. split; [done|]. apply Hf.
  - exists r. by rewrite lookup_alter_ne.
Qed.

Lemma cache_frame_subscribers (st : State) (s : nat)
    (f : Subscriber → Subscriber) :
  cache_frame st (set_subscribers (alter f s) st).
Proof.
  unfold cache_frame. simpl. repeat split; eauto 10.
  intros x [r Hr]. destruct (decide (s = x)) as [->|Hne].
  - rewrite lookup_alter_eq, Hr. by eexists.
  - rewrite lookup_alter_ne by done. by eexists.
Qed.

(** One step of the decomposition of a computation that keeps what a read
    has cached. *)
Ltac cache_step :=
  first
    [ apply keeps_ret; apply cache_frame_refl
    | apply keeps_throw; apply cache_frame_refl
    | apply keeps_out_of_fuel
    | apply keeps_get_state; apply cache_frame_refl
    | apply keeps_getLink; apply cache_frame_refl
    | apply keeps_getDep; apply cache_frame_refl
    | apply keeps_getSub; apply cache_frame_refl
    | apply keeps_emit; apply cache_frame_refl
    | apply keeps_modify; intros ?;
      first [ apply cache_frame_links; by intros []
            | apply cache_frame_deps; by intros []
            | apply cache_frame_subscribers ]
    | apply keeps_bind; [apply cache_frame_trans| |intros ?]
    | match goal with
      | |- keeps _ (match ?x with _ => _ end) => destruct x
      | |- keeps _ (if ?b then _ else _) => destruct b
      end ].

Lemma cache_addSub (link : nat) : keeps cache_frame (addSub link).
Proof. unfold addSub, when, setLink, setDep. repeat cache_step. Qed.

Lemma cache_addSub_loop (fuel : nat) (l : option nat) :
  keeps cache_frame (addSub_loop fuel l).
Proof.
  revert l. induction fuel as [|fuel IH]; intros [x|]; simpl;
    try (apply keeps_ret; apply cache_frame_refl);
    try apply keeps_out_of_fuel.
  apply keeps_bind; [apply cache_frame_trans|apply cache_addSub|intros _].
  apply keeps_bind; [apply cache_frame_trans| |intros lr; apply IH].
  apply keeps_getLink, cache_frame_refl.
Qed.

(** Whatever branch [Dep.track] takes, when it returns the link it
    returns is the dependency's active link, belongs to the active
    subscriber and carries a version that is not the mark -1. *)
Lemma Dep_track_caches_link
    (fuel d : nat) (debugInfo : option DebuggerEventExtraInfo)
    (st : State) (infos : list DebuggerEventExtraInfo) (tr : list Event)
    (a : nat) (r : option nat) (w1 : World) :
  activeSub st = Some a →
  shouldTrack st = true →
  (∀ dp, deps st !! d = Some dp → d_version dp ≠ -1) →
  Dep_track fuel d debugInfo (mkWorld st infos tr) = Normal r w1 →
  ∃ l dr lr,
    deps (heap w1) !! d = Some dr
    ∧ d_activeLink dr = Some l
    ∧ links (heap w1) !! l = Some lr
    ∧ l_sub lr = a
    ∧ l_version lr ≠ -1
    ∧ is_Some (subscribers (heap w1) !! a)
    ∧ activeSub (heap w1) = Some a
    ∧ shouldTrack (heap w1) = true
    ∧ targetMap (heap w1) = targetMap st.
Proof.
  intros Ha Ht Hver Hrun.
  assert (Hfin : ∀ (st2 : State) (l : nat) (dr : Dep) (lr : Link),
            deps st2 !! d = Some dr → d_activeLink dr = Some l →
            links st2 !! l = Some lr → l_sub lr = a → l_version lr ≠ -1 →
            activeSub st2 = Some a → shouldTrack st2 = true →
            targetMap st2 = targetMap st →
            ∀ w2 link,
              cache_frame st2 (heap w2) →
              (sa <- getSub a;;
               when (__DEV__ && bool_decide (is_Some (s_onTrack sa)))
                 (emit (EvOnTrack a debugInfo));;
               ret (Some link)) w2 = Normal r w1 →
              ∃ l dr lr,
                deps (heap w1) !! d = Some dr
                ∧ d_activeLink dr = Some l
                ∧ links (heap w1) !! l = Some lr
                ∧ l_sub lr = a
                ∧ l_version lr ≠ -1
                ∧ is_Some (subscribers (heap w1) !! a)
                ∧ activeSub (heap w1) = Some a
                ∧ shouldTrack (heap w1) = true
                ∧ targetMap (heap w1) = targetMap st).
  { intros st2 l dr lr Hd2 Hal2 Hl2 Hs2 Hv2 Ha2 Ht2 Htm2 w2 link
      (K1 & K2 & K3 & K4 & K5 & K6) Hout.
    apply bind_Normal in Hout as (sa & w3 & Hsa & Hout).
    unfold getSub in Hsa.
    destruct (subscribers (heap w2) !! a) as [sa'|] eqn:Hsa'; [|done].
    injection Hsa as <- <-.
    assert (Hheap : heap w1 = heap w2).
    { unfold when in Hout.
      destruct (__DEV__ && bool_decide (is_Some (s_onTrack sa')));
        unfold_M; simpl in Hout; by injection Hout as _ <-. }
    rewrite Hheap.
    destruct (K5 d dr Hd2) as (dr' & Hdr' & Hal' & _).
    destruct (K4 l lr Hl2) as (lr' & Hlr' & Hsub' & Hv').
    exists l, dr', lr'.
    split; [done|]. split; [congruence|]. split; [done|].
    split; [congruence|]. split; [congruence|]. split; [by eexists|].
    split; [congruence|]. split; congruence. }
  unfold Dep_track in Hrun.
  apply bind_Normal in Hrun as (st0 & w0 & H0 & Hrun).
  unfold get_state in H0. injection H0 as <- <-. simpl in Hrun.
  rewrite Ha, Ht in Hrun. simpl in Hrun.
  apply bind_Normal in Hrun as (dp & w0 & H0 & Hrun).
  unfold getDep in H0. simpl in H0.
  destruct (deps st !! d) as [dp'|] eqn:Hd; [|done].
  injection H0 as <- <-. specialize (Hver dp' eq_refl).
  apply bind_Normal in Hrun as (reused & w0 & Hreused & Hrun).
  apply bind_Normal in Hrun as (link & w2 & Hlink & Hrun).
  assert (Hw0 : w0 = mkWorld st infos tr
                ∧ match reused with
                  | Some l0 =>
                      d_activeLink dp' = Some l0
                      ∧ ∃ lr0, links st !! l0 = Some lr0 ∧ l_sub lr0 = a
                  | None => True
                  end).
  { destruct (d_activeLink dp') as [l0|].
    - apply bind_Normal in Hreused as (lr0 & w' & Hg & Hret).
      unfold getLink in Hg. simpl in Hg.
      destruct (links st !! l0) as [lr0'|] eqn:Hl0; [|done].
      injection Hg as <- <-. unfold ret in Hret.
      destruct (bool_decide (l_sub lr0' = a)) eqn:Hb;
        injection Hret as <- <-; [|done].
      apply bool_decide_eq_true in Hb. eauto.
    - unfold ret in Hreused. by injection Hreused as <- <-. }
  destruct Hw0 as [-> Hw0].
  destruct reused as [l0|].
  - (* the active link is the subscriber's own *)
    destruct Hw0 as (Hal & lr0 & Hl0 & Hs0).
    apply bind_Normal in Hlink as (lr & w' & Hg & Hlink).
    unfold getLink in Hg. simpl in Hg. rewrite Hl0 in Hg.
    injection Hg as <- <-.
    apply bind_Normal in Hlink as ([] & w3 & Hwhen & Hret).
    unfold ret in Hret. injection Hret as <- <-.
    unfold when in Hwhen.
    destruct (l_version lr0 =? -1) eqn:Hv.
    + apply bind_Normal in Hwhen as (dp0 & w' & Hg & Hwhen).
      unfold getDep in Hg. simpl in Hg. rewrite Hd in Hg.
      injection Hg as <- <-.
      apply bind_Normal in Hwhen as ([] & w' & Hset & Hrest).
      unfold setLink, modify in Hset. simpl in Hset. injection Hset as <-.
      eapply Hfin with
        (st2 := set_links (alter (with_version (d_version dp')) l0) st)
        (l := l0) (lr := with_version (d_version dp') lr0); try done.
      * simpl. by rewrite lookup_alter_eq, Hl0.
      * apply (keeps_Normal cache_frame _ _ _ _ Hrest).
        unfold setLink, setSub. repeat cache_step.
    + unfold ret in Hwhen. injection Hwhen as <-.
      eapply Hfin with (st2 := st) (l := l0) (lr := lr0); try done.
      * by apply Z.eqb_neq.
      * apply cache_frame_refl.
  - (* a new link *)
    apply bind_Normal in Hlink as (sa & w' & Hg & Hlink).
    unfold getSub in Hg. simpl in Hg.
    destruct (subscribers st !! a) as [sa'|] eqn:Hsa; [|done].
    injection Hg as <- <-.
    apply bind_Normal in Hlink as (L & w' & Hnew & Hlink).
    unfold newLink in Hnew. simpl in Hnew. injection Hnew as <- <-.
    apply bind_Normal in Hlink as ([] & w' & Hset & Hrest).
    unfold setDep, modify in Hset. simpl in Hset. injection Hset as <-.
    assert (Hlinkeq : link = fresh (dom (links st))
                      ∧ cache_frame
                          (set_deps
                             (alter (with_activeLink
                                       (Some (fresh (dom (links st))))) d)
                             (set_links
                                (insert (fresh (dom (links st)))
                                   (mkLink d a (d_version dp') None
                                      (s_deps sa') None None None))
                                st))
                          (heap w2)).
    { split.
      - repeat (apply bind_Normal in Hrest as (? & ? & _ & Hrest)).
        unfold ret in Hrest. by injection Hrest as <- _.
      - apply (keeps_Normal cache_frame _ _ _ _ Hrest).
        unfold setLink, setSub, when.
        repeat first [ apply cache_addSub_loop | apply cache_addSub
                     | cache_step ]. }
    destruct Hlinkeq as [-> Hframe].
    eapply Hfin with (l := fresh (dom (links st))); try exact Hframe;
      try exact Hrun; simpl; try done.
    + by rewrite lookup_alter_eq, Hd.
    + done.
    + by rewrite lookup_insert_eq.
    + done.
    + done.
Qed.

(** X9. One link per property and run: once a [track] of a property by
    the running subscriber has returned, whichever way it went (a
    dependency made on the spot, a new link to a dependency that others
    read before, a link reused from the last run, or the link of an
    earlier read of this run), a second [track] of the same property by
    the same subscriber, whatever the kind of access, returns and leaves
    the whole object graph and the registry as the first one left them;
    only the [onTrack] callback of a development build is called again.
    The versions of the dependencies are taken to be counters, never the
    mark -1 of a link kept for reuse. *)
Theorem track_second_read_adds_nothing
    (fuel : nat) (target : Target) (type type' : TrackOpTypes) (key : Key)
    (w w1 : World) (a : nat) :
  activeSub (heap w) = Some a →
  shouldTrack (heap w) = true →
  (∀ d dp, deps (heap w) !! d = Some dp → d_version dp ≠ -1) →
  track fuel target type key w = Normal tt w1 →
  ∃ sa1,
    subscribers (heap w1) !! a = Some sa1
    ∧ track fuel target type' key w1
      = Normal tt
          (mkWorld (heap w1) (triggerEventInfos w1)
             (trace w1
              ++ dev_onTrack_events sa1 a
                   (if __DEV__ then Some (TrackInfo target type' key)
                    else None))).
Proof.
  intros Ha Ht Hver Hrun.
  destruct w as [st infos tr]. simpl in Ha, Ht, Hver.
  assert (Hreg : ∃ stR D x,
            Dep_track fuel D
              (if __DEV__ then Some (TrackInfo target type key) else None)
              (mkWorld stR infos tr) = Normal x w1
            ∧ getDepFromReactive target key stR = Some D
            ∧ activeSub stR = Some a
            ∧ shouldTrack stR = true
            ∧ (∀ dp, deps stR !! D = Some dp → d_version dp ≠ -1)).
  { unfold track in Hrun.
    apply bind_Normal in Hrun as (st0 & w0 & H0 & Hrun).
    unfold get_state in H0. injection H0 as <- <-. simpl in Hrun.
    rewrite Ha, Ht in Hrun. simpl in Hrun.
    apply bind_Normal in Hrun as (depsMap & w0 & Hmap & Hrun).
    apply bind_Normal in Hrun as (D & w2 & Hdep & Hrun).
    apply bind_Normal in Hrun as (x & w3 & Htrack & Hret).
    unfold ret in Hret. injection Hret as <-.
    assert (Hw0 : ∃ st0, w0 = mkWorld st0 infos tr
                  ∧ targetMap st0 !! target_id target = Some depsMap
                  ∧ activeSub st0 = Some a ∧ shouldTrack st0 = true
                  ∧ deps st0 = deps st).
    { unfold KeyToDepMap in *.
      destruct (_ !! target_id target) as [m|] eqn:Hm.
      - unfold ret in Hmap. injection Hmap as <- <-. by exists st.
      - apply bind_Normal in Hmap as ([] & w' & Hmod & Hret).
        unfold modify in Hmod. simpl in Hmod. injection Hmod as <-.
        unfold ret in Hret. injection Hret as <- <-.
        eexists. split; [reflexivity|]. simpl.
        by rewrite lookup_insert_eq. }
    destruct Hw0 as (st0 & -> & Htm0 & Ha0 & Ht0 & Hd0).
    unfold getDepFromReactive. unfold KeyToDepMap in *.
    destruct (Map_get key depsMap) as [D0|] eqn:Hget.
    - unfold ret in Hdep. injection Hdep as <- <-.
      exists st0, D0, x. split; [done|].
      split; [by rewrite Htm0|].
      split; [done|]. split; [done|].
      intros dp Hdp. rewrite Hd0 in Hdp. by eapply Hver.
    - apply bind_Normal in Hdep as (D0 & w' & Hnew & Hdep).
      unfold newDep in Hnew. simpl in Hnew. injection Hnew as <- <-.
      apply bind_Normal in Hdep as ([] & w' & Hmod & Hret).
      unfold modify in Hmod. simpl in Hmod. injection Hmod as <-.
      unfold ret in Hret. injection Hret as <- <-.
      eexists _, _, x. split; [exact Htrack|].
      split.
      { simpl. rewrite lookup_alter_eq, Htm0. simpl.
        apply Map_get_set_eq. }
      split; [done|]. split; [done|].
      simpl. intros dp Hdp. rewrite lookup_insert_eq in Hdp.
      by injection Hdp as <-. }
  destruct Hreg as (stR & D & x & Htrack & Hget & HaR & HtR & HverR).
  destruct (Dep_track_caches_link _ _ _ _ _ _ _ _ _ HaR HtR HverR Htrack)
    as (l & dr & lr & Hdr & Hal & Hlr & Hls & Hlv & [sa1 Hsa1] & Ha1 & Ht1
        & Htm1).
  exists sa1. split; [done|].
  destruct w1 as [st1 infos1 tr1].
  simpl in Hdr, Hlr, Hsa1, Ha1, Ht1, Htm1 |- *.
  assert (Hget1 : getDepFromReactive target key st1 = Some D).
  { unfold getDepFromReactive in Hget |- *. by rewrite Htm1. }
  unfold getDepFromReactive in Hget1.
  unfold track. unfold get_state. unfold bind at 1. simpl.
  rewrite Ht1, Ha1. simpl. unfold KeyToDepMap in *.
  destruct (_ !! target_id target) as [m|] eqn:Hm; [|done].
  unfold ret at 1. unfold bind at 1.
  rewrite Hget1. unfold ret at 1. unfold bind at 1. unfold bind at 1.
  by erewrite Dep_track_cached_run.
Qed.

(** *** What [trigger] collects *)

Lemma Map_get_elem (k : Key) (d : nat) (m : KeyToDepMap) :
  Map_get k m = Some d → (k, d) ∈ m.
Proof.
  induction m as [|[k' d'] m IH]; [done|]. simpl.
  destruct (decide (k' = k)) as [->|Hne].
  - intros [= ->]. apply list_elem_of_here.
  - intros H. apply list_elem_of_further. by apply IH.
Qed.

Lemma push_registered (k : Key) (m : KeyToDepMap) :
  Forall (fun d => ∃ k', (k', d) ∈ m) (push (Map_get k m)).
Proof.
  unfold push. destruct (Map_get k m) as [d|] eqn:Hd; [|done].
  apply Forall_cons. split; [|done]. exists k. by apply Map_get_elem.
Qed.

Lemma Map_values_registered (m m' : KeyToDepMap) :
  (∀ kd, kd ∈ m' → kd ∈ m) →
  Forall (fun d => ∃ k', (k', d) ∈ m) (Map_values m').
Proof.
  intros Hsub. unfold Map_values. apply Forall_fmap. apply Forall_forall.
  intros [k d] Hin. simpl. exists k. by apply Hsub.
Qed.

(** X10. [trigger] stays inside its target: whatever the operation, the
    key and the new value, every dependency it collects to trigger is one
    that the registry holds under some key of this very target. *)
Theorem trigger_collects_only_registered_deps
    (target : Target) (type : TriggerOpTypes) (key : Key)
    (newValue : JSValue) (depsMap : KeyToDepMap) :
  Forall (fun d => ∃ k, (k, d) ∈ depsMap)
    (collect_deps target type key newValue depsMap).
Proof.
  unfold collect_deps.
  destruct (bool_decide (type = CLEAR)).
  { by apply Map_values_registered. }
  destruct (bool_decide (key = KString "length") && isArray target).
  { apply Map_values_registered. intros kd Hin.
    apply list_elem_of_In in Hin. apply filter_In in Hin as [Hin _].
    by apply list_elem_of_In. }
  apply Forall_app. split.
  { destruct (bool_decide (key ≠ KUndefined)); [apply push_registered|done]. }
  destruct type, (negb (isArray target)), (isMap target), (isIntegerKey key);
    simpl; rewrite ?app_nil_r;
    repeat (apply Forall_app; split);
    try apply push_registered; done.
Qed.

(** *** Writable computed *)

(** X11. A computed made from an object with [get] and [set] is writable:
    it is not flagged readonly, and an assignment to its value calls the
    given setter once with the new value and never warns, in every build
    and whatever the debug options. *)
Theorem computed_with_setter_is_writable
    (get : ComputedGetter) (set : ComputedSetter)
    (debugOptions : option DebuggerOptions) (isSSR : bool)
    (newValue : JSValue) (w : World) :
  c_isReadonly (computed (OfOptions get set) debugOptions isSSR) = false
  ∧ ComputedRefImpl_set_value
      (computed (OfOptions get set) debugOptions isSSR) newValue w
    = Normal tt (mkWorld (set newValue (heap w)) (triggerEventInfos w)
                   (trace w ++ [EvSetter newValue])).
Proof.
  unfold computed, new_ComputedRefImpl, ComputedRefImpl_set_value.
  destruct debugOptions as [o|]; [destruct (__DEV__ && negb isSSR)|];
    simpl; (split; [done|by unfold_M]).
Qed.

(** *** The dirty-level handler *)

(** X12. [setupDirtyLevelHandler] throws its internal error outside a
    development build and touches nothing.  In a development build it
    returns, [target.dirtyLevel] reads as it did before, the other
    subscribers are left alone, no callback is called, and setting the
    handler up a second time changes nothing. *)
Theorem setupDirtyLevelHandler_keeps_the_level
    (target : nat) (dl : gmap nat DirtyLevelSlot) (w : World)
    (slot : DirtyLevelSlot) :
  dl !! target = Some slot →
  if __DEV__ then
    ∃ dl1 slot1,
      setupDirtyLevelHandler target dl w = Normal dl1 w
      ∧ dl1 !! target = Some slot1
      ∧ dl_accessor slot1 = true
      ∧ read_dirtyLevel slot1 = read_dirtyLevel slot
      ∧ (∀ t, t ≠ target → dl1 !! t = dl !! t)
      ∧ setupDirtyLevelHandler target dl1 w = Normal dl1 w
  else
    setupDirtyLevelHandler target dl w
    = Thrown
        (InternalError
           "Internal error: setupDirtyLevelHandler should be called only in development.")
        w.
Proof.
  intros Hslot. unfold setupDirtyLevelHandler.
  destruct __DEV__; simpl; [|done].
  rewrite Hslot.
  exists (<[target := mkDirtyLevelSlot None (read_dirtyLevel slot) true]> dl),
    (mkDirtyLevelSlot None (read_dirtyLevel slot) true).
  split; [done|]. rewrite lookup_insert_eq.
  split; [done|]. split; [done|]. split; [done|].
  split; [intros t Hne; by rewrite lookup_insert_ne|].
  unfold ret. by rewrite insert_insert_eq.
Qed.

(** X13. Once [setupDirtyLevelHandler] has returned for a subscriber, an
    assignment to its [dirtyLevel] never throws, is read back as assigned,
    and leaves the graph alone; it calls the subscriber's [onTrigger]
    callback, with the newest entry of [triggerEventInfos], exactly when
    the level assigned is 1, 2 or 3 and the subscriber has that
    callback. *)
Theorem dirtyLevel_writes_are_reported
    (target : nat) (value : Z) (dl dl1 : gmap nat DirtyLevelSlot) (w w1 : World)
    (s : Subscriber) :
  setupDirtyLevelHandler target dl w = Normal dl1 w1 →
  subscribers (heap w1) !! target = Some s →
  ∃ dl2 slot2,
    write_dirtyLevel target value dl1 w1
    = Normal dl2
        (mkWorld (heap w1) (triggerEventInfos w1)
           (trace w1
            ++ if (0 <? value) && (value <? 4)
                  && bool_decide (is_Some (s_onTrigger s))
               then [EvOnTrigger target (last (triggerEventInfos w1))]
               else []))
    ∧ dl2 !! target = Some slot2
    ∧ read_dirtyLevel slot2 = Some value
    ∧ (∀ t, t ≠ target → dl2 !! t = dl1 !! t).
Proof.
  intros Hsetup Hs. unfold setupDirtyLevelHandler in Hsetup.
  destruct __DEV__ eqn:Hdev; simpl in Hsetup; [|done].
  destruct (dl !! target) as [slot|]; [|done].
  unfold ret in Hsetup. injection Hsetup as <- <-.
  unfold write_dirtyLevel. rewrite lookup_insert_eq. simpl.
  unfold dirtyLevel_setter, onTrigger. rewrite Hdev. simpl.
  destruct w as [st infos tr]. simpl in Hs.
  eexists _, _. split.
  - unfold_M. simpl.
    destruct ((0 <? value) && (value <? 4)); simpl.
    + rewrite Hs. simpl.
      destruct (bool_decide (is_Some (s_onTrigger s))); simpl; [done|].
      by rewrite app_nil_r.
    + by rewrite app_nil_r.
  - rewrite lookup_alter_eq, lookup_insert_eq. simpl.
    split; [done|]. split; [done|].
    intros t Hne. by rewrite lookup_alter_ne.
Qed.

(** *** Production builds call no debug callback *)

Lemma silent_same {A : Type} (m : M A) :
  (∀ w, match m w with
        | Normal _ w' => trace w' = trace w
        | Thrown _ w' => trace w' = trace w
        | Dangling => True
        | OutOfFuel => True
        end) →
  silent m.
Proof.
  intros H w. specialize (H w).
  destruct (m w) as [a w'|e w'| |]; try done;
    exists []; by rewrite app_nil_r.
Qed.

Lemma silent_ret {A : Type} (a : A) : silent (ret a).
Proof. by apply silent_same. Qed.

Lemma silent_throw {A : Type} (e : Error) : silent (@throw A e).
Proof. by apply silent_same. Qed.

Lemma silent_out_of_fuel {A : Type} : silent (@out_of_fuel A).
Proof. by apply silent_same. Qed.

Lemma silent_get_state : silent get_state.
Proof. by apply silent_same. Qed.

Lemma silent_modify (f : State → State) : silent (modify f).
Proof. by apply silent_same. Qed.

Lemma silent_getLink (l : nat) : silent (getLink l).
Proof.
  apply silent_same. intros w. unfold getLink.
  by destruct (links (heap w) !! l).
Qed.

Lemma silent_getDep (d : nat) : silent (getDep d).
Proof.
  apply silent_same. intros w. unfold getDep.
  by destruct (deps (heap w) !! d).
Qed.

Lemma silent_getSub (s : nat) : silent (getSub s).
Proof.
  apply silent_same. intros w. unfold getSub.
  by destruct (subscribers (heap w) !! s).
Qed.

Lemma silent_newLink (r : Link) : silent (newLink r).
Proof. by apply silent_same. Qed.

Lemma silent_newDep (r : Dep) : silent (newDep r).
Proof. by apply silent_same. Qed.

Lemma silent_emit (e : Event) : debug_call e = false → silent (emit e).
Proof.
  intros He w. simpl. exists [e]. split; [done|]. simpl. by rewrite He.
Qed.

Lemma silent_bind {A B : Type} (m : M A) (k : A → M B) :
  silent m → (∀ a, silent (k a)) → silent (bind m k).
Proof.
  intros Hm Hk w. unfold bind. specialize (Hm w).
  destruct (m w) as [a w1|e w1| |]; try done.
  destruct Hm as (tr1 & Htr1 & Hq1).
  specialize (Hk a w1).
  destruct (k a w1) as [b w2|e w2| |]; try done;
    destruct Hk as (tr2 & Htr2 & Hq2);
    exists (tr1 ++ tr2);
    (split; [by rewrite Htr2, Htr1, app_assoc
            |by rewrite forallb_app, Hq1, Hq2]).
Qed.

(** One step of the decomposition of a computation that emits no debug
    call. *)
Ltac silent_step :=
  first
    [ apply silent_ret
    | apply silent_throw
    | apply silent_out_of_fuel
    | apply silent_get_state
    | apply silent_getLink
    | apply silent_getDep
    | apply silent_getSub
    | apply silent_newLink
    | apply silent_newDep
    | apply silent_modify
    | apply silent_emit; reflexivity
    | apply silent_bind; [|intros ?]
    | match goal with
      | |- silent (match ?x with _ => _ end) => destruct x
      | |- silent (if ?b then _ else _) => destruct b
      end ].

Lemma silent_addSub_loop (fuel : nat) (l : option nat) :
  silent (addSub_loop fuel l).
Proof.
  revert l. induction fuel as [|fuel IH]; intros [x|]; simpl;
    try apply silent_ret; try apply silent_out_of_fuel.
  unfold addSub, when, setLink, setDep.
  repeat first [ apply IH | silent_step ].
Qed.

Lemma silent_Dep_track (fuel this : nat)
    (debugInfo : option DebuggerEventExtraInfo) :
  __DEV__ = false → silent (Dep_track fuel this debugInfo).
Proof.
  intros Hdev.
  unfold Dep_track, addSub, when, setLink, setDep, setSub.
  rewrite Hdev. simpl.
  repeat first [ apply silent_addSub_loop | silent_step ].
Qed.

Lemma silent_notify_loop (fuel : nat)
    (debugInfo : option DebuggerEventExtraInfo) (link : option nat) :
  __DEV__ = false → silent (notify_loop fuel debugInfo link).
Proof.
  intros Hdev.
  revert link. induction fuel as [|fuel IH]; intros [x|]; simpl;
    try apply silent_ret; try apply silent_out_of_fuel.
  unfold when. rewrite Hdev. simpl.
  repeat first [ apply IH | silent_step ].
Qed.

Lemma silent_Dep_trigger (fuel this : nat)
    (debugInfo : option DebuggerEventExtraInfo) :
  __DEV__ = false → silent (Dep_trigger fuel this debugInfo).
Proof.
  intros Hdev.
  unfold Dep_trigger, Dep_notify, activeSub_isComputed, setDep.
  repeat first [ by apply silent_notify_loop | silent_step ].
Qed.

Lemma silent_trigger_each (fuel : nat)
    (debugInfo : option DebuggerEventExtraInfo) (ds : list nat) :
  __DEV__ = false → silent (trigger_each fuel debugInfo ds).
Proof.
  intros Hdev. induction ds as [|d ds IH]; simpl; [apply silent_ret|].
  apply silent_bind; [by apply silent_Dep_trigger|intros _; apply IH].
Qed.

(** X14. A production build calls no debug callback: with [__DEV__] off,
    whatever [track], [Dep.track], [Dep.trigger], [trigger] and an
    assignment to the value of a computed add to the calls that leave the
    module, there is no [onTrack], no [onTrigger] and no [warn] among
    them, whether they return or throw. *)
Theorem production_calls_no_debug_hook
    (fuel d : nat) (debugInfo : option DebuggerEventExtraInfo)
    (target : Target) (trackType : TrackOpTypes) (type : TriggerOpTypes)
    (key : Key) (newValue oldValue oldTarget : JSValue)
    (c : ComputedRefImpl) :
  __DEV__ = false →
  silent (track fuel target trackType key)
  ∧ silent (Dep_track fuel d debugInfo)
  ∧ silent (Dep_trigger fuel d debugInfo)
  ∧ silent (trigger fuel target type key newValue oldValue oldTarget)
  ∧ silent (ComputedRefImpl_set_value c newValue).
Proof.
  intros Hdev.
  split; [|split; [by apply silent_Dep_track|
           split; [by apply silent_Dep_trigger|split]]].
  - unfold track.
    repeat first [ by apply silent_Dep_track | silent_step ].
  - unfold trigger.
    repeat first [ by apply silent_trigger_each | silent_step ].
  - unfold ComputedRefImpl_set_value, warn. rewrite Hdev.
    repeat silent_step.
Qed.

(** *** A trigger during the evaluation of a computed *)

Lemma Dep_trigger_inside_computed_run
    (fuel d : nat) (debugInfo : option DebuggerEventExtraInfo)
    (st : State) (infos : list DebuggerEventExtraInfo) (tr : list Event) :
  inside_computed st = true →
  is_Some (deps st !! d) →
  Dep_trigger fuel d debugInfo (mkWorld st infos tr)
  = Normal tt (mkWorld (bump d st) infos tr).
Proof.
  intros Hin [dr Hd]. unfold inside_computed in Hin.
  destruct (activeSub st) as [a|] eqn:Ha; [|done].
  destruct (subscribers st !! a) as [sa|] eqn:Hsa; [|done].
  unfold Dep_trigger, Dep_notify, activeSub_isComputed. unfold_M. simpl.
  rewrite Hd. simpl. rewrite Ha. simpl. rewrite Hsa. simpl. rewrite Hin.
  simpl.
  assert (Hb : set_globalVersion (fun v => v + 1)
                 (set_deps (alter (with_d_version (d_version dr + 1)) d) st)
               = bump d st).
  { unfold bump. f_equal. unfold set_deps. f_equal.
    apply alter_ext. intros x Hx. rewrite Hd in Hx. by injection Hx as <-. }
  destruct __DEV__; by rewrite Hb.
Qed.

Lemma bump_inside_computed (d : nat) (st : State) :
  inside_computed (bump d st) = inside_computed st.
Proof. done. Qed.

Lemma bump_allocated (d x : nat) (st : State) :
  is_Some (deps st !! x) → is_Some (deps (bump d st) !! x).
Proof.
  intros [r Hr]. unfold bump. simpl.
  destruct (decide (d = x)) as [->|Hne].
  - rewrite lookup_alter_eq, Hr. eauto.
  - rewrite lookup_alter_ne by done. eauto.
Qed.

Lemma trigger_each_inside_computed_run
    (fuel : nat) (debugInfo : option DebuggerEventExtraInfo)
    (infos : list DebuggerEventExtraInfo) (tr : list Event) (ds : list nat) :
  ∀ st,
  inside_computed st = true →
  Forall (fun d => is_Some (deps st !! d)) ds →
  trigger_each fuel debugInfo ds (mkWorld st infos tr)
  = Normal tt (mkWorld (foldl (fun st d => bump d st) st ds) infos tr).
Proof.
  induction ds as [|d ds IH]; intros st Hin Hall; [done|].
  apply Forall_cons in Hall as [Hd Hall]. simpl.
  unfold bind at 1. rewrite Dep_trigger_inside_computed_run by done.
  apply IH; [done|].
  eapply Forall_impl; [exact Hall|]. intros x. apply bump_allocated.
Qed.

(** X15. A write during the evaluation of a computed: [trigger] opens and
    closes its batch, adds one to the version of every dependency it
    collected, once for each time it collected it, and as much to
    [globalVersion] as it collected dependencies, and calls the [notify()]
    of no subscriber.  [startBatch] is taken to leave the dependencies and
    the active subscriber alone. *)
Theorem trigger_inside_computed_only_bumps
    (fuel : nat) (target : Target) (type : TriggerOpTypes) (key : Key)
    (newValue oldValue oldTarget : JSValue) (w : World)
    (depsMap : KeyToDepMap) :
  keeps_lists startBatch →
  inside_computed (heap w) = true →
  targetMap (heap w) !! target_id target = Some depsMap →
  Forall (fun d => is_Some (deps (heap w) !! d))
    (collect_deps target type key newValue depsMap) →
  trigger fuel target type key newValue oldValue oldTarget w
  = Normal tt
      (mkWorld
         (endBatch
            (foldl (fun st d => bump d st) (startBatch (heap w))
               (collect_deps target type key newValue depsMap)))
         (triggerEventInfos w)
         (trace w ++ [EvStartBatch; EvEndBatch])).
Proof.
  intros Hstart Hin Htm Hall.
  destruct w as [st infos tr]. simpl in Hin, Htm, Hall |- *.
  destruct (Hstart st) as (_ & Hd0 & Ha0 & Hs0).
  assert (Hin' : inside_computed (startBatch st) = true).
  { unfold inside_computed in Hin |- *. rewrite Ha0.
    destruct (activeSub st) as [a|]; [|done].
    destruct (subscribers st !! a) as [sa|] eqn:Hsa; [|done].
    destruct (Hs0 a sa Hsa) as (r' & -> & ->). done. }
  unfold trigger. unfold get_state. unfold bind at 1. simpl.
  unfold KeyToDepMap in *. rewrite Htm.
  unfold emit at 1. unfold bind at 1. simpl.
  unfold modify at 1. unfold bind at 1. simpl.
  unfold bind at 1.
  rewrite trigger_each_inside_computed_run; [|done|by rewrite Hd0].
  unfold_M. simpl. by rewrite <- app_assoc.
Qed.

End Reactivity.

Arguments mkWorld {JSValue} heap triggerEventInfos trace.
Arguments heap {JSValue} w.
Arguments trace {JSValue} w.
Arguments triggerEventInfos {JSValue} w.
Arguments Normal {JSValue A} a w.
Arguments Thrown {JSValue A} e w.
Arguments Dangling {JSValue A}.
Arguments OutOfFuel {JSValue A}.
Arguments EvOnTrack {JSValue} effect info.
Arguments EvOnTrigger {JSValue} effect info.
Arguments EvNotify {JSValue} sub.
Arguments EvStartBatch {JSValue}.
Arguments EvEndBatch {JSValue}.
Arguments EvWarn {JSValue} msg.

(** ** The debug hooks, build by build *)

(** C9. Outside a development build [onTrack] and [onTrigger] throw their
    internal error at once, with the world untouched, so before any
    callback; in a development build they never throw. *)
Theorem debug_hooks_throw_outside_dev
    (JSValue : Type) (sub : nat) (debugInfo : DebuggerEventExtraInfo JSValue)
    (w : World JSValue) :
  onTrack JSValue false sub debugInfo w
    = Thrown
        (InternalError
           "Internal error: onTrack should be called only in development.") w
  ∧ onTrigger JSValue false sub w
    = Thrown
        (InternalError
           "Internal error: onTrigger should be called only in development.")
        w
  ∧ (∀ e w', onTrack JSValue true sub debugInfo w ≠ Thrown e w')
  ∧ (∀ e w', onTrigger JSValue true sub w ≠ Thrown e w').
Proof.
  split; [done|]. split; [done|].
  unfold onTrack, onTrigger, bind, getSub, when, emit, get_triggerEventInfos,
    ret. simpl.
  split; intros e w';
    destruct (subscribers (heap w) !! sub) as [s|]; try done.
  - by destruct (bool_decide (is_Some (s_onTrack s))).
  - by destruct (bool_decide (is_Some (s_onTrigger s))).
Qed.

(** ** The properties on the sample graphs *)

(** A computed that is being evaluated silences [Dep.notify]; in this
    development build the trace stays empty. *)
Lemma Dep_notify_suppressed_in_computed_witness :
  activeSub graph_in_computed = Some 1%nat
  ∧ subscribers graph_in_computed !! 1%nat
    = Some (mkSubscriber None 4 true None None)
  ∧ Dep_notify Z true flag_NOTIFIED no_flush no_flush notify_only_recorded
      3 0 None (mkWorld graph_in_computed [] [])
    = Normal tt (mkWorld graph_in_computed [] []).
Proof.
  split; [reflexivity|]. split; [reflexivity|].
  apply Dep_notify_suppressed_in_computed
    with (a := 1%nat) (sa := mkSubscriber None 4 true None None);
    reflexivity.
Defined.

(** Outside the evaluation of a computed the same call opens a batch, fires
    the [onTrigger] callback of the effect 2, notifies it and closes the
    batch. *)
Example Dep_notify_outside_computed_notifies :
  Dep_notify Z true flag_NOTIFIED no_flush no_flush notify_only_recorded
    3 0 None (mkWorld graph_one_subscriber [] [])
  = Normal tt
      (mkWorld graph_one_subscriber []
         [EvStartBatch; EvOnTrigger 2 None; EvNotify 2; EvEndBatch]).
Proof. vm_compute. reflexivity. Qed.

(** Reading dependency 0 first in the second run moves link 10 behind 12. *)
Example Dep_track_rerun_reads_first_dep :
  Dep_track Z true flag_TRACKING flag_DIRTY 0 0 None
    (mkWorld graph_rerun [] [])
  = Normal (Some 10%nat) (mkWorld graph_read_once [] []).
Proof. vm_compute. reflexivity. Qed.

Lemma Dep_track_reuse_moves_link_to_tail_witness :
  wf_deps graph_rerun 1 [10; 11; 12]%nat = true
  ∧ ∃ w' lr' sa' pre post,
      Dep_track Z true flag_TRACKING flag_DIRTY 0 0 None
        (mkWorld graph_rerun [] []) = Normal (Some 10%nat) w'
      ∧ links (heap w') !! 10%nat = Some lr'
      ∧ l_version lr' = 3
      ∧ deps (heap w') = deps graph_rerun
      ∧ subscribers (heap w') !! 1%nat = Some sa'
      ∧ s_deps sa' = Some 10%nat
      ∧ [10; 11; 12]%nat = pre ++ 10%nat :: post
      ∧ wf_deps (heap w') 1 (pre ++ post ++ [10%nat]) = true
      ∧ pre ++ post ++ [10%nat] ≡ₚ [10; 11; 12]%nat.
Proof.
  split; [vm_compute; reflexivity|].
  apply (Dep_track_reuse_moves_link_to_tail Z true flag_TRACKING flag_DIRTY
           0 0 None (mkWorld graph_rerun [] []) 1%nat 10%nat
           (mkDep 3 (Some 10%nat) (Some 10%nat) None)
           (mkLink 0 1 (-1) (Some 11%nat) None None None None)
           [10; 11; 12]%nat);
    try reflexivity.
  apply list_elem_of_here.
Defined.



(** Shrinking the array to length 2 with a SET: the dependencies under
    ['length'] and under index 2 are triggered, those under 0, 1 and the
    iteration symbol are not. *)
Example trigger_length_2_versions :
  match
    trigger Z Z (fun v => v) index_ge digits_integer_key true flag_NOTIFIED
      no_flush no_flush notify_only_recorded 1 the_array SET
      (KString "length") 2 3 0 (mkWorld graph_array [] [])
  with
  | Normal _ w' =>
      map (fun d => d_version <$> deps (heap w') !! d) [0; 1; 2; 3; 4]%nat
  | _ => []
  end = [Some 1; Some 0; Some 0; Some 1; Some 0].
Proof. vm_compute. reflexivity. Qed.



Lemma Dep_trigger_bumps_then_notifies_witness :
  deps graph_array !! 0%nat = Some (mkDep 0 None None None)
  ∧ ∃ w1,
      Dep_trigger Z true flag_NOTIFIED no_flush no_flush notify_only_recorded
        1 0 None (mkWorld graph_array [] [])
      = Dep_notify Z true flag_NOTIFIED no_flush no_flush
          notify_only_recorded 1 0 None w1
      ∧ deps (heap w1) !! 0%nat = Some (mkDep 1 None None None)
      ∧ globalVersion (heap w1) = 0 + 1.
Proof.
  split; [reflexivity|].
  destruct (Dep_trigger_bumps_then_notifies Z true flag_NOTIFIED no_flush
              no_flush notify_only_recorded 1 0 None
              (mkWorld graph_array [] []) (mkDep 0 None None None)
              eq_refl) as (w1 & H1 & H2 & H3 & _).
  exists w1. split; [exact H1|]. split; [exact H2|exact H3].
Defined.

Lemma track_noop_when_inactive_witness :
  activeSub graph_idle = None
  ∧ track Z true flag_TRACKING flag_DIRTY 1 the_object GET (KString "a")
      (mkWorld graph_idle [] [])
    = Normal tt (mkWorld graph_idle [] []).
Proof.
  split; [reflexivity|].
  apply (track_noop_when_inactive Z true flag_TRACKING flag_DIRTY 1
           the_object GET (KString "a") (mkWorld graph_idle [] [])).
  left. reflexivity.
Defined.

(** Writing 9 to a computed that only has a getter: one warning in a
    development build, nothing in production, the graph untouched. *)
Example readonly_write_in_both_builds :
  ComputedRefImpl_set_value Z true
    (computed Z true (OfGetter Z (fun _ st => (7, st))) None false) 9
    (mkWorld graph_idle [] [])
  = Normal tt
      (mkWorld graph_idle []
         [EvWarn "Write operation failed: computed value is readonly"])
  ∧ ComputedRefImpl_set_value Z false
      (computed Z false (OfGetter Z (fun _ st => (7, st))) None false) 9
      (mkWorld graph_idle [] [])
    = Normal tt (mkWorld graph_idle [] []).
Proof. split; reflexivity. Qed.

(** In a development build [onTrigger] hands the last entry of
    [triggerEventInfos] to the callback of effect 2; the computed 1 has no
    callback. *)
Example onTrigger_in_dev :
  onTrigger Z true 2
    (mkWorld graph_in_computed [TrackInfo Z the_object GET (KString "a")] [])
  = Normal tt
      (mkWorld graph_in_computed [TrackInfo Z the_object GET (KString "a")]
         [EvOnTrigger 2 (Some (TrackInfo Z the_object GET (KString "a")))])
  ∧ onTrigger Z true 1 (mkWorld graph_in_computed [] [])
    = Normal tt (mkWorld graph_in_computed [] []).
Proof. split; vm_compute; reflexivity. Qed.

(** Reading dependency 0 a second time in the same run changes nothing. *)
Lemma Dep_track_repeat_is_idempotent_witness :
  shouldTrack graph_read_once = true
  ∧ ∃ w' w'',
      Dep_track Z true flag_TRACKING flag_DIRTY 0 0 None
        (mkWorld graph_read_once [] []) = Normal (Some 10%nat) w'
      ∧ Dep_track Z true flag_TRACKING flag_DIRTY 0 0 None w'
        = Normal (Some 10%nat) w''
      ∧ heap w' = graph_read_once ∧ heap w'' = graph_read_once
      ∧ trace w' = [] ++ dev_onTrack_events Z true
                           (mkSubscriber (Some 10%nat) 5 false None None)
                           1 None.
Proof.
  split; [reflexivity|].
  apply (Dep_track_repeat_is_idempotent Z true flag_TRACKING flag_DIRTY 0 0
           None (mkWorld graph_read_once [] []) 1%nat 10%nat
           (mkDep 3 (Some 10%nat) (Some 10%nat) None)
           (mkLink 0 1 3 None (Some 12%nat) None None None)
           (mkSubscriber (Some 10%nat) 5 false None None));
    try reflexivity.
  discriminate.
Defined.

(** C10, as stated, fails while tracking is paused: the active link of
    dependency 0 belongs to the active subscriber and is not marked for
    reuse, and [Dep.track] returns [undefined], not that link. *)
Lemma Dep_track_repeat_paused_returns_undefined :
  activeSub graph_read_once_paused = Some 1%nat
  ∧ d_activeLink <$> deps graph_read_once_paused !! 0%nat
    = Some (Some 10%nat)
  ∧ links graph_read_once_paused !! 10%nat
    = Some (mkLink 0 1 3 None (Some 12%nat) None None None)
  ∧ Dep_track Z true flag_TRACKING flag_DIRTY 0 0 None
      (mkWorld graph_read_once_paused [] [])
    = Normal None (mkWorld graph_read_once_paused [] [])
  ∧ Dep_track Z true flag_TRACKING flag_DIRTY 0 0 None
      (mkWorld graph_read_once_paused [] [])
    ≠ Normal (Some 10%nat) (mkWorld graph_read_once_paused [] []).
Proof. repeat split; try (vm_compute; reflexivity). discriminate. Qed.

(** C3, on the code: the effect 1 reads key ['a'] of an object, then key
    ['b'] of the same object is SET.  The registry knows the object and
    has no dependency under ['b']: no [Dep.trigger] runs and
    [globalVersion] is what it was.  On an object that was never tracked
    the same write does increment it. *)
Theorem trigger_unmatched_key_keeps_globalVersion :
  match
    track Z true flag_TRACKING flag_DIRTY 1 the_object GET (KString "a")
      (mkWorld graph_first_run [] [])
  with
  | Normal _ w1 =>
      match
        trigger Z Z (fun v => v) index_ge digits_integer_key true
          flag_NOTIFIED no_flush no_flush notify_only_recorded 1 the_object
          SET (KString "b") 1 0 0 w1
      with
      | Normal _ w2 => Some (globalVersion (heap w1), globalVersion (heap w2))
      | _ => None
      end
  | _ => None
  end = Some (0, 0)
  ∧ match
      trigger Z Z (fun v => v) index_ge digits_integer_key true
        flag_NOTIFIED no_flush no_flush notify_only_recorded 1 the_object
        SET (KString "b") 1 0 0 (mkWorld graph_first_run [] [])
    with
    | Normal _ w2 => Some (globalVersion (heap w2))
    | _ => None
    end = Some 1.
Proof. split; vm_compute; reflexivity. Qed.

(** ** The further properties on the sample graphs *)

(** Batches with nothing to flush and a [notify] that only records the
    call leave the graph alone. *)
Lemma no_flush_keeps_lists : keeps_lists no_flush.
Proof. intros st. unfold no_flush. repeat split; eauto. Qed.

Lemma notify_only_recorded_keeps_lists (s : nat) :
  keeps_lists (notify_only_recorded s).
Proof. intros st. unfold notify_only_recorded. repeat split; eauto. Qed.

Lemma no_flush_version_monotone : version_monotone no_flush.
Proof. intros st. unfold no_flush. lia. Qed.

Lemma notify_only_recorded_version_monotone (s : nat) :
  version_monotone (notify_only_recorded s).
Proof. intros st. unfold notify_only_recorded. lia. Qed.

(** Setting the length of the tracked array to 2 triggers two
    dependencies: the global version grows by at least 2. *)
Lemma trigger_globalVersion_grows_witness :
  version_monotone no_flush
  ∧ (∀ s, version_monotone (notify_only_recorded s))
  ∧ grows Z 1
      (Dep_trigger Z true flag_NOTIFIED no_flush no_flush
         notify_only_recorded 3 0 None)
  ∧ match
      trigger Z Z (fun v => v) index_ge digits_integer_key true flag_NOTIFIED
        no_flush no_flush notify_only_recorded 3 the_array SET
        (KString "length") 2 3 0 (mkWorld graph_array [] [])
    with
    | Normal _ w' =>
        globalVersion (heap (mkWorld (JSValue := Z) graph_array [] []))
        + match targetMap (heap (mkWorld (JSValue := Z) graph_array [] []))
                !! target_id the_array with
          | Some depsMap =>
              Z.of_nat
                (length
                   (collect_deps Z Z (fun v => v) index_ge digits_integer_key
                      the_array SET (KString "length") 2 depsMap))
          | None => 1
          end
        ≤ globalVersion (heap w')
    | Thrown _ w' =>
        globalVersion (heap (mkWorld (JSValue := Z) graph_array [] []))
        ≤ globalVersion (heap w')
    | _ => True
    end.
Proof.
  split; [exact no_flush_version_monotone|].
  split; [exact notify_only_recorded_version_monotone|].
  apply (trigger_globalVersion_grows Z Z (fun v => v) index_ge
           digits_integer_key true flag_NOTIFIED no_flush no_flush
           notify_only_recorded no_flush_version_monotone
           no_flush_version_monotone notify_only_recorded_version_monotone
           3 0 None the_array SET (KString "length") 2 3 0
           (mkWorld graph_array [] [])).
Defined.

(** The unattached link 5 joins the subscriber list of dependency 0 behind
    link 0. *)
Lemma addSub_appends_to_subscriber_list_witness :
  wf_subs graph_unattached_link 0 [0%nat] = true
  ∧ links graph_unattached_link !! 5%nat
    = Some (mkLink 0 3 0 None None None None None)
  ∧ (5%nat ∉ [0%nat])
  ∧ ∃ w' : World Z,
      addSub Z 5 (mkWorld graph_unattached_link [] []) = Normal tt w'
      ∧ wf_subs (heap w') 0 ([0%nat] ++ [5%nat]) = true
      ∧ subscribers (heap w') = subscribers graph_unattached_link
      ∧ (∀ a ls, wf_deps graph_unattached_link a ls = true
                 → wf_deps (heap w') a ls = true)
      ∧ trace w' = [].
Proof.
  assert (Hnotin : 5%nat ∉ [0%nat]).
  { intros H. apply list_elem_of_singleton in H. discriminate. }
  split; [vm_compute; reflexivity|]. split; [vm_compute; reflexivity|].
  split; [exact Hnotin|].
  apply (addSub_appends_to_subscriber_list Z
           (mkWorld graph_unattached_link [] []) 0%nat 5%nat
           (mkLink 0 3 0 None None None None None) [0%nat]);
    [vm_compute; reflexivity | vm_compute; reflexivity | reflexivity
    | reflexivity | exact Hnotin].
Defined.

(** The effect 3 reads dependency 0 for the first time: the new link is
    the only one in its dependency list and the second one in the
    subscriber list of dependency 0. *)
Lemma Dep_track_new_link_joins_both_lists_witness :
  no_link_of graph_second_effect (mkDep 0 None (Some 0%nat) None) 3 = true
  ∧ promotes flag_TRACKING (mkSubscriber None 5 false None None)
      (mkDep 0 None (Some 0%nat) None) = false
  ∧ wf_deps graph_second_effect 3 [] = true
  ∧ wf_subs graph_second_effect 0 [0%nat] = true
  ∧ ∃ (w' : World Z) lr',
      Dep_track Z true flag_TRACKING flag_DIRTY 0 0 None
        (mkWorld graph_second_effect [] [])
      = Normal (Some (fresh (dom (links graph_second_effect)))) w'
      ∧ links (heap w') !! fresh (dom (links graph_second_effect))
        = Some lr'
      ∧ l_dep lr' = 0%nat ∧ l_sub lr' = 3%nat ∧ l_version lr' = 0
      ∧ d_activeLink <$> deps (heap w') !! 0%nat
        = Some (Some (fresh (dom (links graph_second_effect))))
      ∧ wf_deps (heap w') 3
          ([] ++ [fresh (dom (links graph_second_effect))]) = true
      ∧ wf_subs (heap w') 0
          (if truthy (Z.land 5 flag_TRACKING)
           then [0%nat] ++ [fresh (dom (links graph_second_effect))]
           else [0%nat]) = true
      ∧ trace w' = [] ++ dev_onTrack_events Z true
                           (mkSubscriber None 5 false None None) 3 None.
Proof.
  split; [reflexivity|]. split; [vm_compute; reflexivity|].
  split; [vm_compute; reflexivity|]. split; [vm_compute; reflexivity|].
  apply (Dep_track_new_link_joins_both_lists Z true flag_TRACKING flag_DIRTY
           0 0 None (mkWorld graph_second_effect [] []) 3%nat
           (mkSubscriber None 5 false None None)
           (mkDep 0 None (Some 0%nat) None) [] [0%nat]);
    vm_compute; reflexivity.
Defined.

(** The effect 1 reads the property ['a'] of an object the registry has
    not seen. *)
Lemma track_first_read_registers_dep_witness :
  wf_deps graph_first_run 1 [] = true
  ∧ getDepFromReactive the_object (KString "a") graph_first_run = None
  ∧ ∃ (w' : World Z) dr lr,
      track Z true flag_TRACKING flag_DIRTY 0 the_object GET (KString "a")
        (mkWorld graph_first_run [] []) = Normal tt w'
      ∧ getDepFromReactive the_object (KString "a") (heap w')
        = Some (fresh (dom (deps graph_first_run)))
      ∧ (∀ t k, target_id t ≠ target_id the_object ∨ k ≠ KString "a" →
           getDepFromReactive t k (heap w')
           = getDepFromReactive t k graph_first_run)
      ∧ deps (heap w') !! fresh (dom (deps graph_first_run)) = Some dr
      ∧ d_version dr = 0 ∧ d_computed dr = None
      ∧ d_activeLink dr = Some (fresh (dom (links graph_first_run)))
      ∧ (∀ x r, deps graph_first_run !! x = Some r
                → deps (heap w') !! x = Some r)
      ∧ links (heap w') !! fresh (dom (links graph_first_run)) = Some lr
      ∧ l_dep lr = fresh (dom (deps graph_first_run)) ∧ l_sub lr = 1%nat
      ∧ wf_deps (heap w') 1 ([] ++ [fresh (dom (links graph_first_run))])
        = true
      ∧ wf_subs (heap w') (fresh (dom (deps graph_first_run)))
          (if truthy (Z.land 5 flag_TRACKING)
           then [fresh (dom (links graph_first_run))] else []) = true
      ∧ globalVersion (heap w') = 0.
Proof.
  split; [vm_compute; reflexivity|]. split; [vm_compute; reflexivity|].
  apply (track_first_read_registers_dep Z true flag_TRACKING flag_DIRTY 0
           the_object GET (KString "a") (mkWorld graph_first_run [] [])
           1%nat (mkSubscriber None 5 false None None) []);
    vm_compute; reflexivity.
Defined.

(** Dependency 0 of [graph_one_subscriber] notifies its one subscriber,
    the effect 2, inside one batch. *)
Lemma Dep_notify_reaches_every_subscriber_once_witness :
  keeps_lists no_flush
  ∧ (∀ s, keeps_lists (notify_only_recorded s))
  ∧ outside_computed graph_one_subscriber = true
  ∧ wf_subs graph_one_subscriber 0 [0%nat] = true
  ∧ (∀ l r, l ∈ [0%nat] → links graph_one_subscriber !! l = Some r →
            is_Some (subscribers graph_one_subscriber !! l_sub r))
  ∧ ∃ (w' : World Z) mid,
      Dep_notify Z true flag_NOTIFIED no_flush no_flush notify_only_recorded
        1 0 None (mkWorld graph_one_subscriber [] []) = Normal tt w'
      ∧ heap w'
        = no_flush
            (notify_all notify_only_recorded
               (rev (link_subs (links graph_one_subscriber) [0%nat]))
               (no_flush graph_one_subscriber))
      ∧ trace w' = [] ++ [EvStartBatch] ++ mid ++ [EvEndBatch]
      ∧ notified Z mid = rev (link_subs (links graph_one_subscriber) [0%nat])
      ∧ forallb (notify_call Z) mid = true.
Proof.
  assert (Hsubs : ∀ l r, l ∈ [0%nat] →
            links graph_one_subscriber !! l = Some r →
            is_Some (subscribers graph_one_subscriber !! l_sub r)).
  { intros l r Hl Hr. apply list_elem_of_singleton in Hl. subst l.
    vm_compute in Hr. injection Hr as <-. vm_compute. eauto. }
  split; [exact no_flush_keeps_lists|].
  split; [exact notify_only_recorded_keeps_lists|].
  split; [reflexivity|]. split; [vm_compute; reflexivity|].
  split; [exact Hsubs|].
  apply (Dep_notify_reaches_every_subscriber_once Z true flag_NOTIFIED
           no_flush no_flush notify_only_recorded 1 0 None
           (mkWorld graph_one_subscriber [] []) [0%nat]
           no_flush_keeps_lists notify_only_recorded_keeps_lists);
    [reflexivity | vm_compute; reflexivity | exact Hsubs | simpl; lia].
Defined.

(** The effect 1 reads ['a'] of a new object; setting ['a'] notifies it. *)
Lemma tracked_read_is_notified_on_set_witness :
  keeps_lists no_flush
  ∧ (∀ s, keeps_lists (notify_only_recorded s))
  ∧ truthy (Z.land 5 flag_TRACKING) = true
  ∧ wf_deps graph_first_run 1 [] = true
  ∧ targetMap graph_first_run !! target_id the_object = None
  ∧ KString "a" ≠ KUndefined
  ∧ ∃ (w1 w2 : World Z) mid,
      track Z true flag_TRACKING flag_DIRTY 1 the_object GET (KString "a")
        (mkWorld graph_first_run [] []) = Normal tt w1
      ∧ trigger Z Z (fun v => v) index_ge digits_integer_key true
          flag_NOTIFIED no_flush no_flush notify_only_recorded 1 the_object
          SET (KString "a") 1 0 0 w1 = Normal tt w2
      ∧ trace w2
        = trace w1 ++ [EvStartBatch; EvStartBatch] ++ mid
                   ++ [EvEndBatch; EvEndBatch]
      ∧ notified Z mid = [1%nat]
      ∧ forallb (notify_call Z) mid = true.
Proof.
  split; [exact no_flush_keeps_lists|].
  split; [exact notify_only_recorded_keeps_lists|].
  split; [reflexivity|]. split; [vm_compute; reflexivity|].
  split; [reflexivity|]. split; [discriminate|].
  apply (tracked_read_is_notified_on_set Z Z (fun v => v) index_ge
           digits_integer_key true flag_TRACKING flag_DIRTY flag_NOTIFIED
           no_flush no_flush notify_only_recorded 1 the_object GET
           (KString "a") 1 0 0 (mkWorld graph_first_run [] []) 1%nat
           (mkSubscriber None 5 false None None) []
           no_flush_keeps_lists notify_only_recorded_keeps_lists);
    try reflexivity; try discriminate; try (vm_compute; reflexivity).
Defined.

(** In its second run the effect 1 reads the property ['a'] twice, with
    GET and then with HAS: the first read reuses the link 10 of the last
    run and moves it to the tail, the second changes nothing. *)
Lemma track_second_read_adds_nothing_witness :
  map_Forall (fun _ dp => d_version dp ≠ -1) (deps graph_rerun_tracked)
  ∧ track Z true flag_TRACKING flag_DIRTY 0 the_object GET (KString "a")
      (mkWorld graph_rerun_tracked [] [])
    = Normal tt (mkWorld graph_read_once_tracked [] [])
  ∧ ∃ sa1,
      subscribers graph_read_once_tracked !! 1%nat = Some sa1
      ∧ track Z true flag_TRACKING flag_DIRTY 0 the_object HAS (KString "a")
          (mkWorld graph_read_once_tracked [] [])
        = Normal tt
            (mkWorld graph_read_once_tracked []
               ([] ++ dev_onTrack_events Z true sa1 1
                        (Some (TrackInfo Z the_object HAS (KString "a"))))).
Proof.
  assert (Hver : map_Forall (fun _ dp => d_version dp ≠ -1)
                   (deps graph_rerun_tracked)).
  { apply map_Forall_to_list. vm_compute.
    repeat (apply List.Forall_cons; [discriminate|]). apply List.Forall_nil. }
  assert (Hfirst :
    track Z true flag_TRACKING flag_DIRTY 0 the_object GET (KString "a")
      (mkWorld graph_rerun_tracked [] [])
    = Normal tt (mkWorld graph_read_once_tracked [] [])).
  { vm_compute. reflexivity. }
  split; [exact Hver|]. split; [exact Hfirst|].
  apply (track_second_read_adds_nothing Z true flag_TRACKING flag_DIRTY 0
           the_object GET HAS (KString "a")
           (mkWorld graph_rerun_tracked [] [])
           (mkWorld graph_read_once_tracked [] []) 1%nat).
  - reflexivity.
  - reflexivity.
  - intros d dp Hd. exact (Hver d dp Hd).
  - exact Hfirst.
Defined.

(** The handler is set up for the effect 2, whose [dirtyLevel] is 0. *)
Lemma setupDirtyLevelHandler_keeps_the_level_witness :
  ({[2%nat := mkDirtyLevelSlot (Some 0) None false]}
     : gmap nat DirtyLevelSlot) !! 2%nat
  = Some (mkDirtyLevelSlot (Some 0) None false)
  ∧ ∃ dl1 slot1,
      setupDirtyLevelHandler Z true 2
        {[2%nat := mkDirtyLevelSlot (Some 0) None false]}
        (mkWorld graph_one_subscriber [] []) 
      = Normal dl1 (mkWorld graph_one_subscriber [] [])
      ∧ dl1 !! 2%nat = Some slot1
      ∧ dl_accessor slot1 = true
      ∧ read_dirtyLevel slot1
        = read_dirtyLevel (mkDirtyLevelSlot (Some 0) None false)
      ∧ (∀ t, t ≠ 2%nat →
           dl1 !! t
           = ({[2%nat := mkDirtyLevelSlot (Some 0) None false]}
                : gmap nat DirtyLevelSlot) !! t)
      ∧ setupDirtyLevelHandler Z true 2 dl1
          (mkWorld graph_one_subscriber [] [])
        = Normal dl1 (mkWorld graph_one_subscriber [] []).
Proof.
  split; [reflexivity|].
  apply (setupDirtyLevelHandler_keeps_the_level Z true 2%nat
           {[2%nat := mkDirtyLevelSlot (Some 0) None false]}
           (mkWorld graph_one_subscriber [] [])
           (mkDirtyLevelSlot (Some 0) None false)).
  reflexivity.
Defined.

(** With the handler in place, raising the [dirtyLevel] of the effect 2
    to 1 calls its [onTrigger] callback. *)
Lemma dirtyLevel_writes_are_reported_witness :
  setupDirtyLevelHandler Z true 2
    {[2%nat := mkDirtyLevelSlot (Some 0) None false]}
    (mkWorld graph_one_subscriber [] [])
  = Normal (<[2%nat := mkDirtyLevelSlot None (Some 0) true]>
              {[2%nat := mkDirtyLevelSlot (Some 0) None false]})
      (mkWorld graph_one_subscriber [] [])
  ∧ ∃ dl2 slot2,
      write_dirtyLevel Z true 2 1
        (<[2%nat := mkDirtyLevelSlot None (Some 0) true]>
           {[2%nat := mkDirtyLevelSlot (Some 0) None false]})
        (mkWorld graph_one_subscriber [] [])
      = Normal dl2
          (mkWorld graph_one_subscriber []
             ([] ++ if (0 <? 1) && (1 <? 4)
                       && bool_decide (is_Some (Some 7%nat))
                    then [EvOnTrigger 2 (last [])] else []))
      ∧ dl2 !! 2%nat = Some slot2
      ∧ read_dirtyLevel slot2 = Some 1
      ∧ (∀ t, t ≠ 2%nat →
           dl2 !! t
           = (<[2%nat := mkDirtyLevelSlot None (Some 0) true]>
                {[2%nat := mkDirtyLevelSlot (Some 0) None false]}
                : gmap nat DirtyLevelSlot) !! t).
Proof.
  split; [reflexivity|].
  apply (dirtyLevel_writes_are_reported Z true 2%nat 1
           {[2%nat := mkDirtyLevelSlot (Some 0) None false]}
           (<[2%nat := mkDirtyLevelSlot None (Some 0) true]>
              {[2%nat := mkDirtyLevelSlot (Some 0) None false]})
           (mkWorld graph_one_subscriber [] [])
           (mkWorld graph_one_subscriber [] [])
           (mkSubscriber (Some 0%nat) 5 false None (Some 7%nat)));
    reflexivity.
Defined.

(** In a production build a read and a write of the tracked array call no
    debug callback. *)
Lemma production_calls_no_debug_hook_witness :
  silent Z (track Z false flag_TRACKING flag_DIRTY 3 the_array GET
              (KString "length"))
  ∧ silent Z (Dep_track Z false flag_TRACKING flag_DIRTY 3 0 None)
  ∧ silent Z (Dep_trigger Z false flag_NOTIFIED no_flush no_flush
                notify_only_recorded 3 0 None)
  ∧ silent Z (trigger Z Z (fun v => v) index_ge digits_integer_key false
                flag_NOTIFIED no_flush no_flush notify_only_recorded 3
                the_array SET (KString "length") 2 3 0)
  ∧ silent Z (ComputedRefImpl_set_value Z false
                (computed Z false (OfGetter Z (fun _ st => (0, st))) None
                   false)
                1).
Proof.
  apply (production_calls_no_debug_hook Z Z (fun v => v) index_ge
           digits_integer_key false flag_TRACKING flag_DIRTY flag_NOTIFIED
           no_flush no_flush notify_only_recorded 3 0 None the_array GET SET
           (KString "length") 2 3 0
           (computed Z false (OfGetter Z (fun _ st => (0, st))) None false)).
  reflexivity.
Defined.

(** While the computed 1 is evaluated, setting the length of the tracked
    array to 2 bumps the dependencies of ['length'] and of the index 2,
    and notifies nobody. *)
Lemma trigger_inside_computed_only_bumps_witness :
  keeps_lists no_flush
  ∧ inside_computed graph_array_in_computed = true
  ∧ trigger Z Z (fun v => v) index_ge digits_integer_key true flag_NOTIFIED
      no_flush no_flush notify_only_recorded 3 the_array SET
      (KString "length") 2 3 0 (mkWorld graph_array_in_computed [] [])
    = Normal tt
        (mkWorld
           (no_flush
              (foldl (fun st d => bump d st)
                 (no_flush graph_array_in_computed)
                 (collect_deps Z Z (fun v => v) index_ge digits_integer_key
                    the_array SET (KString "length") 2
                    [(KString "length", 0%nat); (KString "0", 1%nat);
                     (KString "1", 2%nat); (KString "2", 3%nat);
                     (ITERATE_KEY, 4%nat)])))
           [] ([] ++ [EvStartBatch; EvEndBatch])).
Proof.
  split; [exact no_flush_keeps_lists|]. split; [reflexivity|].
  apply (trigger_inside_computed_only_bumps Z Z (fun v => v) index_ge
           digits_integer_key true flag_NOTIFIED no_flush no_flush
           notify_only_recorded 3 the_array SET (KString "length") 2 3 0
           (mkWorld graph_array_in_computed [] [])
           [(KString "length", 0%nat); (KString "0", 1%nat);
            (KString "1", 2%nat); (KString "2", 3%nat);
            (ITERATE_KEY, 4%nat)]
           no_flush_keeps_lists);
    [reflexivity | vm_compute; reflexivity |].
  vm_compute.
  repeat (apply Forall_cons; split; [eexists; reflexivity|]).
  apply Forall_nil. exact I.
Defined.
